(** * ImmoEliza: the postal-code enrichment and name-popularity pipeline

    A shallow embedding of [immoelizaData.py]: the three classes
    [PostalDataProcessor], [PostalCodeFormatter] and [PropertyDataMerger]
    and the script body that chains them.

    The Python values that flow through the pipeline, the exceptions that
    Python raises and the few pandas operations the code calls are modelled
    in the modules [Py] and [pd]; every function of the source file is then
    a definition of the same name.

    Conventions.
    - A Python [str] is a [string]: a sequence of code points below 256.
    - A Python [float] is a [spec_float] of the Standard Library.
    - A Python [int] is an integer of [Z], of any size: [int] reads
      integers beyond 64 bits from text, and numpy does not take them.
    - A pandas column is the list of the values it holds, and its dtype
      is computed from them: int64 for integers of 64 bits only, float64
      for such integers and floats, object otherwise. Numbers are compared by value, so an integer
      cell and the float of the same value are the same key; where pandas
      hands a value over in the type of its column or row ([iterrows]),
      the model converts it.
    - A data frame has no index: every frame of the program carries the
      default positional index. A frame read from a file has distinct
      column names.
    - [to_csv] followed by [read_csv] is taken to give back the table. *)

From Stdlib Require Import ZArith QArith Qpower List String Ascii Bool Lia.
From Stdlib Require Import Floats.SpecFloat.
From Stdlib Require Import Decimal DecimalString DecimalZ DecimalPos.
From Stdlib Require Import Sorting.Permutation Sorting.Sorted.
Import ListNotations.

Open Scope Z_scope.
Open Scope string_scope.
Open Scope list_scope.

(** ** Python values, exceptions and builtins *)

Module Py.

(** The objects found in the cells of the tables. [np.nan] is the float
    [S754_nan]. *)
Inductive pyval : Type :=
| VInt (z : Z)
| VFloat (f : spec_float)
| VStr (s : string)
| VNone.

Definition nan : pyval := VFloat S754_nan.

Inductive exn : Type :=
| KeyError (key : string)
| ValueError
| OverflowError
| TypeError
| MergeError
| FileNotFoundError (path : string).

(** A computation returns or raises. *)
Inductive result (A : Type) : Type :=
| Ok (a : A)
| Raise (e : exn).

Arguments Ok {A} a.
Arguments Raise {A} e.

Definition bind {A B} (m : result A) (k : A -> result B) : result B :=
  match m with
  | Ok a => k a
  | Raise e => Raise e
  end.

Fixpoint mapM {A B} (f : A -> result B) (l : list A) : result (list B) :=
  match l with
  | [] => Ok []
  | x :: l' =>
      bind (f x) (fun y => bind (mapM f l') (fun ys => Ok (y :: ys)))
  end.

(** [str.isspace] on one code point below 256: the characters that
    [str.strip] removes. *)
Definition isspace (c : ascii) : bool :=
  let n := N_of_ascii c in
  (((9 <=? n) && (n <=? 13)) || ((28 <=? n) && (n <=? 32))
   || (n =? 133) || (n =? 160))%N.

(** The white space that [int] skips at the two ends of a string. The
    four separators 28 to 31 are white space for [str.isspace] and not
    for [int]: [int("\x1c12")] raises ValueError. *)
Definition int_space (c : ascii) : bool :=
  let n := N_of_ascii c in
  (((9 <=? n) && (n <=? 13)) || (n =? 32) || (n =? 133) || (n =? 160))%N.

Fixpoint lstrip (space : ascii -> bool) (s : string) : string :=
  match s with
  | EmptyString => EmptyString
  | String c s' => if space c then lstrip space s' else s
  end.

Fixpoint rstrip (space : ascii -> bool) (s : string) : string :=
  match s with
  | EmptyString => EmptyString
  | String c s' =>
      match rstrip space s' with
      | EmptyString => if space c then EmptyString else String c EmptyString
      | r => String c r
      end
  end.

(** [s.strip()] *)
Definition strip (s : string) : string := rstrip isspace (lstrip isspace s).

(** [s.split(sep)] for a separator of one character: never empty. *)
Fixpoint split (sep : ascii) (s : string) : list string :=
  match s with
  | EmptyString => [EmptyString]
  | String c s' =>
      if Ascii.eqb c sep then EmptyString :: split sep s'
      else match split sep s' with
           | seg :: segs => String c seg :: segs
           | [] => [String c EmptyString]
           end
  end.

(** [sep.join(l)] *)
Fixpoint join (sep : string) (l : list string) : string :=
  match l with
  | [] => EmptyString
  | [x] => x
  | x :: l' => x ++ sep ++ join sep l'
  end.

Definition digit_of (c : ascii) : option Z :=
  let n := N_of_ascii c in
  if ((48 <=? n) && (n <=? 57))%N then Some (Z.of_N n - 48) else None.

(** The digits of a decimal literal: single underscores may separate
    digits; [pending] says that a digit must come next (at the start and
    after an underscore). *)
Fixpoint parse_digits (acc : Z) (pending : bool) (s : string) : option Z :=
  match s with
  | EmptyString => if pending then None else Some acc
  | String c s' =>
      if Ascii.eqb c "_" then
        if pending then None else parse_digits acc true s'
      else
        match digit_of c with
        | Some d => parse_digits (10 * acc + d) false s'
        | None => None
        end
  end.

Definition parse_signed (s : string) : option Z :=
  match s with
  | String "-" s' => option_map Z.opp (parse_digits 0 true s')
  | String "+" s' => parse_digits 0 true s'
  | _ => parse_digits 0 true s
  end.

(** [int(s)] for a string, base 10: the white space of [int_space] is
    skipped at both ends. [None] stands for ValueError. (The interpreter's
    limit on the number of digits is not modelled.) *)
Definition int_of_str (s : string) : option Z :=
  parse_signed (rstrip int_space (lstrip int_space s)).

(** [int(f)] for a float: truncation toward zero. *)
Definition int_of_float (f : spec_float) : result Z :=
  match f with
  | S754_zero _ => Ok 0
  | S754_infinity _ => Raise OverflowError
  | S754_nan => Raise ValueError
  | S754_finite s m e =>
      let a := Z.shiftl (Z.pos m) e in
      Ok (if s then - a else a)
  end.

(** [int(x)] *)
Definition int (x : pyval) : result Z :=
  match x with
  | VInt z => Ok z
  | VFloat f => int_of_float f
  | VStr s =>
      match int_of_str s with
      | Some z => Ok z
      | None => Raise ValueError
      end
  | VNone => Raise TypeError
  end.

(** The float64 nearest to an integer, ties to even: what pandas stores
    when an integer enters a float64 column or row. *)
Definition float_of_int (z : Z) : spec_float :=
  binary_normalize 53 1024 z 0 false.

(** [str(z)] for an integer. *)
Definition str_of_int (z : Z) : string := NilZero.string_of_int (Z.to_int z).

(** The float NaN. *)
Definition is_nan (x : pyval) : bool :=
  match x with
  | VFloat S754_nan => true
  | _ => false
  end.

(** The integers that numpy takes as int64 or uint64. *)
Definition fits_numpy (z : Z) : bool :=
  ((- 2 ^ 63 <=? z) && (z <? 2 ^ 64))%Z.

(** [np.isnan(x)]. A Python int outside the range of int64 and uint64
    becomes an array of objects, on which [isnan] is not defined:
    TypeError, as for None and text. *)
Definition isnan (x : pyval) : result bool :=
  match x with
  | VInt z => if fits_numpy z then Ok false else Raise TypeError
  | VFloat _ => Ok (is_nan x)
  | VStr _ | VNone => Raise TypeError
  end.

(** [pd.isna(x)]: None and NaN are the missing values. *)
Definition isna (x : pyval) : bool :=
  match x with
  | VNone => true
  | VFloat S754_nan => true
  | _ => false
  end.

(** [s in l] for a list of strings. *)
Definition str_in (s : string) (l : list string) : bool :=
  existsb (String.eqb s) l.

End Py.

Export Py.

(** ** Raising and state

    [result] models code that only computes; [ST S] models code that also
    reads and writes a state [S] (the object [self], or the files on
    disk): when an exception is raised the state reached so far stays. *)

Definition ST (S A : Type) : Type := S -> result A * S.

Class Monad (M : Type -> Type) : Type := {
  ret : forall {A}, A -> M A;
  mbind : forall {A B}, M A -> (A -> M B) -> M B
}.

#[export] Instance result_monad : Monad result := {
  ret := fun A a => Ok a;
  mbind := fun A B m k => Py.bind m k
}.

#[export] Instance ST_monad (S : Type) : Monad (ST S) := {
  ret := fun A a s => (Ok a, s);
  mbind := fun A B m k s =>
    match m s with
    | (Ok a, s') => k a s'
    | (Raise e, s') => (Raise e, s')
    end
}.

Definition get {S} : ST S S := fun s => (Ok s, s).
Definition put {S} (s : S) : ST S unit := fun _ => (Ok tt, s).
Definition lift {S A} (r : result A) : ST S A := fun s => (r, s).

Declare Scope py_scope.
Delimit Scope py_scope with py.
Notation "x <- m ;; k" := (mbind m (fun x => k))
  (at level 61, m at next level, right associativity) : py_scope.
Notation "m ;;; k" := (mbind m (fun _ => k))
  (at level 61, right associativity) : py_scope.
Open Scope py_scope.

(** ** Keys: how pandas compares the values of a key column *)

(** Numbers are compared by value: a finite number is kept as an odd
    mantissa and a binary exponent, so an integer and the float of the same
    value give one key. The two missing values share the key [KNA]. *)
Inductive key : Type :=
| KNum (n e : Z)
| KInf (neg : bool)
| KStr (s : string)
| KNA.

Fixpoint odd_part (p : positive) : positive * Z :=
  match p with
  | xO p' => let '(q, k) := odd_part p' in (q, k + 1)
  | _ => (p, 0)
  end.

Definition dyadic (neg : bool) (m : positive) (e : Z) : key :=
  let '(q, k) := odd_part m in
  KNum (if neg then Z.neg q else Z.pos q) (e + k).

Definition key_of (v : pyval) : key :=
  match v with
  | VInt Z0 => KNum 0 0
  | VInt (Zpos p) => dyadic false p 0
  | VInt (Zneg p) => dyadic true p 0
  | VFloat (S754_zero _) => KNum 0 0
  | VFloat (S754_infinity s) => KInf s
  | VFloat S754_nan => KNA
  | VFloat (S754_finite s m e) => dyadic s m e
  | VStr s => KStr s
  | VNone => KNA
  end.

Definition key_eqb (a b : key) : bool :=
  match a, b with
  | KNum n1 e1, KNum n2 e2 => ((n1 =? n2) && (e1 =? e2))%Z
  | KInf s1, KInf s2 => Bool.eqb s1 s2
  | KStr s1, KStr s2 => String.eqb s1 s2
  | KNA, KNA => true
  | _, _ => false
  end.

(** The order in which keys are sorted: numbers by value, text by code
    point, numbers before text, missing values last. *)
Definition key_leb (a b : key) : bool :=
  match a, b with
  | KNum n1 e1, KNum n2 e2 =>
      let e := Z.min e1 e2 in
      (n1 * 2 ^ (e1 - e) <=? n2 * 2 ^ (e2 - e))%Z
  | KInf true, (KNum _ _ | KInf _) => true
  | KNum _ _, KInf s => negb s
  | KInf false, KInf false => true
  | KInf false, (KNum _ _ | KInf true) => false
  | (KNum _ _ | KInf _), KStr _ => true
  | KStr _, (KNum _ _ | KInf _) => false
  | KStr s1, KStr s2 => String.leb s1 s2
  | _, KNA => true
  | KNA, _ => false
  end.

(** [a == b] between two cells. *)
Definition same_key (a b : pyval) : bool := key_eqb (key_of a) (key_of b).

(** [a == b] in Python, as a dict compares its keys: NaN equals nothing,
    None only itself. *)
Definition py_eqb (a b : pyval) : bool :=
  match a, b with
  | VNone, VNone => true
  | VNone, _ | _, VNone => false
  | _, _ => negb (is_nan a) && negb (is_nan b) && same_key a b
  end.

(** [d.get(k)] on a dict kept as its items in insertion order. *)
Fixpoint dict_get {V} (d : list (pyval * V)) (k : pyval) : option V :=
  match d with
  | [] => None
  | (k', v) :: d' => if py_eqb k' k then Some v else dict_get d' k
  end.

(** [d.get(k)] on a dict with string keys; [None] is the Python None. *)
Fixpoint str_dict_get (d : list (string * pyval)) (k : string) : pyval :=
  match d with
  | [] => VNone
  | (k', v) :: d' => if String.eqb k' k then v else str_dict_get d' k
  end.

(** ** A stable sort *)

Section Sort.
Context {A : Type} (leb : A -> A -> bool).

Fixpoint insert_by (x : A) (l : list A) : list A :=
  match l with
  | [] => [x]
  | y :: l' => if leb x y then x :: l else y :: insert_by x l'
  end.

(** Insertion from the right end: an element stays in front of the later
    elements it is not above. *)
Fixpoint sort_by (l : list A) : list A :=
  match l with
  | [] => []
  | x :: l' => insert_by x (sort_by l')
  end.
End Sort.

(** ** The pandas operations the program calls *)

Module pd.

(** A table: the column labels and the rows, each row holding one cell per
    column. *)
Record DataFrame : Type := {
  columns : list string;
  rows : list (list pyval)
}.

Fixpoint index_of (c : string) (cols : list string) : option nat :=
  match cols with
  | [] => None
  | c' :: cols' =>
      if String.eqb c' c then Some O else option_map S (index_of c cols')
  end.

Definition col_index (df : DataFrame) (c : string) : result nat :=
  match index_of c (columns df) with
  | Some i => Ok i
  | None => Raise (KeyError c)
  end.

Definition cell (i : nat) (r : list pyval) : pyval := nth i r VNone.

(** [df[c]] *)
Definition getitem (df : DataFrame) (c : string) : result (list pyval) :=
  i <- col_index df c ;;
  Ok (map (cell i) (rows df)).

Fixpoint set_nth {A} (i : nat) (v : A) (l : list A) : list A :=
  match l, i with
  | [], _ => []
  | _ :: l', O => v :: l'
  | x :: l', S i' => x :: set_nth i' v l'
  end.

Fixpoint zip_with {A B C} (f : A -> B -> C) (l1 : list A) (l2 : list B)
  : list C :=
  match l1, l2 with
  | x :: l1', y :: l2' => f x y :: zip_with f l1' l2'
  | _, _ => []
  end.

(** [df[c] = values]: an existing column is overwritten where it stands, a
    new one is added at the end. *)
Definition setitem (df : DataFrame) (c : string) (values : list pyval)
  : result DataFrame :=
  if Nat.eqb (List.length values) (List.length (rows df)) then
    Ok match index_of c (columns df) with
       | Some i =>
           {| columns := columns df;
              rows := zip_with (fun r v => set_nth i v r) (rows df) values |}
       | None =>
           {| columns := columns df ++ [c];
              rows := zip_with (fun r v => r ++ [v]) (rows df) values |}
       end
  else Raise ValueError.

(** [s.apply(f)]: [f] is called on every value, missing ones too; the
    first exception it raises ends the call. *)
Definition apply (f : pyval -> result pyval) (s : list pyval)
  : result (list pyval) :=
  mapM f s.

(** [df[[c1, ..., cn]]] *)
Definition select (df : DataFrame) (cs : list string) : result DataFrame :=
  ixs <- mapM (col_index df) cs ;;
  Ok {| columns := cs;
        rows := map (fun r => map (fun i => cell i r) ixs) (rows df) |}.

Definition is_int (v : pyval) : bool :=
  match v with
  | VInt _ => true
  | _ => false
  end.

(** A value that a numeric column holds: a float, or an integer of 64
    bits. A larger integer is kept as a Python object. *)
Definition is_number (v : pyval) : bool :=
  match v with
  | VInt z => ((- 2 ^ 63 <=? z) && (z <? 2 ^ 63))%Z
  | VFloat _ => true
  | _ => false
  end.

Definition is_str (v : pyval) : bool :=
  match v with
  | VStr _ => true
  | _ => false
  end.

(** The dtype of a column: int64 when it holds integers of 64 bits
    only, float64 when it holds such integers and floats, object for
    anything else. *)
Inductive dtype : Type := int64 | float64 | object.

Definition dtype_of (cells : list pyval) : dtype :=
  if forallb (fun v => is_int v && is_number v) cells then int64
  else if forallb is_number cells then float64
  else object.

(** [df[c].dtype]; object for a column that the frame does not have. *)
Definition dtype_at (df : DataFrame) (c : string) : dtype :=
  match index_of c (columns df) with
  | Some i => dtype_of (map (cell i) (rows df))
  | None => object
  end.

Definition numeric (t : dtype) : bool :=
  match t with
  | object => false
  | _ => true
  end.

Definition is_int64 (t : dtype) : bool :=
  match t with
  | int64 => true
  | _ => false
  end.

(** A value as a float64 column or row holds it. *)
Definition to_float (v : pyval) : pyval :=
  match v with
  | VInt z => VFloat (float_of_int z)
  | _ => v
  end.

(** A value as a column of dtype [t] holds it. *)
Definition cast (t : dtype) (v : pyval) : pyval :=
  match t with
  | float64 => to_float v
  | _ => v
  end.

(** [df.nlargest(n, c)] for a frame whose column [c] has the dtype [t],
    with the default [keep='first']: the first [n] rows in descending
    order of column [c], rows of equal value in their order of
    appearance, rows without a value last. A column of objects is
    refused. (A group cut from a frame has the dtypes of that frame,
    whatever its own rows hold, so the dtype is given beside the
    rows.) *)
Definition nlargest (n : nat) (c : string) (t : dtype) (df : DataFrame)
  : result DataFrame :=
  i <- col_index df c ;;
  if numeric t then
    let above r1 r2 := key_leb (key_of (cell i r2)) (key_of (cell i r1)) in
    let present := filter (fun r => negb (is_nan (cell i r))) (rows df) in
    let absent := filter (fun r => is_nan (cell i r)) (rows df) in
    Ok {| columns := columns df;
          rows := firstn n (sort_by above present ++ absent) |}
  else Raise TypeError.

(** The distinct values of a list, each at its first occurrence. *)
Fixpoint unique (l : list pyval) : list pyval :=
  match l with
  | [] => []
  | x :: l' => x :: filter (fun y => negb (same_key x y)) (unique l')
  end.

(** The keys of [groupby]: missing values form no group ([dropna=True]),
    the groups come sorted by key ([sort=True]). *)
Definition group_keys (cells : list pyval) : list pyval :=
  sort_by (fun a b => key_leb (key_of a) (key_of b))
          (unique (filter (fun v => negb (isna v)) cells)).

(** [df.groupby(c)]: every key with the rows that carry it, in their
    order. *)
Definition groupby (df : DataFrame) (c : string)
  : result (list (pyval * DataFrame)) :=
  i <- col_index df c ;;
  Ok (map (fun k =>
             (k, {| columns := columns df;
                    rows := filter (fun r => same_key k (cell i r))
                                   (rows df) |}))
          (group_keys (map (cell i) (rows df)))).

(** [df.groupby(c).apply(f).reset_index(drop=True)] for an [f] that
    returns a frame: the frames of the groups, one under the other. *)
Definition groupby_apply (df : DataFrame) (c : string)
  (f : DataFrame -> result DataFrame) : result DataFrame :=
  gs <- groupby df c ;;
  fs <- mapM (fun g => f (snd g)) gs ;;
  Ok {| columns := match fs with
                   | [] => columns df
                   | d :: _ => columns d
                   end;
        rows := flat_map rows fs |}.

(** [df.groupby(c).apply(f).reset_index(name=name)] for an [f] that
    returns a scalar: one row per group, the key and the value. For a
    frame without any group [apply] gives an empty frame, not a series,
    and [reset_index] of a frame takes no [name]: TypeError. *)
Definition groupby_apply_scalar (df : DataFrame) (c : string)
  (f : DataFrame -> result pyval) (name : string) : result DataFrame :=
  gs <- groupby df c ;;
  vs <- mapM (fun g => v <- f (snd g) ;; Ok [fst g; v]) gs ;;
  match vs with
  | [] => Raise TypeError
  | _ :: _ => Ok {| columns := [c; name]; rows := vs |}
  end.

(** A row as [iterrows] yields it from a frame whose columns have the
    dtypes [ts]: a series of one dtype. When every column is numeric and
    they are not all int64 the row is float64, and its integers come as
    floats; when a column holds objects the row does too, and every value
    comes as its column holds it. *)
Definition as_series (ts : list dtype) (r : list pyval) : list pyval :=
  if forallb numeric ts then
    if forallb is_int64 ts then r else map to_float r
  else zip_with cast ts r.

(** [df.iterrows()], without the index labels. *)
Definition iterrows (ts : list dtype) (df : DataFrame)
  : list (list pyval) :=
  map (as_series ts) (rows df).

(** [row[c]] for a row yielded by [df.iterrows()]. *)
Definition row_get (df : DataFrame) (r : list pyval) (c : string)
  : result pyval :=
  i <- col_index df c ;;
  Ok (cell i r).

Definition remove_nth {A} (i : nat) (l : list A) : list A :=
  firstn i l ++ skipn (S i) l.

Definition mem (c : string) (cs : list string) : bool :=
  existsb (String.eqb c) cs.

(** A key column of objects in which [merge] finds no integer: text,
    None. (Among objects, an integer too large for 64 bits makes the
    column pass for one of integers.) *)
Definition string_like (cells : list pyval) : bool :=
  negb (numeric (dtype_of cells)) && negb (existsb is_int cells).

(** The check that [merge] makes before it joins: a key column of
    objects that is string-like, against a numeric one, is refused with
    ValueError. It is not made when one of the two frames has no rows. *)
Definition keys_clash (lk rk : list pyval) : bool :=
  match lk, rk with
  | _ :: _, _ :: _ =>
      (string_like lk && numeric (dtype_of rk))
      || (numeric (dtype_of lk) && string_like rk)
  | _, _ => false
  end.

(** A suffix makes two columns of one frame the same: a column that is
    renamed, beside one that has the new name and is not renamed. *)
Definition suffix_clash (cols : list string) (renamed : string -> bool)
  (suffix : string) : bool :=
  existsb (fun c => renamed c && mem (c ++ suffix)%string cols
                    && negb (renamed (c ++ suffix)%string))
          cols.

(** [left.merge(right, on=on, how='left')]: the rows of [left] in their
    order, each once per row of [right] with the same key, and once with
    missing values when there is none. Columns other than the key that both
    frames have get the suffixes [_x] and [_y]; MergeError when that gives
    one frame two columns of the same name. *)
Definition merge (left right : DataFrame) (on : string)
  : result DataFrame :=
  li <- col_index left on ;;
  ri <- col_index right on ;;
  if keys_clash (map (cell li) (rows left)) (map (cell ri) (rows right))
  then Raise ValueError
  else
    let rcols := remove_nth ri (columns right) in
    let lboth c := negb (String.eqb c on) && mem c rcols in
    let rboth c := mem c (columns left) in
    let lname c := if lboth c then (c ++ "_x")%string else c in
    let rname c := if rboth c then (c ++ "_y")%string else c in
    if suffix_clash (columns left) lboth "_x" || suffix_clash rcols rboth "_y"
    then Raise MergeError
    else
      Ok {| columns := map lname (columns left) ++ map rname rcols;
            rows :=
              flat_map
                (fun l =>
                   match filter (fun r => same_key (cell li l) (cell ri r))
                                (rows right) with
                   | [] => [l ++ map (fun _ => nan) rcols]
                   | ms => map (fun r => l ++ remove_nth ri r) ms
                   end)
                (rows left) |}.

End pd.

Export pd.

(** ** Files *)

Module io.

(** What a path holds: a table written as CSV, a table in an Excel sheet,
    or a JSON object whose values are lists of strings. Two paths are the
    same file when they are the same string. *)
Inductive file : Type :=
| CSV (df : DataFrame)
| Excel (df : DataFrame)
| JSON (d : list (string * list string)).

Definition fs : Type := list (string * file).

Fixpoint lookup (path : string) (d : fs) : option file :=
  match d with
  | [] => None
  | (p, f) :: d' => if String.eqb p path then Some f else lookup path d'
  end.

(** [pd.read_csv(path)] *)
Definition read_csv (path : string) : ST fs DataFrame :=
  fun d =>
    match lookup path d with
    | Some (CSV df) => (Ok df, d)
    | Some _ => (Raise ValueError, d)
    | None => (Raise (FileNotFoundError path), d)
    end.

(** [pd.read_excel(path)] *)
Definition read_excel (path : string) : ST fs DataFrame :=
  fun d =>
    match lookup path d with
    | Some (Excel df) => (Ok df, d)
    | Some _ => (Raise ValueError, d)
    | None => (Raise (FileNotFoundError path), d)
    end.

(** [json.load(open(path))] *)
Definition json_load (path : string) : ST fs (list (string * list string)) :=
  fun d =>
    match lookup path d with
    | Some (JSON m) => (Ok m, d)
    | Some _ => (Raise ValueError, d)
    | None => (Raise (FileNotFoundError path), d)
    end.

(** [df.to_csv(path, index=False)] *)
Definition to_csv (df : DataFrame) (path : string) : ST fs unit :=
  fun d => (Ok tt, (path, CSV df) :: d).

End io.

Export io.

(** ** class PostalDataProcessor *)

Module PostalDataProcessor.

Record t : Type := mk {
  property_data : DataFrame;
  postal_data : DataFrame;
  ins_to_postal : list (string * list string);
  postal_data_dict : list (pyval * list (string * pyval))
}.

Definition _load_json (json_path : string)
  : ST fs (list (string * list string)) :=
  json_load json_path.

(** [set_index('Code_INS')[[...]].to_dict(orient='index')]: one inner dict
    per row, under the row's code; [to_dict] refuses an index with a
    repeated value. *)
Definition _create_postal_data_dict (postal_data : DataFrame)
  : result (list (pyval * list (string * pyval))) :=
  index <- getitem postal_data "Code_INS" ;;
  sub <- select postal_data ["Population"; "Wealth_Index"; "Density"] ;;
  if Nat.eqb (List.length (unique index)) (List.length index) then
    Ok (combine index (map (combine (columns sub)) (rows sub)))
  else Raise ValueError.

Definition __init__
  (property_data_path postal_data_path ins_to_postal_path : string)
  : ST fs t :=
  property_data <- read_csv property_data_path ;;
  postal_data <- read_excel postal_data_path ;;
  ins_to_postal <- _load_json ins_to_postal_path ;;
  postal_data_dict <- lift (_create_postal_data_dict postal_data) ;;
  ret (mk property_data postal_data ins_to_postal postal_data_dict).

(** The loop of [_get_ins_code] over [self.ins_to_postal.items()]. *)
Fixpoint scan_items (items : list (string * list string))
  (postal_code : pyval) : result pyval :=
  match items with
  | [] => Ok VNone
  | (ins_code, postal_list) :: items' =>
      z <- int postal_code ;;
      if str_in (str_of_int z) postal_list then
        c <- int (VStr ins_code) ;;
        Ok (VInt c)
      else scan_items items' postal_code
  end.

Definition _get_ins_code (self : t) (postal_code : pyval) : result pyval :=
  scan_items (ins_to_postal self) postal_code.

(** [self.postal_data_dict.get(ins_code, {})] *)
Definition record_of (self : t) (ins_code : pyval) : list (string * pyval) :=
  match dict_get (postal_data_dict self) ins_code with
  | Some d => d
  | None => []
  end.

Definition _get_population (self : t) (ins_code : pyval) : pyval :=
  str_dict_get (record_of self ins_code) "Population".

Definition _get_wealth_index (self : t) (ins_code : pyval) : pyval :=
  str_dict_get (record_of self ins_code) "Wealth_Index".

Definition _get_density (self : t) (ins_code : pyval) : pyval :=
  str_dict_get (record_of self ins_code) "Density".

(** [self.property_data[c] = self.property_data[src].apply(f)] *)
Definition assign (c src : string) (f : t -> pyval -> result pyval)
  : ST t unit :=
  self <- get ;;
  s <- lift (getitem (property_data self) src) ;;
  values <- lift (apply (f self) s) ;;
  df <- lift (setitem (property_data self) c values) ;;
  put (mk df (postal_data self) (ins_to_postal self) (postal_data_dict self)).

Definition enrich_property_data : ST t DataFrame :=
  assign "INS_Code" "postal_code" _get_ins_code ;;;
  assign "Population" "INS_Code" (fun self c => Ok (_get_population self c)) ;;;
  assign "Wealth_Index" "INS_Code"
         (fun self c => Ok (_get_wealth_index self c)) ;;;
  assign "Density" "INS_Code" (fun self c => Ok (_get_density self c)) ;;;
  self <- get ;;
  ret (property_data self).

Definition save_enriched_data (self : t) (output_path : string)
  : ST fs unit :=
  to_csv (property_data self) output_path.

End PostalDataProcessor.

(** ** class PostalCodeFormatter *)

Module PostalCodeFormatter.

(** The lambda that [format_postal_codes] applies to every cell. *)
Definition format_cell (x : pyval) : result pyval :=
  match x with
  | VStr s =>
      z <- int (VStr (strip (hd EmptyString (split "," s)))) ;;
      Ok (VInt z)
  | VInt _ | VFloat _ =>
      missing <- isnan x ;;
      if negb missing then z <- int x ;; Ok (VInt z) else Ok nan
  | VNone => Ok nan
  end.

Definition format_postal_codes (df : DataFrame) (postal_code_column : string)
  : result DataFrame :=
  s <- getitem df postal_code_column ;;
  values <- apply format_cell s ;;
  setitem df postal_code_column values.

Definition save_formatted_data (df : DataFrame) (output_path : string)
  : ST fs unit :=
  to_csv df output_path.

End PostalCodeFormatter.

(** ** class PropertyDataMerger *)

Module PropertyDataMerger.

Section Repr.

(** [repr] of a finite non-zero float, as Python prints it; the program
    never inspects the digits. *)
Variable repr_finite : bool -> positive -> Z -> string.

(** [f"{v}"] *)
Definition format (v : pyval) : string :=
  match v with
  | VInt z => str_of_int z
  | VStr s => s
  | VNone => "None"
  | VFloat (S754_zero s) => if s then "-0.0" else "0.0"
  | VFloat (S754_infinity s) => if s then "-inf" else "inf"
  | VFloat S754_nan => "nan"
  | VFloat (S754_finite s m e) => repr_finite s m e
  end.

(** [group.nlargest(5, "MS_FREQUENCY")[[...]]], for a group cut from a
    frame whose MS_FREQUENCY column has the dtype [t]. *)
Definition top5 (t : dtype) (group : DataFrame) : result DataFrame :=
  largest <- nlargest 5 "MS_FREQUENCY" t group ;;
  select largest ["postal_code"; "TX_FST_NAME"; "MS_FREQUENCY"].

(** [f"{row['TX_FST_NAME']} ({row['MS_FREQUENCY']})"] *)
Definition token (group : DataFrame) (row : list pyval) : result string :=
  name <- row_get group row "TX_FST_NAME" ;;
  frequency <- row_get group row "MS_FREQUENCY" ;;
  Ok (format name ++ " (" ++ format frequency ++ ")")%string.

(** [", ".join(... for _, row in group.iterrows())], for a group whose
    columns have the dtypes [ts]. *)
Definition names_text (ts : list dtype) (group : DataFrame) : result pyval :=
  tokens <- mapM (token group) (iterrows ts group) ;;
  Ok (VStr (join ", " tokens)).

(** The local [top_names] of [merge_with_top_names]. *)
Definition top_names (df_new_data : DataFrame) : result DataFrame :=
  groupby_apply df_new_data "postal_code"
    (top5 (dtype_at df_new_data "MS_FREQUENCY")).

(** The local [top_names_pivot] of [merge_with_top_names]. The columns
    of [top_names] have the dtypes that they have in [df_new_data]. *)
Definition top_names_pivot (df_new_data : DataFrame) : result DataFrame :=
  top <- top_names df_new_data ;;
  groupby_apply_scalar top "postal_code"
    (names_text (map (dtype_at df_new_data) (columns top))) "top_names".

Definition merge_with_top_names
  (properties_path names_path output_path : string) : ST fs unit :=
  df_properties <- read_csv properties_path ;;
  df_new_data <- read_csv names_path ;;
  top_names_pivot <- lift (top_names_pivot df_new_data) ;;
  merged_properties <-
    lift (merge df_properties top_names_pivot "postal_code") ;;
  to_csv merged_properties output_path.

End Repr.

End PropertyDataMerger.

(** ** The script *)

Section Script.

Variable repr_finite : bool -> positive -> Z -> string.

Definition property_data_path : string :=
  "./Becode-Bouman-8/projects/immo_eliza/Step_1_Pre_Dataset.csv".
Definition postal_data_path : string :=
  "./Becode-Bouman-8/projects/immo_eliza/Step_1_Postal_Data.xlsx".
Definition ins_to_postal_path : string :=
  "./Becode-Bouman-8/projects/immo_eliza/Step_0_Code_INS_to_Postal.json".
Definition raw_names_path : string :=
  "/home/batman/Documents/Becode-Bouman-8/names.csv".

(** A method call on the local object [processor]. *)
Definition call {S A} (m : ST S A) (obj : S) : ST fs (A * S) :=
  fun d =>
    match m obj with
    | (Ok a, obj') => (Ok (a, obj'), d)
    | (Raise e, _) => (Raise e, d)
    end.

Definition main : ST fs unit :=
  processor <-
    PostalDataProcessor.__init__
      property_data_path postal_data_path ins_to_postal_path ;;
  enriched <- call PostalDataProcessor.enrich_property_data processor ;;
  let processor := snd enriched in
  PostalDataProcessor.save_enriched_data processor "Step_2_Dataset.csv" ;;;
  df_names <- read_csv raw_names_path ;;
  formatted_names <-
    lift (PostalCodeFormatter.format_postal_codes df_names "postal_code") ;;
  PostalCodeFormatter.save_formatted_data formatted_names "names.csv" ;;;
  PropertyDataMerger.merge_with_top_names repr_finite
    "Step_2_Dataset.csv" "names.csv" "Propertities.csv".

End Script.

(** ** Vocabulary of the statements *)

Fixpoint has_char (c : ascii) (s : string) : bool :=
  match s with
  | EmptyString => false
  | String c' s' => Ascii.eqb c' c || has_char c s'
  end.

(** The part of a string before its first comma. *)
Definition leading_segment (s : string) : string :=
  hd EmptyString (split "," s).

(** The raw values on which the normalizer returns: text whose leading
    segment, stripped, reads as an integer; the integers that numpy takes;
    the floats that are not infinite; None. *)
Definition normalizes (x : pyval) : bool :=
  match x with
  | VStr s =>
      match int_of_str (strip (leading_segment s)) with
      | Some _ => true
      | None => false
      end
  | VInt z => fits_numpy z
  | VFloat (S754_infinity _) => false
  | _ => true
  end.

(** The integer of a float's sign and mantissa. *)
Definition signed (s : bool) (m : positive) : Z :=
  if s then Z.neg m else Z.pos m.

(** A frame in which every row has one cell per column. *)
Definition wf_frame (df : DataFrame) : Prop :=
  Forall (fun r => List.length r = List.length (columns df)) (rows df).

Definition has_column (df : DataFrame) (c : string) : Prop :=
  In c (columns df).





(** [above fi r1 r2]: row [r1] does not have the lower value in column
    [fi]; the order in which [nlargest] sorts. *)
Definition above (fi : nat) (r1 r2 : list pyval) : bool :=
  key_leb (key_of (cell fi r2)) (key_of (cell fi r1)).

(** The rows of a group: those whose cell in column [i] has the key of
    [k]. *)
Definition group_rows (i : nat) (k : pyval) (rs : list (list pyval))
  : list (list pyval) :=
  filter (fun r => same_key k (cell i r)) rs.

Definition three_cells (pc ni fi : nat) (r : list pyval) : list pyval :=
  [cell pc r; cell ni r; cell fi r].

Definition three_columns : list string :=
  ["postal_code"; "TX_FST_NAME"; "MS_FREQUENCY"].

(** The rows that [nlargest] ranks: those with a value in column [fi] in
    descending order, then those without. *)
Definition ranking (fi : nat) (rs : list (list pyval))
  : list (list pyval) :=
  sort_by (above fi) (filter (fun r => negb (is_nan (cell fi r))) rs)
  ++ filter (fun r => is_nan (cell fi r)) rs.

(** The rows that [top5] gives for the group of [k]. *)
Definition top_rows (pc ni fi : nat) (rs : list (list pyval)) (k : pyval)
  : list (list pyval) :=
  map (three_cells pc ni fi) (firstn 5 (ranking fi (group_rows pc k rs))).

(** The keys under which the rows of a name table are grouped. *)
Definition postal_keys (pc : nat) (N : DataFrame) : list pyval :=
  group_keys (map (cell pc) (rows N)).

(** The frame that [top_names] computes from a name table. *)
Definition top_frame (pc ni fi : nat) (N : DataFrame) : DataFrame :=
  {| columns := match postal_keys pc N with
                | [] => columns N
                | _ :: _ => three_columns
                end;
     rows := flat_map (top_rows pc ni fi (rows N)) (postal_keys pc N) |}.

(** The dtypes of the three columns of a name table. *)
Definition row_types (N : DataFrame) : list dtype :=
  map (dtype_at N) three_columns.

(** The token of one record [postal code; name; frequency] of a table
    whose three columns have the dtypes [ts]: the name and the frequency
    are printed as [iterrows] hands them over. *)
Definition token_text (repr_finite : bool -> positive -> Z -> string)
  (ts : list dtype) (r : list pyval) : string :=
  (PropertyDataMerger.format repr_finite (cell 1 (as_series ts r)) ++ " ("
   ++ PropertyDataMerger.format repr_finite (cell 2 (as_series ts r))
   ++ ")")%string.

(** The rows of the summary computed from the rows [T] of [top_names]. *)
Definition summary_rows (repr_finite : bool -> positive -> Z -> string)
  (ts : list dtype) (T : list (list pyval)) : list (list pyval) :=
  map (fun k =>
         [k; VStr (join ", " (map (token_text repr_finite ts)
                                  (group_rows 0 k T)))])
      (group_keys (map (cell 0) T)).

(** The value that the left merge attaches to a listing whose postal code
    is [x]: the text of the summary row with that key, or NaN. *)
Definition attached (S : DataFrame) (x : pyval) : pyval :=
  match find (fun row => same_key x (cell 0 row)) (rows S) with
  | Some row => cell 1 row
  | None => nan
  end.

(** The columns that enrichment writes. *)
Definition derived_columns : list string :=
  ["INS_Code"; "Population"; "Wealth_Index"; "Density"].

(** A postal-code string that is the decimal text of the integer it reads
    as: no leading zero, sign "+", blank or underscore. *)
Definition canonical (s : string) : bool :=
  match int_of_str s with
  | Some z => String.eqb (str_of_int z) s
  | None => false
  end.

(** A mapping without the postal-code strings that are not canonical. *)
Definition prune (items : list (string * list string))
  : list (string * list string) :=
  map (fun e => (fst e, filter canonical (snd e))) items.

(** The entries of a mapping that list the string [s]. *)
Definition listed_under (s : string) (items : list (string * list string))
  : list (string * list string) :=
  filter (fun e => str_in s (snd e)) items.

(** No postal-code string stands under two entries. *)
Definition unambiguous (items : list (string * list string)) : Prop :=
  forall s, (List.length (listed_under s items) <= 1)%nat.

(** The inner dict that the store keeps for a row of the demographic
    table. *)
Definition demographic_record (pi wi di : nat) (r : list pyval)
  : list (string * pyval) :=
  [("Population", cell pi r); ("Wealth_Index", cell wi r);
   ("Density", cell di r)].

(** An action on the disk that leaves every path outside [paths] as it
    was, whether it returns or raises. *)
Definition writes_only {A} (paths : list string) (m : ST fs A) : Prop :=
  forall d r d', m d = (r, d') ->
    forall q, ~ In q paths -> lookup q d' = lookup q d.

(** The files that the script writes. *)
Definition output_paths : list string :=
  ["Step_2_Dataset.csv"; "names.csv"; "Propertities.csv"].

(** The postal code at the head of a summary row, as an integer. *)
Definition code_of (row : list pyval) : Z :=
  match cell 0 row with
  | VInt z => z
  | _ => 0
  end.

(** ** Sample data *)

Module Sample.

Definition no_frame : DataFrame := {| columns := []; rows := [] |}.

(** The mapping and the demographic record of the scenarios. *)
Definition mapping : list (string * list string) :=
  [("100", ["1000"; "1010"])].

Definition demographics : list (pyval * list (string * pyval)) :=
  [(VInt 100,
    [("Population", VInt 5000); ("Wealth_Index", VInt 12);
     ("Density", VInt 300)])].

Definition processor (listings : DataFrame) : PostalDataProcessor.t :=
  PostalDataProcessor.mk listings no_frame mapping demographics.

(** Listings without a [postal_code] column. *)
Definition no_postal_code : DataFrame :=
  {| columns := ["price"]; rows := [[VInt 250000]; [VInt 310000]] |}.

(** Listings of which one has no postal code: the column is read as
    floats, 1000.0 and NaN. *)
Definition missing_postal_code : DataFrame :=
  {| columns := ["price"; "postal_code"];
     rows := [[VInt 250000; VFloat (S754_finite false 125 3)];
              [VInt 310000; nan]] |}.

(** The listing of the first scenario, and a second one whose postal
    code is in no entry of the mapping. *)
Definition listings : DataFrame :=
  {| columns := ["price"; "postal_code"];
     rows := [[VInt 250000; VInt 1000]; [VInt 310000; VInt 9999]] |}.

Definition enriched_listings : DataFrame :=
  {| columns := ["price"; "postal_code"; "INS_Code"; "Population";
                 "Wealth_Index"; "Density"];
     rows := [[VInt 250000; VInt 1000; VInt 100; VInt 5000; VInt 12;
               VInt 300];
              [VInt 310000; VInt 9999; VNone; VNone; VNone; VNone]] |}.

(** Listings that already have a column named [Population]. *)
Definition with_population : DataFrame :=
  {| columns := ["postal_code"; "Population"]; rows := [[VInt 1000; VInt 7]] |}.

Definition with_population_enriched : DataFrame :=
  {| columns := ["postal_code"; "Population"; "INS_Code"; "Wealth_Index";
                 "Density"];
     rows := [[VInt 1000; VInt 5000; VInt 100; VInt 12; VInt 300]] |}.

(** The name records of the scenario, with two more under the same code,
    one under another code and one without a code. *)
Definition names : DataFrame :=
  {| columns := ["postal_code"; "TX_FST_NAME"; "MS_FREQUENCY"];
     rows := [[VInt 1000; VStr "Anna"; VInt 50];
              [VInt 1000; VStr "Ben"; VInt 80];
              [VInt 1000; VStr "Cara"; VInt 80];
              [VInt 2000; VStr "Dirk"; VInt 7];
              [VInt 1000; VStr "Eva"; VInt 20];
              [nan; VStr "Finn"; VInt 90];
              [VInt 1000; VStr "Gus"; VInt 60];
              [VInt 1000; VStr "Hana"; VInt 20]] |}.

Definition names_summary : DataFrame :=
  {| columns := ["postal_code"; "top_names"];
     rows := [[VInt 1000;
               VStr "Ben (80), Cara (80), Gus (60), Anna (50), Eva (20)"];
              [VInt 2000; VStr "Dirk (7)"]] |}.

(** Listings to merge: one with a summary, one without, one without a
    postal code. *)
Definition to_merge : DataFrame :=
  {| columns := ["price"; "postal_code"];
     rows := [[VInt 250000; VInt 2000]; [VInt 310000; VInt 9999];
              [VInt 180000; nan]] |}.

(** What the merge makes of them with the summary above. *)
Definition merged_listings : DataFrame :=
  {| columns := ["price"; "postal_code"; "top_names"];
     rows := [[VInt 250000; VInt 2000; VStr "Dirk (7)"];
              [VInt 310000; VInt 9999; nan];
              [VInt 180000; nan; nan]] |}.




(** Raw name records: the first carries two codes in one field, so the
    raw values of the two records differ. *)
Definition raw_names : DataFrame :=
  {| columns := ["postal_code"; "TX_FST_NAME"; "MS_FREQUENCY"];
     rows := [[VStr "1000, 1010"; VStr "Anna"; VInt 50];
              [VStr "1000"; VStr "Ben"; VInt 80]] |}.

Definition postal_table : DataFrame :=
  {| columns := ["Code_INS"; "Population"; "Wealth_Index"; "Density"];
     rows := [[VInt 100; VInt 5000; VInt 12; VInt 300]] |}.

(** The input files of the script. *)
Definition disk : fs :=
  [(property_data_path, CSV listings);
   (postal_data_path, Excel postal_table);
   (ins_to_postal_path, JSON mapping);
   (raw_names_path, CSV raw_names)].

(** The files that the script leaves on that disk. *)
Definition formatted_names : DataFrame :=
  {| columns := ["postal_code"; "TX_FST_NAME"; "MS_FREQUENCY"];
     rows := [[VInt 1000; VStr "Anna"; VInt 50];
              [VInt 1000; VStr "Ben"; VInt 80]] |}.

Definition merged : DataFrame :=
  {| columns := ["price"; "postal_code"; "INS_Code"; "Population";
                 "Wealth_Index"; "Density"; "top_names"];
     rows := [[VInt 250000; VInt 1000; VInt 100; VInt 5000; VInt 12;
               VInt 300; VStr "Ben (80), Anna (50)"];
              [VInt 310000; VInt 9999; VNone; VNone; VNone; VNone; nan]] |}.

Definition disk_after : fs :=
  ("Propertities.csv", CSV merged)
  :: ("names.csv", CSV formatted_names)
  :: ("Step_2_Dataset.csv", CSV enriched_listings) :: disk.

(** The summary of the raw records, had they been grouped as they are. *)
Definition raw_summary : DataFrame :=
  {| columns := ["postal_code"; "top_names"];
     rows := [[VStr "1000"; VStr "Ben (80)"];
              [VStr "1000, 1010"; VStr "Anna (50)"]] |}.

(** The disk without the raw name records. *)
Definition disk_without_names : fs :=
  [(property_data_path, CSV listings);
   (postal_data_path, Excel postal_table);
   (ins_to_postal_path, JSON mapping)].

(** The disk as the first two steps of the script leave it. *)
Definition disk_before_merge : fs :=
  ("names.csv", CSV formatted_names)
  :: ("Step_2_Dataset.csv", CSV enriched_listings) :: disk.

Definition no_repr (s : bool) (m : positive) (e : Z) : string := "".

(** Two areas, and the same two in the other order; a mapping with a
    postal code written with a leading zero. *)
Definition two_areas : PostalDataProcessor.t :=
  PostalDataProcessor.mk no_frame no_frame
    [("200", ["2000"]); ("100", ["1000"; "1010"])] [].

Definition two_areas_swapped : PostalDataProcessor.t :=
  PostalDataProcessor.mk no_frame no_frame
    [("100", ["1000"; "1010"]); ("200", ["2000"])] [].

(** Name records with one raw postal code that does not read as an
    integer. *)
Definition bad_names : DataFrame :=
  {| columns := ["postal_code"; "TX_FST_NAME"; "MS_FREQUENCY"];
     rows := [[VStr "1000"; VStr "Anna"; VInt 50];
              [VStr "unknown"; VStr "Ben"; VInt 80]] |}.

(** Listings whose postal codes are of every kind, for a run with an
    empty mapping. *)
Definition odd_listings : DataFrame :=
  {| columns := ["postal_code"];
     rows := [[VInt 1000]; [nan]; [VStr "unknown"]; [VNone]] |}.

Definition unmapped (listings : DataFrame) : PostalDataProcessor.t :=
  PostalDataProcessor.mk listings no_frame [] demographics.

(** A demographic table with two areas, and one in which an area code
    stands twice. *)
Definition two_records : DataFrame :=
  {| columns := ["Code_INS"; "Population"; "Wealth_Index"; "Density"];
     rows := [[VInt 100; VInt 5000; VInt 12; VInt 300];
              [VInt 200; VInt 8000; VInt 9; VInt 450]] |}.

Definition repeated_records : DataFrame :=
  {| columns := ["Code_INS"; "Population"; "Wealth_Index"; "Density"];
     rows := [[VInt 100; VInt 5000; VInt 12; VInt 300];
              [VInt 200; VInt 8000; VInt 9; VInt 450];
              [VFloat (S754_finite false 25 2); VInt 1; VInt 1; VInt 1]] |}.

(** Name records of which one has text for a frequency. *)
Definition text_frequency : DataFrame :=
  {| columns := ["postal_code"; "TX_FST_NAME"; "MS_FREQUENCY"];
     rows := [[VInt 1000; VStr "Anna"; VInt 50];
              [VInt 2000; VStr "Ben"; VStr "many"]] |}.

(** A mapping in which the postal code 1010 stands under two areas. *)
Definition three_areas : PostalDataProcessor.t :=
  PostalDataProcessor.mk no_frame no_frame
    [("200", ["2000"]); ("100", ["1000"; "1010"]); ("300", ["1010"])] [].

End Sample.

(** * Properties *)

(** ** Strings *)

Lemma split_nonempty (sep : ascii) (s : string) : split sep s <> [].
Proof.
  destruct s as [|c s]; simpl; [discriminate|].
  destruct (Ascii.eqb c sep); [discriminate|].
  destruct (split sep s); discriminate.
Qed.

Lemma leading_segment_append (a b : string) :
  has_char "," a = false ->
  leading_segment (a ++ String "," b) = a.
Proof.
  unfold leading_segment.
  induction a as [|c a IH]; simpl; intros Hc.
  - reflexivity.
  - apply orb_false_iff in Hc as [Hc Ha].
    rewrite Hc.
    specialize (IH Ha).
    destruct (split "," (a ++ String "," b)) as [|seg segs] eqn:E.
    + now apply split_nonempty in E.
    + simpl in IH. now subst.
Qed.

Lemma leading_segment_no_comma (a : string) :
  has_char "," a = false -> leading_segment a = a.
Proof.
  unfold leading_segment.
  induction a as [|c a IH]; simpl; intros Hc.
  - reflexivity.
  - apply orb_false_iff in Hc as [Hc Ha].
    rewrite Hc.
    specialize (IH Ha).
    destruct (split "," a) as [|seg segs] eqn:E.
    + now apply split_nonempty in E.
    + simpl in IH. now subst.
Qed.

Section Strip.
Variable space : ascii -> bool.

Lemma lstrip_head (s : string) :
  match lstrip space s with
  | EmptyString => True
  | String c _ => space c = false
  end.
Proof.
  induction s as [|c s IH]; simpl; [exact I|].
  destruct (space c) eqn:E; [exact IH|exact E].
Qed.

Lemma lstrip_fixed (c : ascii) (s : string) :
  space c = false -> lstrip space (String c s) = String c s.
Proof. intros H; simpl; now rewrite H. Qed.

Lemma rstrip_head (c : ascii) (s : string) :
  space c = false ->
  exists s', rstrip space (String c s) = String c s'.
Proof.
  intros H; simpl.
  destruct (rstrip space s); [rewrite H|]; eauto.
Qed.

(** Stripping again, of the same characters or of fewer, changes
    nothing. *)
Lemma rstrip_again (fewer : ascii -> bool) (s : string) :
  (forall c, fewer c = true -> space c = true) ->
  rstrip fewer (rstrip space s) = rstrip space s.
Proof.
  intros Hsub.
  induction s as [|c s IH]; simpl; [reflexivity|].
  destruct (rstrip space s) as [|c' r] eqn:E.
  - destruct (space c) eqn:Ec; simpl; [reflexivity|].
    destruct (fewer c) eqn:Ef; [|reflexivity].
    apply Hsub in Ef. congruence.
  - simpl in *. now rewrite IH.
Qed.

Lemma strip_again (fewer : ascii -> bool) (s : string) :
  (forall c, fewer c = true -> space c = true) ->
  rstrip fewer (lstrip fewer (rstrip space (lstrip space s)))
  = rstrip space (lstrip space s).
Proof.
  intros Hsub.
  pose proof (lstrip_head s) as H.
  destruct (lstrip space s) as [|c t] eqn:E; [reflexivity|].
  destruct (rstrip_head c t H) as [t' Ht].
  assert (Hf : fewer c = false).
  { destruct (fewer c) eqn:Ef; [|reflexivity].
    apply Hsub in Ef. congruence. }
  rewrite Ht. cbn [lstrip]. rewrite Hf. rewrite <- Ht.
  now apply rstrip_again.
Qed.

End Strip.

Lemma int_space_isspace (c : ascii) : int_space c = true -> isspace c = true.
Proof.
  unfold int_space, isspace. set (n := N_of_ascii c).
  rewrite !orb_true_iff, !andb_true_iff, !N.leb_le, !N.eqb_eq.
  intros [[[[H1 H2]|H]|H]|H]; auto.
  left. left. right. rewrite H. split; discriminate.
Qed.

Lemma strip_idem (s : string) : strip (strip s) = strip s.
Proof. unfold strip. now apply strip_again. Qed.

(** [int] finds nothing to skip in a string that [strip] returned. *)
Lemma int_of_str_strip (s : string) :
  int_of_str (strip s) = parse_signed (strip s).
Proof.
  unfold int_of_str, strip.
  now rewrite (strip_again isspace int_space s int_space_isspace).
Qed.

(** ** [mapM]: calling a function that may raise on every element *)

Lemma mapM_pure {A B} (g : A -> B) (l : list A) :
  mapM (fun x => Ok (g x)) l = Ok (map g l).
Proof.
  induction l as [|x l IH]; simpl; [reflexivity|].
  now rewrite IH.
Qed.

Lemma mapM_Forall2 {A B} (f : A -> result B) (l : list A) (l' : list B) :
  mapM f l = Ok l' -> Forall2 (fun x y => f x = Ok y) l l'.
Proof.
  revert l'; induction l as [|x l IH]; simpl; intros l' H.
  - injection H as <-. constructor.
  - destruct (f x) as [y|e] eqn:Ex; simpl in H; [|discriminate].
    destruct (mapM f l) as [ys|e]; simpl in H; [|discriminate].
    injection H as <-. constructor; auto.
Qed.

Lemma Forall2_nth {A B} (R : A -> B -> Prop) (l : list A) (l' : list B)
  (i : nat) (x : A) :
  Forall2 R l l' -> nth_error l i = Some x ->
  exists y, nth_error l' i = Some y /\ R x y.
Proof.
  intros H. revert i. induction H as [|a b l l' Hab _ IH]; intros [|i] Hi;
    simpl in *; try discriminate.
  - injection Hi as <-. eauto.
  - auto.
Qed.

Lemma mapM_length {A B} (f : A -> result B) (l : list A) (l' : list B) :
  mapM f l = Ok l' -> List.length l' = List.length l.
Proof.
  intros H. apply mapM_Forall2 in H.
  symmetry. eapply Forall2_length; eauto.
Qed.

Lemma mapM_returns {A B} (f : A -> result B) (l : list A) :
  Forall (fun x => exists y, f x = Ok y) l -> exists l', mapM f l = Ok l'.
Proof.
  induction 1 as [|x l [y Hy] _ [l' IH]]; simpl.
  - eauto.
  - rewrite Hy, IH. simpl. eauto.
Qed.

Lemma mapM_raises {A B} (f : A -> result B) (l : list A) :
  Exists (fun x => exists e, f x = Raise e) l -> exists e, mapM f l = Raise e.
Proof.
  induction 1 as [x l [e He]|x l _ [e IH]]; simpl.
  - rewrite He. simpl. eauto.
  - destruct (f x); simpl; eauto.
    rewrite IH. simpl. eauto.
Qed.

Lemma mapM_ext {A B} (f g : A -> result B) (l : list A) :
  (forall x, In x l -> f x = g x) -> mapM f l = mapM g l.
Proof.
  induction l as [|x l IH]; simpl; intros H; [reflexivity|].
  rewrite (H x) by auto. rewrite IH by auto. reflexivity.
Qed.

(** ** The postal-code normalizer *)

Import PostalCodeFormatter.

Lemma format_cell_str (s : string) :
  format_cell (VStr s) =
  match int_of_str (strip (leading_segment s)) with
  | Some z => Ok (VInt z)
  | None => Raise ValueError
  end.
Proof.
  unfold format_cell. simpl. fold (leading_segment s).
  now destruct (int_of_str (strip (leading_segment s))).
Qed.

Lemma shiftl_signed_up (s : bool) (m : positive) (e : Z) :
  0 <= e ->
  (if s then - Z.shiftl (Z.pos m) e else Z.shiftl (Z.pos m) e)
  = signed s m * 2 ^ e.
Proof.
  intros He. rewrite Z.shiftl_mul_pow2 by assumption.
  destruct s; unfold signed; [|reflexivity].
  change (Z.neg m) with (- Z.pos m).
  now rewrite Z.mul_opp_l.
Qed.

Lemma shiftl_signed_down (s : bool) (m : positive) (e : Z) :
  e < 0 ->
  (if s then - Z.shiftl (Z.pos m) e else Z.shiftl (Z.pos m) e)
  = Z.quot (signed s m) (2 ^ (- e)).
Proof.
  intros He. rewrite Z.shiftl_div_pow2 by lia.
  assert (Hp : 0 < 2 ^ (- e)) by (apply Z.pow_pos_nonneg; lia).
  rewrite <- Z.quot_div_nonneg by lia.
  destruct s; unfold signed; [|reflexivity].
  change (Z.neg m) with (- Z.pos m).
  rewrite Z.quot_opp_l by lia. reflexivity.
Qed.

Lemma fits_numpy_iff (z : Z) :
  fits_numpy z = true <-> - 2 ^ 63 <= z < 2 ^ 64.
Proof.
  unfold fits_numpy. rewrite andb_true_iff, Z.leb_le, Z.ltb_lt. tauto.
Qed.

Lemma format_cell_int (z : Z) :
  format_cell (VInt z)
  = if fits_numpy z then Ok (VInt z) else Raise TypeError.
Proof.
  unfold format_cell, isnan. now destruct (fits_numpy z).
Qed.

(** C1 (as amended). The normalizer returns exactly on the raw values
    that [normalizes] accepts: NaN and None, finite floats, the integers
    that numpy takes, and strings whose part before the first comma,
    stripped, reads as an integer. There it gives an integer or the
    missing value, the missing value exactly for a missing input. On
    every other string ValueError leaves the function, on an infinite
    float OverflowError, on an integer outside the range of int64 and
    uint64 the TypeError of [np.isnan]. *)
Theorem format_cell_returns_iff_normalizes (x : pyval) :
  if normalizes x then
    exists v, format_cell x = Ok v
              /\ (is_int v = true \/ v = nan)
              /\ (v = nan <-> isna x = true)
  else
    (exists s, x = VStr s /\ format_cell x = Raise ValueError)
    \/ (exists b, x = VFloat (S754_infinity b)
                  /\ format_cell x = Raise OverflowError)
    \/ (exists z, x = VInt z /\ (z < - 2 ^ 63 \/ 2 ^ 64 <= z)
                  /\ format_cell x = Raise TypeError).
Proof.
  destruct x as [z|f|s|].
  - cbn [normalizes]. rewrite format_cell_int.
    destruct (fits_numpy z) eqn:E.
    + exists (VInt z). repeat split; auto; discriminate.
    + right. right. exists z. repeat split.
      destruct (Z_lt_ge_dec z (- 2 ^ 63)) as [H|H]; [now left|right].
      destruct (Z_lt_ge_dec z (2 ^ 64)) as [H'|H']; [|lia].
      assert (fits_numpy z = true) by (apply fits_numpy_iff; lia).
      congruence.
  - destruct f as [b|b| |b m e]; simpl.
    + exists (VInt 0). repeat split; auto; discriminate.
    + right. left. eauto.
    + exists nan. repeat split; auto.
    + eexists. split; [reflexivity|]. repeat split; auto; discriminate.
  - unfold normalizes. rewrite format_cell_str.
    destruct (int_of_str (strip (leading_segment s))) as [z|].
    + exists (VInt z). repeat split; auto; discriminate.
    + left. eauto.
  - simpl. exists nan. repeat split; auto.
Qed.

(** C1 (as stated) fails: the letters "abc" are a string of the declared
    domain, and the normalizer raises ValueError on it; the exception
    leaves [format_postal_codes] as well. *)
Lemma format_cell_raises_on_malformed :
  format_cell (VStr "abc") = Raise ValueError
  /\ format_postal_codes
       {| columns := ["postal_code"]; rows := [[VStr "abc"]] |}
       "postal_code" = Raise ValueError
  /\ ~ (forall x, x <> VNone ->
                  exists v, format_cell x = Ok v
                            /\ (is_int v = true \/ v = nan)).
Proof.
  split; [reflexivity|]. split; [reflexivity|].
  intros H. destruct (H (VStr "abc")) as [v [Hv _]]; discriminate.
Qed.

(** C7 (as amended). A string with a comma is cut at its first comma and
    the part before it, white space trimmed, is read as an integer
    (ValueError when it does not read as one); the rest is dropped. An
    integer that numpy takes as int64 or uint64 is returned as it is, any
    other integer raises the TypeError of [np.isnan]; a finite float is
    truncated toward zero, NaN gives the missing value; an infinite float
    raises OverflowError. *)
Theorem format_cell_value :
  (forall a b, has_char "," a = false ->
     format_cell (VStr (a ++ String "," b)) =
     match int_of_str (strip a) with
     | Some z => Ok (VInt z)
     | None => Raise ValueError
     end)
  /\ format_cell (VStr "9999, ") = Ok (VInt 9999)
  /\ (forall z, - 2 ^ 63 <= z < 2 ^ 64 -> format_cell (VInt z) = Ok (VInt z))
  /\ (forall z, z < - 2 ^ 63 \/ 2 ^ 64 <= z ->
        format_cell (VInt z) = Raise TypeError)
  /\ (forall s, format_cell (VFloat (S754_zero s)) = Ok (VInt 0))
  /\ (forall s m e, 0 <= e ->
        format_cell (VFloat (S754_finite s m e))
        = Ok (VInt (signed s m * 2 ^ e)))
  /\ (forall s m e, e < 0 ->
        format_cell (VFloat (S754_finite s m e))
        = Ok (VInt (Z.quot (signed s m) (2 ^ (- e)))))
  /\ (forall b, format_cell (VFloat (S754_infinity b)) = Raise OverflowError)
  /\ format_cell nan = Ok nan.
Proof.
  repeat apply conj; try reflexivity.
  - intros a b Ha. rewrite format_cell_str.
    now rewrite leading_segment_append.
  - intros z Hz. rewrite format_cell_int.
    apply fits_numpy_iff in Hz. now rewrite Hz.
  - intros z Hz. rewrite format_cell_int.
    destruct (fits_numpy z) eqn:E; [|reflexivity].
    apply fits_numpy_iff in E. lia.
  - intros s m e He. simpl. now rewrite shiftl_signed_up.
  - intros s m e He. simpl. now rewrite shiftl_signed_down.
Qed.

Lemma format_cell_value_witness :
  format_cell (VStr ("1000" ++ String "," " 1010")) = Ok (VInt 1000)
  /\ format_cell (VInt 1000) = Ok (VInt 1000)
  /\ format_cell (VInt 99999999999999999999) = Raise TypeError
  /\ format_cell (VFloat (S754_finite false 125 3)) = Ok (VInt 1000)
  /\ format_cell (VFloat (S754_finite true 8001 (-3))) = Ok (VInt (-1000)).
Proof.
  destruct format_cell_value as (Hs & _ & Hint & Hbig & _ & Hup & Hdown & _).
  repeat apply conj.
  - apply (Hs "1000" " 1010"). reflexivity.
  - apply (Hint 1000). lia.
  - apply (Hbig 99999999999999999999). right. lia.
  - apply (Hup false 125%positive 3). lia.
  - apply (Hdown true 8001%positive (-3)). lia.
Defined.

(** C7 (as stated) fails: an infinite float is numeric and is not NaN, and
    the normalizer gives no integer for it. *)
Lemma format_cell_raises_on_infinity :
  format_cell (VFloat (S754_infinity false)) = Raise OverflowError
  /\ ~ (forall f, is_nan (VFloat f) = false ->
                  exists z, format_cell (VFloat f) = Ok (VInt z)).
Proof.
  split; [reflexivity|].
  intros H. destruct (H (S754_infinity false) eq_refl) as [z Hz].
  discriminate.
Qed.

(** ** Columns of a frame *)

Lemma index_of_None (c : string) (cols : list string) :
  index_of c cols = None <-> ~ In c cols.
Proof.
  induction cols as [|c' cols IH]; simpl.
  - tauto.
  - destruct (String.eqb_spec c' c) as [->|Hne].
    + split; [discriminate|intros H; exfalso; auto].
    + destruct (index_of c cols); simpl.
      * split; [discriminate|]. intros H. exfalso. apply H. right.
        apply Decidable.not_not; [|intros H'; apply IH in H'; discriminate].
        unfold Decidable.decidable.
        destruct (in_dec string_dec c cols); auto.
      * split; [|reflexivity]. intros _ [H|H]; [auto|]. now apply IH in H.
Qed.

Lemma index_of_Some (c : string) (cols : list string) (i : nat) :
  index_of c cols = Some i -> nth_error cols i = Some c.
Proof.
  revert i; induction cols as [|c' cols IH]; simpl; intros i H.
  - discriminate.
  - destruct (String.eqb_spec c' c) as [->|Hne].
    + injection H as <-. reflexivity.
    + destruct (index_of c cols) as [j|]; simpl in H; [|discriminate].
      injection H as <-. simpl. auto.
Qed.

Lemma index_of_In (c : string) (cols : list string) :
  In c cols -> exists i, index_of c cols = Some i.
Proof.
  intros H. destruct (index_of c cols) as [i|] eqn:E; eauto.
  apply index_of_None in E. contradiction.
Qed.

Lemma str_in_In (s : string) (l : list string) :
  str_in s l = true <-> In s l.
Proof.
  unfold str_in. rewrite existsb_exists. split.
  - intros [x [Hx E]]. apply String.eqb_eq in E. now subst.
  - intros H. exists s. split; [assumption|apply String.eqb_refl].
Qed.

Lemma str_in_not_In (s : string) (l : list string) :
  str_in s l = false <-> ~ In s l.
Proof.
  rewrite <- str_in_In. destruct (str_in s l); split; intros H;
    try discriminate; try reflexivity.
  now contradiction H.
Qed.

(** ** The area-code resolver *)

Import PostalDataProcessor.

Lemma scan_items_skip (pre items : list (string * list string))
  (v : pyval) (p : Z) :
  int v = Ok p ->
  Forall (fun e => ~ In (str_of_int p) (snd e)) pre ->
  scan_items (pre ++ items) v = scan_items items v.
Proof.
  intros Hp. induction 1 as [|[k l] pre Hk _ IH]; simpl; [reflexivity|].
  rewrite Hp. simpl.
  apply str_in_not_In in Hk. simpl in Hk. now rewrite Hk.
Qed.

(** C5. For a postal code that [int] converts to [p], the resolver walks
    the entries of the mapping in their order and tests whether the
    decimal text of [p] is among the entry's postal codes: at the first
    entry where it is, the entry's area code is returned; when it is in no
    entry, the result is None. *)
Theorem get_ins_code_first_match (self : t) (v : pyval) (p : Z) :
  int v = Ok p ->
  (forall pre ins_code postal_list post area,
      ins_to_postal self = pre ++ (ins_code, postal_list) :: post ->
      Forall (fun e => ~ In (str_of_int p) (snd e)) pre ->
      In (str_of_int p) postal_list ->
      int (VStr ins_code) = Ok area ->
      _get_ins_code self v = Ok (VInt area))
  /\ (Forall (fun e => ~ In (str_of_int p) (snd e)) (ins_to_postal self) ->
      _get_ins_code self v = Ok VNone).
Proof.
  intros Hp. unfold _get_ins_code. split.
  - intros pre k l post area -> Hpre Hin Hk.
    rewrite (scan_items_skip pre _ v p Hp Hpre). simpl.
    rewrite Hp. simpl.
    apply str_in_In in Hin. rewrite Hin.
    change (mbind (int (VStr k)) (fun c => Ok (VInt c)) = Ok (VInt area)).
    now rewrite Hk.
  - intros Hall.
    rewrite <- (app_nil_r (ins_to_postal self)).
    now rewrite (scan_items_skip _ [] v p Hp Hall).
Qed.

Lemma get_ins_code_first_match_witness :
  _get_ins_code Sample.three_areas (VInt 1010) = Ok (VInt 100)
  /\ _get_ins_code (Sample.processor Sample.no_frame) (VInt 9999) = Ok VNone.
Proof.
  split.
  - refine (proj1 (get_ins_code_first_match Sample.three_areas
                                           (VInt 1010) 1010 eq_refl)
                  [("200", ["2000"])] "100" ["1000"; "1010"]
                  [("300", ["1010"])] 100 eq_refl _ _ eq_refl).
    + repeat constructor. simpl. intros [H|[]]. discriminate.
    + simpl. auto.
  - refine (proj2 (get_ins_code_first_match (Sample.processor Sample.no_frame)
                                           (VInt 9999) 9999 eq_refl) _).
    repeat constructor. simpl. intros [H|[H|[]]]; discriminate.
Defined.

(** [int] does not skip the separator 28, which [strip] removes: the
    resolver raises on a postal code written with it, the normalizer
    reads it. *)
Example int_rejects_separator :
  int (VStr (String (ascii_of_nat 28) "1000")) = Raise ValueError
  /\ _get_ins_code (Sample.processor Sample.no_frame)
       (VStr (String (ascii_of_nat 28) "1000")) = Raise ValueError
  /\ PostalCodeFormatter.format_cell (VStr (String (ascii_of_nat 28) "1000"))
     = Ok (VInt 1000).
Proof. repeat split. Qed.

(** ** The demographic store, built and read back *)

(** Looking up a missing area code gives no record: NaN equals no key, and
    None only a key that is None. *)
Lemma py_eqb_missing (k v : pyval) :
  isna v = true -> k <> VNone -> py_eqb k v = false.
Proof.
  intros Hna Hk.
  destruct v as [z|[b|b| |b m e]|s|]; try discriminate Hna.
  - destruct k as [z|f|s|]; simpl; try reflexivity.
    now rewrite andb_false_r.
  - destruct k; try reflexivity. contradiction.
Qed.

Lemma record_of_missing (self : t) (ins_code : pyval) :
  isna ins_code = true ->
  Forall (fun kv => fst kv <> VNone) (postal_data_dict self) ->
  record_of self ins_code = [].
Proof.
  intros Hna Hkeys. unfold record_of.
  induction Hkeys as [|[k d] rest Hk _ IH]; simpl; [reflexivity|].
  now rewrite (py_eqb_missing k ins_code Hna Hk).
Qed.

Lemma getters_missing (self : t) (ins_code : pyval) :
  isna ins_code = true ->
  Forall (fun kv => fst kv <> VNone) (postal_data_dict self) ->
  _get_population self ins_code = VNone
  /\ _get_wealth_index self ins_code = VNone
  /\ _get_density self ins_code = VNone.
Proof.
  intros Hna Hkeys.
  unfold _get_population, _get_wealth_index, _get_density.
  now rewrite (record_of_missing self ins_code Hna Hkeys).
Qed.

(** ** Enrichment: the errors *)

(** C9. Without a [postal_code] column in the listings,
    [enrich_property_data] raises KeyError, whose argument is the name of
    the column, at its first statement: the object, and with it the
    listings table, is as it was. *)
Theorem enrich_aborts_without_postal_code (self : t) :
  ~ has_column (property_data self) "postal_code" ->
  enrich_property_data self = (Raise (KeyError "postal_code"), self).
Proof.
  intros H. apply index_of_None in H.
  unfold enrich_property_data, assign, getitem, col_index. simpl.
  unfold lift. rewrite H. reflexivity.
Qed.

Lemma enrich_aborts_without_postal_code_witness :
  enrich_property_data (Sample.processor Sample.no_postal_code)
  = (Raise (KeyError "postal_code"), Sample.processor Sample.no_postal_code).
Proof.
  apply enrich_aborts_without_postal_code.
  unfold has_column. simpl. intros [H|[]]. discriminate.
Defined.

(** C2 (the code departs from it). [_get_ins_code] is called on every
    postal code, the missing ones too, and with an entry in the mapping it
    calls [int] on NaN, which raises ValueError: enriching the sample
    listings, of which the second has no postal code, raises and adds no
    column. *)
Theorem nan_postal_code_raises :
  (forall listings demo ins_code postal_list items dict,
      _get_ins_code
        (mk listings demo ((ins_code, postal_list) :: items) dict) nan
      = Raise ValueError)
  /\ enrich_property_data (Sample.processor Sample.missing_postal_code)
     = (Raise ValueError, Sample.processor Sample.missing_postal_code).
Proof.
  split; reflexivity.
Qed.

(** ** Writing a column *)

Lemma zip_with_length {A B C} (f : A -> B -> C) (l1 : list A) (l2 : list B) :
  List.length l1 = List.length l2 ->
  List.length (zip_with f l1 l2) = List.length l1.
Proof.
  revert l2; induction l1 as [|x l1 IH]; intros [|y l2]; simpl;
    try discriminate; auto.
Qed.

Lemma nth_error_zip_with {A B C} (f : A -> B -> C) (l1 : list A)
  (l2 : list B) (i : nat) :
  nth_error (zip_with f l1 l2) i =
  match nth_error l1 i, nth_error l2 i with
  | Some a, Some b => Some (f a b)
  | _, _ => None
  end.
Proof.
  revert l2 i; induction l1 as [|x l1 IH]; intros [|y l2] [|i]; simpl;
    try reflexivity.
  - now destruct (nth_error l1 i).
  - apply IH.
Qed.

Lemma map_zip_with_l {A B C D} (f : A -> B -> C) (g : C -> D) (h : A -> D)
  (l1 : list A) (l2 : list B) :
  List.length l1 = List.length l2 ->
  (forall a b, In a l1 -> g (f a b) = h a) ->
  map g (zip_with f l1 l2) = map h l1.
Proof.
  revert l2; induction l1 as [|x l1 IH]; intros [|y l2]; simpl;
    try discriminate; auto.
  intros Hl Hg. f_equal; auto.
Qed.

Lemma map_zip_with_r {A B C} (f : A -> B -> C) (g : C -> B)
  (l1 : list A) (l2 : list B) :
  List.length l1 = List.length l2 ->
  (forall a b, In a l1 -> g (f a b) = b) ->
  map g (zip_with f l1 l2) = l2.
Proof.
  revert l2; induction l1 as [|x l1 IH]; intros [|y l2]; simpl;
    try discriminate; auto.
  intros Hl Hg. f_equal; auto.
Qed.

Lemma Forall_zip_with {A B C} (P : C -> Prop) (f : A -> B -> C)
  (l1 : list A) (l2 : list B) :
  (forall a b, In a l1 -> P (f a b)) -> Forall P (zip_with f l1 l2).
Proof.
  revert l2; induction l1 as [|x l1 IH]; intros [|y l2] H; simpl;
    constructor.
  - apply H. now left.
  - apply IH. intros a b Ha. apply H. now right.
Qed.

Lemma set_nth_length {A} (i : nat) (v : A) (l : list A) :
  List.length (set_nth i v l) = List.length l.
Proof.
  revert i; induction l as [|x l IH]; intros [|i]; simpl; auto.
Qed.

Lemma cell_set_nth_same (i : nat) (v : pyval) (r : list pyval) :
  (i < List.length r)%nat -> cell i (set_nth i v r) = v.
Proof.
  unfold cell. revert i; induction r as [|x r IH]; intros [|i]; simpl;
    intros H; try lia; auto.
  apply IH. lia.
Qed.

Lemma cell_set_nth_other (i j : nat) (v : pyval) (r : list pyval) :
  i <> j -> cell i (set_nth j v r) = cell i r.
Proof.
  unfold cell. revert i j; induction r as [|x r IH]; intros [|i] [|j];
    simpl; intros H; auto; try contradiction.
Qed.

Lemma cell_app_l (i : nat) (r l : list pyval) :
  (i < List.length r)%nat -> cell i (r ++ l) = cell i r.
Proof. intros H. unfold cell. now apply app_nth1. Qed.

Lemma cell_app_last (r : list pyval) (v : pyval) :
  cell (List.length r) (r ++ [v]) = v.
Proof.
  unfold cell. rewrite app_nth2 by lia. now rewrite Nat.sub_diag.
Qed.

Lemma index_of_lt (c : string) (cols : list string) (i : nat) :
  index_of c cols = Some i -> (i < List.length cols)%nat.
Proof.
  intros H. apply index_of_Some in H.
  apply nth_error_Some. congruence.
Qed.

Lemma index_of_app_In (c : string) (cols more : list string) (i : nat) :
  index_of c cols = Some i -> index_of c (cols ++ more) = Some i.
Proof.
  revert i; induction cols as [|c' cols IH]; simpl; intros i H.
  - discriminate.
  - destruct (String.eqb c' c); [assumption|].
    destruct (index_of c cols) as [j|]; simpl in H; [|discriminate].
    now rewrite (IH j eq_refl).
Qed.

Lemma index_of_app_last (c c' : string) (cols : list string) :
  index_of c cols = None ->
  index_of c (cols ++ [c']) =
  if String.eqb c' c then Some (List.length cols) else None.
Proof.
  induction cols as [|x cols IH]; simpl; intros H.
  - now destruct (String.eqb c' c).
  - destruct (String.eqb x c); [discriminate|].
    destruct (index_of c cols); simpl in H; [discriminate|].
    rewrite IH by reflexivity.
    now destruct (String.eqb c' c).
Qed.

Lemma mem_In (c : string) (cs : list string) : mem c cs = true <-> In c cs.
Proof. apply str_in_In. Qed.

Lemma mem_index_of (c : string) (cs : list string) :
  mem c cs = match index_of c cs with Some _ => true | None => false end.
Proof.
  destruct (index_of c cs) as [i|] eqn:E.
  - apply mem_In. apply index_of_Some in E. eapply nth_error_In; eauto.
  - apply index_of_None in E.
    destruct (mem c cs) eqn:M; [|reflexivity].
    apply mem_In in M. contradiction.
Qed.

(** What [df[c] = values] does to a frame whose rows are full. *)
Lemma setitem_spec (df df' : DataFrame) (c : string) (values : list pyval) :
  wf_frame df ->
  setitem df c values = Ok df' ->
  wf_frame df'
  /\ List.length (rows df') = List.length (rows df)
  /\ columns df' = columns df ++ (if mem c (columns df) then [] else [c])
  /\ getitem df' c = Ok values
  /\ (forall c', c' <> c -> getitem df' c' = getitem df c')
  /\ (~ In c (columns df) ->
      rows df' = zip_with (fun r v => r ++ [v]) (rows df) values).
Proof.
  intros Hwf. unfold setitem.
  destruct (Nat.eqb_spec (List.length values) (List.length (rows df)))
    as [Hlen|]; [|discriminate].
  rewrite mem_index_of.
  destruct (index_of c (columns df)) as [i|] eqn:Ei; intros H;
    injection H as <-; simpl.
  - pose proof (index_of_lt _ _ _ Ei) as Hi.
    repeat split.
    + apply Forall_zip_with. intros r v Hr.
      rewrite set_nth_length. unfold wf_frame in Hwf.
      rewrite Forall_forall in Hwf. now apply Hwf.
    + now apply zip_with_length.
    + now rewrite app_nil_r.
    + unfold getitem, col_index. simpl. rewrite Ei. simpl.
      f_equal. apply map_zip_with_r; [auto|].
      intros r v Hr. apply cell_set_nth_same.
      unfold wf_frame in Hwf. rewrite Forall_forall in Hwf.
      now rewrite (Hwf r Hr).
    + intros c' Hc'. unfold getitem, col_index. simpl.
      destruct (index_of c' (columns df)) as [j|] eqn:Ej; simpl;
        [|reflexivity].
      f_equal. apply map_zip_with_l; [auto|].
      intros r v _. apply cell_set_nth_other.
      intros ->. apply index_of_Some in Ei, Ej. congruence.
    + intros Hn. apply index_of_None in Hn. congruence.
  - repeat split.
    + apply Forall_zip_with. intros r v Hr.
      rewrite !length_app. simpl. unfold wf_frame in Hwf.
      rewrite Forall_forall in Hwf. specialize (Hwf r Hr). rewrite length_app. simpl. lia.
    + now apply zip_with_length.
    + unfold getitem, col_index. simpl.
      rewrite (index_of_app_last _ _ _ Ei), String.eqb_refl. simpl.
      f_equal. apply map_zip_with_r; [auto|].
      intros r v Hr. unfold wf_frame in Hwf. rewrite Forall_forall in Hwf.
      rewrite <- (Hwf r Hr). apply cell_app_last.
    + intros c' Hc'. unfold getitem, col_index. simpl.
      destruct (index_of c' (columns df)) as [j|] eqn:Ej.
      * rewrite (index_of_app_In _ _ [c] _ Ej). simpl.
        f_equal. apply map_zip_with_l; [auto|].
        intros r v Hr. apply cell_app_l.
        unfold wf_frame in Hwf. rewrite Forall_forall in Hwf.
        rewrite (Hwf r Hr). eapply index_of_lt; eauto.
      * rewrite (index_of_app_last _ _ _ Ej).
        destruct (String.eqb_spec c c') as [->|]; [contradiction|].
        reflexivity.
Qed.

(** ** Enrichment: the frame *)

Lemma assign_Ok (c src : string) (f : t -> pyval -> result pyval)
  (self self' : t) (u : unit) :
  assign c src f self = (Ok u, self') ->
  exists s values df,
    getitem (property_data self) src = Ok s
    /\ apply (f self) s = Ok values
    /\ setitem (property_data self) c values = Ok df
    /\ self' = mk df (postal_data self) (ins_to_postal self)
                  (postal_data_dict self).
Proof.
  unfold assign, get, lift, put. simpl.
  destruct (getitem (property_data self) src) as [s|e] eqn:G;
    [|discriminate].
  destruct (apply (f self) s) as [values|e] eqn:A; [|discriminate].
  destruct (setitem (property_data self) c values) as [df|e] eqn:S;
    [|discriminate].
  intros H. injection H as <-. exists s, values, df. auto.
Qed.

Lemma enrich_steps (self self' : t) (out : DataFrame) :
  enrich_property_data self = (Ok out, self') ->
  exists s1 s2 s3,
    assign "INS_Code" "postal_code" _get_ins_code self = (Ok tt, s1)
    /\ assign "Population" "INS_Code"
              (fun self c => Ok (_get_population self c)) s1 = (Ok tt, s2)
    /\ assign "Wealth_Index" "INS_Code"
              (fun self c => Ok (_get_wealth_index self c)) s2 = (Ok tt, s3)
    /\ assign "Density" "INS_Code"
              (fun self c => Ok (_get_density self c)) s3 = (Ok tt, self')
    /\ out = property_data self'.
Proof.
  unfold enrich_property_data. simpl.
  destruct (assign "INS_Code" _ _ self) as [[[]|e] s1] eqn:E1;
    [|discriminate].
  destruct (assign "Population" _ _ s1) as [[[]|e] s2] eqn:E2;
    [|discriminate].
  destruct (assign "Wealth_Index" _ _ s2) as [[[]|e] s3] eqn:E3;
    [|discriminate].
  destruct (assign "Density" _ _ s3) as [[[]|e] s4] eqn:E4;
    [|discriminate].
  unfold get. intros H. injection H as <- <-. exists s1, s2, s3. auto.
Qed.

Lemma mem_app (c : string) (l l' : list string) :
  mem c (l ++ l') = mem c l || mem c l'.
Proof. apply existsb_app. Qed.

Lemma not_derived (c : string) :
  ~ In c derived_columns ->
  c <> "INS_Code" /\ c <> "Population" /\ c <> "Wealth_Index"
  /\ c <> "Density".
Proof. unfold derived_columns. simpl. intuition. Qed.

(** C3 (as amended). When [enrich_property_data] returns, the table it
    returns is the one the object now holds; it has as many rows as the
    input; every column whose name is none of the four derived names has
    the values it had, row by row; the derived columns that the input did
    not have come after the input's columns, in the order INS_Code,
    Population, Wealth_Index, Density; the four derived columns hold the
    area code of the row's postal code and the three fields looked up under
    that area code. Where the input has none of the four names, row [i] of
    the output is row [i] of the input followed by the four derived
    values. *)
Theorem enrich_frame (self self' : t) (out : DataFrame) :
  wf_frame (property_data self) ->
  enrich_property_data self = (Ok out, self') ->
  property_data self' = out
  /\ List.length (rows out) = List.length (rows (property_data self))
  /\ columns out =
     columns (property_data self)
     ++ filter (fun c => negb (mem c (columns (property_data self))))
               derived_columns
  /\ (forall c, ~ In c derived_columns ->
                getitem out c = getitem (property_data self) c)
  /\ (exists postal ins,
         getitem (property_data self) "postal_code" = Ok postal
         /\ Forall2 (fun x a => _get_ins_code self x = Ok a) postal ins
         /\ getitem out "INS_Code" = Ok ins
         /\ getitem out "Population" = Ok (map (_get_population self) ins)
         /\ getitem out "Wealth_Index"
            = Ok (map (_get_wealth_index self) ins)
         /\ getitem out "Density" = Ok (map (_get_density self) ins))
  /\ ((forall c, In c derived_columns ->
                 ~ has_column (property_data self) c) ->
      forall i r pc,
        index_of "postal_code" (columns (property_data self)) = Some pc ->
        nth_error (rows (property_data self)) i = Some r ->
        exists area,
          _get_ins_code self (cell pc r) = Ok area
          /\ nth_error (rows out) i =
             Some (r ++ [area; _get_population self area;
                         _get_wealth_index self area;
                         _get_density self area])).
Proof.
  intros Hwf Hrun.
  destruct (enrich_steps _ _ _ Hrun) as (s1 & s2 & s3 & E1 & E2 & E3 & E4 & ->).
  apply assign_Ok in E1 as (postal & ins & df1 & G1 & A1 & S1 & ->).
  apply assign_Ok in E2 as (c2 & pops & df2 & G2 & A2 & S2 & ->).
  apply assign_Ok in E3 as (c3 & ws & df3 & G3 & A3 & S3 & ->).
  apply assign_Ok in E4 as (c4 & ds & df4 & G4 & A4 & S4 & ->).
  simpl in *.
  destruct (setitem_spec _ _ _ _ Hwf S1) as (W1 & L1 & C1 & V1 & O1 & R1).
  destruct (setitem_spec _ _ _ _ W1 S2) as (W2 & L2 & C2 & V2 & O2 & R2).
  destruct (setitem_spec _ _ _ _ W2 S3) as (W3 & L3 & C3 & V3 & O3 & R3).
  destruct (setitem_spec _ _ _ _ W3 S4) as (W4 & L4 & C4 & V4 & O4 & R4).
  assert (Hc2 : c2 = ins) by congruence.
  assert (Hc3 : c3 = ins).
  { rewrite O2 in G3 by discriminate. congruence. }
  assert (Hc4 : c4 = ins).
  { rewrite O3, O2 in G4 by discriminate. congruence. }
  subst c2 c3 c4.
  unfold apply in A2, A3, A4.
  rewrite mapM_pure in A2, A3, A4.
  injection A2 as <-. injection A3 as <-. injection A4 as <-.
  set (cols := columns (property_data self)) in *.
  split; [reflexivity|]. split; [congruence|]. split.
  { rewrite C4, C3, C2, C1. unfold derived_columns. simpl.
    rewrite !mem_app.
    destruct (mem "INS_Code" cols), (mem "Population" cols),
      (mem "Wealth_Index" cols), (mem "Density" cols); simpl;
      rewrite <- ?app_assoc, ?app_nil_r; reflexivity. }
  split.
  { intros c Hc. apply not_derived in Hc as (N1 & N2 & N3 & N4).
    rewrite O4, O3, O2, O1 by assumption. reflexivity. }
  split.
  { exists postal, ins. split; [assumption|].
    split; [now apply mapM_Forall2|].
    split; [rewrite O4, O3, O2 by discriminate; assumption|].
    split; [rewrite O4, O3 by discriminate; assumption|].
    split; [rewrite O4 by discriminate; assumption|assumption]. }
  intros Hnew i r pc Hpc Hr.
  assert (N1 : ~ In "INS_Code" cols) by (apply Hnew; simpl; auto).
  assert (N2 : ~ In "Population" cols) by (apply Hnew; simpl; auto).
  assert (N3 : ~ In "Wealth_Index" cols) by (apply Hnew; simpl; auto).
  assert (N4 : ~ In "Density" cols) by (apply Hnew; simpl; auto).
  assert (M1 : mem "INS_Code" cols = false).
  { destruct (mem "INS_Code" cols) eqn:M; [apply mem_In in M; tauto|auto]. }
  assert (M2 : mem "Population" cols = false).
  { destruct (mem "Population" cols) eqn:M; [apply mem_In in M; tauto|auto]. }
  assert (M3 : mem "Wealth_Index" cols = false).
  { destruct (mem "Wealth_Index" cols) eqn:M;
      [apply mem_In in M; tauto|auto]. }
  assert (M4 : mem "Density" cols = false).
  { destruct (mem "Density" cols) eqn:M; [apply mem_In in M; tauto|auto]. }
  rewrite M1 in C1.
  rewrite C1, mem_app, M2 in C2. simpl in C2.
  rewrite C2, !mem_app, M3 in C3. simpl in C3.
  rewrite C3, !mem_app, M4 in C4. simpl in C4.
  specialize (R1 N1).
  assert (R2' : rows df2 = zip_with (fun r v => r ++ [v]) (rows df1)
                                    (map (_get_population self) ins)).
  { apply R2. rewrite C1. rewrite in_app_iff. simpl.
    intros [H|[H|[]]]; [tauto|discriminate]. }
  assert (R3' : rows df3 = zip_with (fun r v => r ++ [v]) (rows df2)
                                    (map (_get_wealth_index self) ins)).
  { apply R3. rewrite C2. rewrite !in_app_iff. simpl.
    intros [[H|[H|[]]]|[H|[]]]; [tauto|discriminate|discriminate]. }
  assert (R4' : rows df4 = zip_with (fun r v => r ++ [v]) (rows df3)
                                    (map (_get_density self) ins)).
  { apply R4. rewrite C3. rewrite !in_app_iff. simpl.
    intros [[[H|[H|[]]]|[H|[]]]|[H|[]]];
      [tauto|discriminate|discriminate|discriminate]. }
  unfold getitem, col_index in G1. fold cols in G1. rewrite Hpc in G1.
  simpl in G1. injection G1 as <-.
  apply mapM_Forall2 in A1.
  assert (Hx : nth_error (map (cell pc) (rows (property_data self))) i
               = Some (cell pc r)) by (now apply map_nth_error).
  destruct (Forall2_nth _ _ _ _ _ A1 Hx) as (area & Ha & Harea).
  exists area. split; [assumption|].
  rewrite R4', R3', R2', R1.
  rewrite !nth_error_zip_with, Hr, Ha.
  rewrite !nth_error_map, Ha. simpl.
  rewrite <- !app_assoc. reflexivity.
Qed.

Lemma enrich_frame_witness :
  enrich_property_data (Sample.processor Sample.listings)
  = (Ok Sample.enriched_listings, Sample.processor Sample.enriched_listings)
  /\ List.length (rows Sample.enriched_listings)
     = List.length (rows Sample.listings)
  /\ getitem Sample.enriched_listings "price"
     = getitem Sample.listings "price"
  /\ exists area,
       _get_ins_code (Sample.processor Sample.listings) (VInt 1000) = Ok area
       /\ nth_error (rows Sample.enriched_listings) 0
          = Some ([VInt 250000; VInt 1000]
                  ++ [area;
                      _get_population (Sample.processor Sample.listings) area;
                      _get_wealth_index (Sample.processor Sample.listings)
                                        area;
                      _get_density (Sample.processor Sample.listings) area]).
Proof.
  assert (Hwf : wf_frame (property_data (Sample.processor Sample.listings))).
  { repeat constructor. }
  assert (Hrun : enrich_property_data (Sample.processor Sample.listings)
                 = (Ok Sample.enriched_listings,
                    Sample.processor Sample.enriched_listings)).
  { reflexivity. }
  destruct (enrich_frame _ _ _ Hwf Hrun) as (_ & Hlen & _ & Hcol & _ & Hrow).
  split; [exact Hrun|]. split; [exact Hlen|]. split.
  - apply Hcol. simpl. intros [H|[H|[H|[H|[]]]]]; discriminate.
  - apply (Hrow
             ltac:(simpl; intros c [<-|[<-|[<-|[<-|[]]]]] [H|[H|[]]];
                   discriminate)
             0%nat [VInt 250000; VInt 1000] 1%nat eq_refl eq_refl).
Defined.

(** C3 (as stated) fails: listings that already have a column named
    Population lose its values, and only three columns are added. *)
Lemma enrich_overwrites_existing_column :
  enrich_property_data (Sample.processor Sample.with_population)
  = (Ok Sample.with_population_enriched,
     Sample.processor Sample.with_population_enriched)
  /\ getitem Sample.with_population "Population" = Ok [VInt 7]
  /\ getitem Sample.with_population_enriched "Population" = Ok [VInt 5000]
  /\ ~ (forall self self' out,
           wf_frame (property_data self) ->
           enrich_property_data self = (Ok out, self') ->
           (forall c, has_column (property_data self) c ->
                      getitem out c = getitem (property_data self) c)
           /\ columns out = columns (property_data self) ++ derived_columns).
Proof.
  assert (Hrun : enrich_property_data (Sample.processor Sample.with_population)
                 = (Ok Sample.with_population_enriched,
                    Sample.processor Sample.with_population_enriched))
    by (vm_compute; reflexivity).
  split; [exact Hrun|].
  split; [vm_compute; reflexivity|]. split; [vm_compute; reflexivity|].
  intros H.
  assert (Hwf : wf_frame (property_data
                            (Sample.processor Sample.with_population)))
    by (repeat constructor).
  destruct (H _ _ _ Hwf Hrun) as [Hcol _].
  specialize (Hcol "Population" ltac:(right; left; reflexivity)).
  vm_compute in Hcol. discriminate Hcol.
Qed.

(** ** Keys *)

Lemma key_eqb_eq (a b : key) : key_eqb a b = true <-> a = b.
Proof.
  destruct a as [n1 e1|s1|s1|], b as [n2 e2|s2|s2|]; simpl;
    try (split; [discriminate|congruence]); try tauto.
  - rewrite andb_true_iff, !Z.eqb_eq. split.
    + intros [-> ->]. reflexivity.
    + intros H. injection H as -> ->. auto.
  - rewrite Bool.eqb_true_iff. split; [intros ->|intros H; injection H];
      auto.
  - rewrite String.eqb_eq. split; [intros ->|intros H; injection H]; auto.
Qed.

Lemma same_key_iff_key (a b : pyval) :
  same_key a b = true -> key_of a = key_of b.
Proof. apply key_eqb_eq. Qed.

Lemma key_of_na (v : pyval) : key_of v = KNA <-> isna v = true.
Proof.
  destruct v as [[|p|p]|[b|b| |b m e]|s|]; simpl; unfold dyadic;
    try destruct (odd_part _); split; try discriminate; auto.
Qed.

Lemma same_key_isna (a b : pyval) :
  same_key a b = true -> isna a = isna b.
Proof.
  intros H. apply same_key_iff_key in H.
  destruct (isna a) eqn:Ea, (isna b) eqn:Eb; auto.
  - apply key_of_na in Ea. rewrite H in Ea. apply key_of_na in Ea. congruence.
  - apply key_of_na in Eb. rewrite <- H in Eb. apply key_of_na in Eb.
    congruence.
Qed.

Lemma same_key_iff (a b : pyval) : same_key a b = true <-> key_of a = key_of b.
Proof. apply key_eqb_eq. Qed.

Lemma same_key_refl (a : pyval) : same_key a a = true.
Proof. now apply same_key_iff. Qed.

Lemma same_key_sym (a b : pyval) : same_key a b = same_key b a.
Proof.
  destruct (same_key a b) eqn:E1, (same_key b a) eqn:E2; auto.
  - apply same_key_iff in E1. symmetry in E1. apply same_key_iff in E1.
    congruence.
  - apply same_key_iff in E2. symmetry in E2. apply same_key_iff in E2.
    congruence.
Qed.

Lemma same_key_congr (a b c : pyval) :
  same_key a b = true -> same_key a c = same_key b c.
Proof.
  intros H. apply same_key_iff in H. unfold same_key. now rewrite H.
Qed.

(** ** The stable sort *)

Section SortFacts.
Context {A : Type} (leb : A -> A -> bool).

Lemma insert_by_perm (x : A) (l : list A) :
  Permutation (insert_by leb x l) (x :: l).
Proof.
  induction l as [|y l IH]; simpl; [reflexivity|].
  destruct (leb x y); [reflexivity|].
  rewrite IH. apply perm_swap.
Qed.

Lemma sort_by_perm (l : list A) : Permutation (sort_by leb l) l.
Proof.
  induction l as [|x l IH]; simpl; [reflexivity|].
  rewrite insert_by_perm. now constructor.
Qed.

Lemma sort_by_In (l : list A) (x : A) : In x (sort_by leb l) <-> In x l.
Proof.
  split; apply Permutation_in;
    [apply sort_by_perm|symmetry; apply sort_by_perm].
Qed.

Lemma sort_by_length (l : list A) :
  List.length (sort_by leb l) = List.length l.
Proof. apply Permutation_length, sort_by_perm. Qed.



(** Order: over a list on which [leb] is total and transitive, the
    result is sorted. *)
Lemma insert_by_sorted (x : A) (l : list A) :
  (forall a b, In a (x :: l) -> In b (x :: l) ->
               leb a b = true \/ leb b a = true) ->
  (forall a b c, In a (x :: l) -> In b (x :: l) -> In c (x :: l) ->
                 leb a b = true -> leb b c = true -> leb a c = true) ->
  StronglySorted (fun a b => leb a b = true) l ->
  StronglySorted (fun a b => leb a b = true) (insert_by leb x l).
Proof.
  intros Htot Htr Hs. induction Hs as [|y l Hs IH Hy]; simpl.
  - constructor; constructor.
  - destruct (leb x y) eqn:E.
    + constructor; [now constructor|].
      constructor; [assumption|].
      rewrite Forall_forall in Hy |- *. intros z Hz.
      apply (Htr x y z); simpl; auto.
    + constructor.
      * apply IH.
        -- intros a b Ha Hb. apply Htot; simpl in *; tauto.
        -- intros a b c Ha Hb Hc. apply Htr; simpl in *; tauto.
      * rewrite Forall_forall in Hy |- *. intros z Hz.
        apply (Permutation_in _ (insert_by_perm x l)) in Hz.
        destruct Hz as [<-|Hz]; [|auto].
        destruct (Htot x y) as [H|H]; simpl; auto. congruence.
Qed.

Lemma sort_by_sorted (l : list A) :
  (forall a b, In a l -> In b l -> leb a b = true \/ leb b a = true) ->
  (forall a b c, In a l -> In b l -> In c l ->
                 leb a b = true -> leb b c = true -> leb a c = true) ->
  StronglySorted (fun a b => leb a b = true) (sort_by leb l).
Proof.
  induction l as [|x l IH]; intros Htot Htr; simpl; [constructor|].
  apply insert_by_sorted.
  - intros a b Ha Hb. apply Htot.
    + destruct Ha as [<-|Ha]; [now left|right].
      exact (proj1 (sort_by_In l a) Ha).
    + destruct Hb as [<-|Hb]; [now left|right].
      exact (proj1 (sort_by_In l b) Hb).
  - intros a b c Ha Hb Hc. apply Htr.
    + destruct Ha as [<-|Ha]; [now left|right].
      exact (proj1 (sort_by_In l a) Ha).
    + destruct Hb as [<-|Hb]; [now left|right].
      exact (proj1 (sort_by_In l b) Hb).
    + destruct Hc as [<-|Hc]; [now left|right].
      exact (proj1 (sort_by_In l c) Hc).
  - apply IH.
    + intros a b Ha Hb. apply Htot; simpl; auto.
    + intros a b c Ha Hb Hc. apply Htr; simpl; auto.
Qed.
End SortFacts.

(** ** Grouping *)

Lemma unique_In (l : list pyval) (x : pyval) : In x (unique l) -> In x l.
Proof.
  induction l as [|y l IH]; simpl; [tauto|].
  intros [H|H]; [auto|]. apply filter_In in H as [H _]. auto.
Qed.

Lemma filter_keeps_distinct_keys (keep : pyval -> bool) (l : list pyval) :
  NoDup (map key_of l) -> NoDup (map key_of (filter keep l)).
Proof.
  set (f := key_of). set (p := keep).
  induction l as [|x l IH]; simpl; intros H; [constructor|].
  inversion H as [|? ? Hx Hl]; subst.
  destruct (p x); simpl; [constructor|]; auto.
  intros Hin. apply Hx. apply in_map_iff in Hin as (y & Hy & Hin).
  apply filter_In in Hin as [Hin _]. apply in_map_iff. eauto.
Qed.

Lemma unique_NoDup (l : list pyval) : NoDup (map key_of (unique l)).
Proof.
  induction l as [|x l IH]; simpl; constructor.
  - intros Hin. apply in_map_iff in Hin as (y & Hy & Hin).
    apply filter_In in Hin as [_ Hin].
    symmetry in Hy. apply same_key_iff in Hy. rewrite Hy in Hin.
    discriminate.
  - now apply filter_keeps_distinct_keys.
Qed.

Lemma unique_covers (l : list pyval) (v : pyval) :
  In v l -> exists k, In k (unique l) /\ same_key k v = true.
Proof.
  induction l as [|x l IH]; simpl; [tauto|].
  intros [->|H].
  - exists v. split; [now left|apply same_key_refl].
  - destruct (IH H) as (k & Hk & Hkv).
    destruct (same_key x k) eqn:E.
    + exists x. split; [now left|].
      now rewrite (same_key_congr x k v E).
    + exists k. split; [|assumption].
      right. apply filter_In. split; [assumption|]. now rewrite E.
Qed.

Lemma group_keys_NoDup (cells : list pyval) :
  NoDup (map key_of (group_keys cells)).
Proof.
  unfold group_keys.
  eapply Permutation_NoDup; [|apply unique_NoDup].
  apply Permutation_map. symmetry. apply sort_by_perm.
Qed.

Lemma group_keys_In (cells : list pyval) (k : pyval) :
  In k (group_keys cells) -> In k cells /\ isna k = false.
Proof.
  unfold group_keys. intros H.
  apply sort_by_In, unique_In, filter_In in H as [H1 H2].
  split; [assumption|]. now destruct (isna k).
Qed.

Lemma group_keys_covers (cells : list pyval) (v : pyval) :
  In v cells -> isna v = false ->
  exists k, In k (group_keys cells) /\ same_key k v = true.
Proof.
  intros Hin Hna. unfold group_keys.
  destruct (unique_covers (filter (fun v => negb (isna v)) cells) v)
    as (k & Hk & Hkv).
  - apply filter_In. split; [assumption|]. now rewrite Hna.
  - exists k. split; [|assumption]. now apply sort_by_In.
Qed.

(** ** Integer frequencies *)

Lemma odd_part_spec (p : positive) :
  Z.pos p = Z.pos (fst (odd_part p)) * 2 ^ snd (odd_part p)
  /\ 0 <= snd (odd_part p).
Proof.
  induction p as [p IH|p IH|]; cbn [odd_part].
  - cbn [fst snd]. rewrite Z.pow_0_r. split; lia.
  - destruct (odd_part p) as [q k]. cbn [fst snd] in *.
    destruct IH as [IH Hk]. split; [|lia].
    rewrite Z.pow_add_r, Z.pow_1_r by lia.
    change (Z.pos p~0) with (2 * Z.pos p). rewrite IH. ring.
  - cbn [fst snd]. rewrite Z.pow_0_r. split; lia.
Qed.

Lemma key_of_int (z : Z) :
  exists n e, key_of (VInt z) = KNum n e /\ z = n * 2 ^ e /\ 0 <= e.
Proof.
  destruct z as [|p|p]; cbn [key_of].
  - exists 0, 0. repeat split; lia.
  - unfold dyadic. destruct (odd_part_spec p) as [H Hk].
    destruct (odd_part p) as [q k]. cbn [fst snd] in *.
    exists (Z.pos q), k. rewrite Z.add_0_l.
    repeat split; [exact H|exact Hk].
  - unfold dyadic. destruct (odd_part_spec p) as [H Hk].
    destruct (odd_part p) as [q k]. cbn [fst snd] in *.
    exists (Z.neg q), k. rewrite Z.add_0_l.
    repeat split; [|exact Hk].
    change (Z.neg p) with (- Z.pos p). rewrite H.
    change (Z.neg q) with (- Z.pos q). ring.
Qed.

(** On integers the order of the keys is the order of the integers. *)
Lemma key_leb_int (a b : Z) :
  key_leb (key_of (VInt a)) (key_of (VInt b)) = (a <=? b)%Z.
Proof.
  destruct (key_of_int a) as (n1 & e1 & -> & Ha & H1).
  destruct (key_of_int b) as (n2 & e2 & -> & Hb & H2).
  cbn [key_leb]. set (m := Z.min e1 e2).
  assert (Hm : 0 <= m) by (unfold m; lia).
  assert (Hp : 0 < 2 ^ m) by (apply Z.pow_pos_nonneg; lia).
  assert (E1 : a = n1 * 2 ^ (e1 - m) * 2 ^ m).
  { rewrite <- Z.mul_assoc, <- Z.pow_add_r by (unfold m; lia).
    now replace (e1 - m + m) with e1 by lia. }
  assert (E2 : b = n2 * 2 ^ (e2 - m) * 2 ^ m).
  { rewrite <- Z.mul_assoc, <- Z.pow_add_r by (unfold m; lia).
    now replace (e2 - m + m) with e2 by lia. }
  rewrite E1, E2 at 1.
  apply Bool.eq_true_iff_eq. rewrite !Z.leb_le.
  now apply Z.mul_le_mono_pos_r.
Qed.

(** ** The aggregator, step by step *)

Import PropertyDataMerger.

Lemma filter_all {A} (p : A -> bool) (l : list A) :
  Forall (fun x => p x = true) l -> filter p l = l.
Proof.
  induction 1 as [|x l Hx _ IH]; simpl; [reflexivity|].
  now rewrite Hx, IH.
Qed.

Lemma filter_none {A} (p : A -> bool) (l : list A) :
  Forall (fun x => p x = false) l -> filter p l = [].
Proof.
  induction 1 as [|x l Hx _ IH]; simpl; [reflexivity|].
  now rewrite Hx, IH.
Qed.


Lemma mapM_map {A B C} (g : A -> B) (f : B -> result C) (l : list A) :
  mapM f (map g l) = mapM (fun x => f (g x)) l.
Proof.
  induction l as [|x l IH]; simpl; [reflexivity|]. now rewrite IH.
Qed.

(** ** The keys of the summary come from the table that is read *)

Lemma Forall2_In_r {A B} (R : A -> B -> Prop) (l : list A) (l' : list B)
  (y : B) :
  Forall2 R l l' -> In y l' -> exists x, In x l /\ R x y.
Proof.
  induction 1 as [|a b l l' Hab _ IH]; simpl; [contradiction|].
  intros [<-|Hy]; [eauto|].
  destruct (IH Hy) as (x & Hx & Hr). eauto.
Qed.

(** A column is numeric when all its cells are numbers. *)
Lemma numeric_dtype_of (cells : list pyval) :
  numeric (dtype_of cells) = forallb is_number cells.
Proof.
  unfold dtype_of.
  destruct (forallb (fun v => is_int v && is_number v) cells) eqn:E.
  - symmetry. apply forallb_forall. intros v Hv.
    rewrite forallb_forall in E. specialize (E v Hv).
    now apply andb_true_iff in E.
  - now destruct (forallb is_number cells).
Qed.

Lemma numeric_dtype_at (df : DataFrame) (c : string) (i : nat) :
  index_of c (columns df) = Some i ->
  numeric (dtype_at df c) = true
  <-> Forall (fun r => is_number (cell i r) = true) (rows df).
Proof.
  intros Hi. unfold dtype_at. rewrite Hi, numeric_dtype_of.
  rewrite forallb_forall, Forall_forall. split.
  - intros H r Hr. apply H. now apply in_map.
  - intros H v Hv. apply in_map_iff in Hv as (r & <- & Hr). auto.
Qed.

Lemma nlargest_number (n : nat) (c : string) (t : dtype) (df : DataFrame)
  (i : nat) :
  index_of c (columns df) = Some i ->
  numeric t = true ->
  nlargest n c t df
  = Ok {| columns := columns df;
          rows := firstn n (ranking i (rows df)) |}.
Proof.
  intros Hi Ht. unfold nlargest, col_index. rewrite Hi. simpl.
  now rewrite Ht.
Qed.

Lemma ranking_In (i : nat) (rs : list (list pyval)) (r : list pyval) :
  In r (ranking i rs) <-> In r rs.
Proof.
  unfold ranking. rewrite in_app_iff, sort_by_In, !filter_In.
  destruct (is_nan (cell i r)); simpl; intuition discriminate.
Qed.

(** ** The groups of [top_names] are the groups of the name table *)

(** ** The groups of [top_names] are the groups of the name table *)

Lemma firstn_In {A} (n : nat) (l : list A) (x : A) :
  In x (firstn n l) -> In x l.
Proof.
  intros H. rewrite <- (firstn_skipn n l). apply in_or_app. now left.
Qed.


Lemma top_rows_In (pc ni fi : nat) (rs : list (list pyval)) (k : pyval)
  (r : list pyval) :
  In r (top_rows pc ni fi rs k) ->
  exists r0, In r0 rs /\ r = three_cells pc ni fi r0
             /\ same_key k (cell pc r0) = true.
Proof.
  unfold top_rows. intros H.
  apply in_map_iff in H as (r0 & <- & H).
  apply firstn_In, ranking_In, filter_In in H as [H1 H2].
  eauto.
Qed.

Lemma group_rows_congr (i : nat) (k k' : pyval) (rs : list (list pyval)) :
  same_key k k' = true -> group_rows i k rs = group_rows i k' rs.
Proof.
  intros H. unfold group_rows. apply filter_ext.
  intros r. now apply same_key_congr.
Qed.

Lemma top_rows_congr (pc ni fi : nat) (rs : list (list pyval))
  (k k' : pyval) :
  same_key k k' = true -> top_rows pc ni fi rs k = top_rows pc ni fi rs k'.
Proof.
  intros H. unfold top_rows. now rewrite (group_rows_congr pc k k' rs H).
Qed.

Lemma group_rows_top_same (pc ni fi : nat) (rs : list (list pyval))
  (k k' : pyval) :
  same_key k k' = true ->
  group_rows 0 k' (top_rows pc ni fi rs k) = top_rows pc ni fi rs k.
Proof.
  intros H. unfold group_rows. apply filter_all.
  apply Forall_forall. intros r Hr.
  apply top_rows_In in Hr as (r0 & _ & -> & Hk).
  change (cell 0 (three_cells pc ni fi r0)) with (cell pc r0).
  rewrite same_key_sym in H. now rewrite (same_key_congr k' k _ H).
Qed.

Lemma group_rows_top_other (pc ni fi : nat) (rs : list (list pyval))
  (k k' : pyval) :
  same_key k k' = false ->
  group_rows 0 k' (top_rows pc ni fi rs k) = [].
Proof.
  intros H. unfold group_rows. apply filter_none.
  apply Forall_forall. intros r Hr.
  apply top_rows_In in Hr as (r0 & _ & -> & Hk).
  change (cell 0 (three_cells pc ni fi r0)) with (cell pc r0).
  rewrite same_key_sym. rewrite <- (same_key_congr k _ k' Hk). exact H.
Qed.

Lemma group_rows_flat_map (pc ni fi : nat) (rs : list (list pyval))
  (ks : list pyval) (k' : pyval) :
  NoDup (map key_of ks) ->
  group_rows 0 k' (flat_map (top_rows pc ni fi rs) ks)
  = if existsb (fun k => same_key k k') ks
    then top_rows pc ni fi rs k' else [].
Proof.
  induction ks as [|k ks IH]; simpl; intros Hnd; [reflexivity|].
  inversion Hnd as [|? ? Hk Hks]; subst.
  unfold group_rows in *. rewrite filter_app.
  fold (group_rows 0 k' (top_rows pc ni fi rs k)).
  destruct (same_key k k') eqn:E; simpl.
  - rewrite (group_rows_top_same _ _ _ _ _ _ E), (IH Hks).
    replace (existsb (fun k0 => same_key k0 k') ks) with false.
    + rewrite app_nil_r. now apply top_rows_congr.
    + symmetry. apply not_true_is_false. intros Hex.
      apply existsb_exists in Hex as (k0 & Hk0 & E0).
      apply Hk. apply same_key_iff in E, E0.
      rewrite E, <- E0. now apply in_map.
  - rewrite (group_rows_top_other _ _ _ _ _ _ E). simpl. now apply IH.
Qed.

(** The keys of the summary are postal codes of the name table, and the
    rows under a key are the five chosen rows of its group. *)
Lemma summary_key (pc ni fi : nat) (N : DataFrame) (k' : pyval) :
  In k' (group_keys (map (cell 0) (rows (top_frame pc ni fi N)))) ->
  isna k' = false
  /\ (exists r0, In r0 (rows N) /\ k' = cell pc r0)
  /\ group_rows 0 k' (rows (top_frame pc ni fi N))
     = top_rows pc ni fi (rows N) k'.
Proof.
  intros H. apply group_keys_In in H as [H Hna].
  split; [assumption|].
  apply in_map_iff in H as (r & <- & Hr).
  unfold top_frame in *. cbn [rows] in *.
  apply in_flat_map in Hr as (k & Hk & Hr).
  apply top_rows_In in Hr as (r0 & Hr0 & -> & Hkr).
  split; [now exists r0|].
  rewrite group_rows_flat_map by apply group_keys_NoDup.
  replace (existsb _ (postal_keys pc N)) with true; [reflexivity|].
  symmetry. apply existsb_exists. exists k. auto.
Qed.

Lemma top_rows_nonempty (pc ni fi : nat) (rs : list (list pyval))
  (k : pyval) (r : list pyval) :
  In r rs -> same_key k (cell pc r) = true ->
  top_rows pc ni fi rs k <> [].
Proof.
  intros Hr Hk. unfold top_rows.
  assert (Hg : In r (group_rows pc k rs)) by (apply filter_In; auto).
  apply (ranking_In fi) in Hg.
  destruct (ranking fi (group_rows pc k rs)); [contradiction|].
  discriminate.
Qed.

Lemma summary_covers (pc ni fi : nat) (N : DataFrame) (r : list pyval) :
  In r (rows N) -> isna (cell pc r) = false ->
  exists k', In k' (group_keys (map (cell 0) (rows (top_frame pc ni fi N))))
             /\ same_key k' (cell pc r) = true.
Proof.
  intros Hr Hna.
  destruct (group_keys_covers (map (cell pc) (rows N)) (cell pc r))
    as (k & Hk & Hkr); [now apply in_map|assumption|].
  pose proof (top_rows_nonempty pc ni fi (rows N) k r Hr Hkr) as Hne.
  destruct (top_rows pc ni fi (rows N) k) as [|t ts] eqn:Et;
    [contradiction|].
  assert (Ht : In t (top_rows pc ni fi (rows N) k)) by (rewrite Et; now left).
  destruct (top_rows_In _ _ _ _ _ _ Ht) as (r0 & Hr0 & -> & Hk0).
  destruct (group_keys_covers
              (map (cell 0) (rows (top_frame pc ni fi N))) (cell pc r0))
    as (k' & Hk' & E).
  - apply in_map_iff. exists (three_cells pc ni fi r0). split; [reflexivity|].
    unfold top_frame. cbn [rows]. apply in_flat_map. exists k.
    split; [exact Hk|exact Ht].
  - apply group_keys_In in Hk as [_ Hkna].
    now rewrite <- (same_key_isna k (cell pc r0) Hk0).
  - exists k'. split; [assumption|].
    rewrite (same_key_congr k' (cell pc r0) _ E).
    rewrite same_key_sym in Hk0.
    now rewrite (same_key_congr (cell pc r0) k _ Hk0).
Qed.

Lemma postal_keys_coded (pc : nat) (N : DataFrame) :
  postal_keys pc N <> []
  <-> exists r, In r (rows N) /\ isna (cell pc r) = false.
Proof.
  unfold postal_keys. split.
  - destruct (group_keys _) as [|k ks] eqn:E; [contradiction|]. intros _.
    assert (Hk : In k (group_keys (map (cell pc) (rows N))))
      by (rewrite E; now left).
    apply group_keys_In in Hk as [Hin Hna].
    apply in_map_iff in Hin as (r & <- & Hr). eauto.
  - intros (r & Hr & Hna) E.
    destruct (group_keys_covers (map (cell pc) (rows N)) (cell pc r))
      as (k & Hk & _); [now apply in_map|assumption|].
    rewrite E in Hk. contradiction.
Qed.

(** ** The summary table *)

Section Aggregator.

Variable repr_finite : bool -> positive -> Z -> string.
Variable N : DataFrame.
Variables pc ni fi : nat.
Hypothesis Hpc : index_of "postal_code" (columns N) = Some pc.
Hypothesis Hni : index_of "TX_FST_NAME" (columns N) = Some ni.
Hypothesis Hfi : index_of "MS_FREQUENCY" (columns N) = Some fi.
Hypothesis Hnum : numeric (dtype_at N "MS_FREQUENCY") = true.

Lemma top5_group (rs : list (list pyval)) :
  top5 (dtype_at N "MS_FREQUENCY") {| columns := columns N; rows := rs |}
  = Ok {| columns := three_columns;
          rows := map (three_cells pc ni fi)
                      (firstn 5 (ranking fi rs)) |}.
Proof.
  unfold top5.
  rewrite (nlargest_number 5 "MS_FREQUENCY" _
             {| columns := columns N; rows := rs |} fi Hfi Hnum).
  simpl.
  unfold select, col_index. simpl. rewrite Hpc, Hni, Hfi. reflexivity.
Qed.

Lemma top_names_spec : top_names N = Ok (top_frame pc ni fi N).
Proof.
  unfold top_names, groupby_apply, groupby, col_index. rewrite Hpc. simpl.
  unfold top_frame. fold (postal_keys pc N).
  induction (postal_keys pc N) as [|k ks IH]; simpl; [reflexivity|].
  rewrite top5_group. simpl.
  destruct (mapM _ (map _ ks)) as [fs|e] eqn:E; [|discriminate IH].
  simpl in *. injection IH as _ IH.
  unfold top_rows at 1, group_rows. now rewrite IH.
Qed.

Lemma names_text_three (ts : list dtype) (rs : list (list pyval)) :
  names_text repr_finite ts {| columns := three_columns; rows := rs |}
  = Ok (VStr (join ", " (map (token_text repr_finite ts) rs))).
Proof.
  unfold names_text, iterrows. cbn [rows]. rewrite mapM_map.
  rewrite (mapM_ext _ (fun r => Ok (token_text repr_finite ts r)))
    by reflexivity.
  now rewrite mapM_pure.
Qed.

Hypothesis Hcoded : exists r, In r (rows N) /\ isna (cell pc r) = false.

Lemma top_frame_columns : columns (top_frame pc ni fi N) = three_columns.
Proof.
  unfold top_frame. cbn [columns].
  destruct (postal_keys pc N) eqn:E; [|reflexivity].
  now apply postal_keys_coded in Hcoded.
Qed.

Lemma summary_keys_nonempty :
  group_keys (map (cell 0) (rows (top_frame pc ni fi N))) <> [].
Proof.
  destruct Hcoded as (r & Hr & Hna).
  destruct (summary_covers pc ni fi N r Hr Hna) as (k & Hk & _).
  intros E. rewrite E in Hk. contradiction.
Qed.

Lemma top_names_pivot_spec :
  top_names_pivot repr_finite N
  = Ok {| columns := ["postal_code"; "top_names"];
          rows := summary_rows repr_finite (row_types N)
                    (rows (top_frame pc ni fi N)) |}.
Proof.
  unfold top_names_pivot. rewrite top_names_spec.
  cbn [mbind result_monad Py.bind].
  unfold groupby_apply_scalar, groupby, col_index.
  rewrite top_frame_columns.
  change (index_of "postal_code" three_columns) with (Some 0%nat).
  cbn [mbind result_monad Py.bind].
  fold (row_types N).
  pose proof summary_keys_nonempty as Hne.
  unfold summary_rows.
  set (T := rows (top_frame pc ni fi N)) in *.
  assert (E : forall ks,
             mapM (fun g : pyval * DataFrame =>
                     Py.bind (names_text repr_finite (row_types N) (snd g))
                             (fun v => Ok [fst g; v]))
                  (map (fun k =>
                          (k, {| columns := three_columns;
                                 rows := filter
                                           (fun r => same_key k (cell 0 r))
                                           T |}))
                       ks)
             = Ok (map (fun k =>
                          [k; VStr (join ", "
                                      (map (token_text repr_finite
                                                       (row_types N))
                                           (group_rows 0 k T)))])
                       ks)).
  { induction ks as [|k ks IH]; [reflexivity|].
    cbn [map mapM fst snd]. rewrite names_text_three.
    cbn [Py.bind]. rewrite IH. reflexivity. }
  rewrite E. cbn [Py.bind].
  destruct (group_keys (map (cell 0) T)); [contradiction|reflexivity].
Qed.

End Aggregator.

(** Without a record that has a postal code there is no group: the two
    lambdas are never called, and [reset_index(name=...)] raises. *)
Lemma top_names_pivot_no_group
  (repr_finite : bool -> positive -> Z -> string) (N : DataFrame) (pc : nat) :
  index_of "postal_code" (columns N) = Some pc ->
  Forall (fun r => isna (cell pc r) = true) (rows N) ->
  top_names_pivot repr_finite N = Raise TypeError.
Proof.
  intros Hpc Hna.
  assert (E : group_keys (map (cell pc) (rows N)) = []).
  { unfold group_keys. rewrite filter_none; [reflexivity|].
    apply Forall_forall. intros v Hv.
    apply in_map_iff in Hv as (r & <- & Hr).
    rewrite Forall_forall in Hna. now rewrite (Hna r Hr). }
  unfold top_names_pivot, top_names, groupby_apply, groupby, col_index.
  rewrite Hpc. cbn [mbind result_monad Py.bind]. rewrite E.
  cbn [map mapM mbind result_monad Py.bind columns rows flat_map].
  unfold groupby_apply_scalar, groupby, col_index. cbn [columns rows].
  rewrite Hpc. reflexivity.
Qed.

Lemma top5_Ok (t : dtype) (g d : DataFrame) :
  top5 t g = Ok d ->
  numeric t = true
  /\ exists pc ni fi,
       index_of "postal_code" (columns g) = Some pc
       /\ index_of "TX_FST_NAME" (columns g) = Some ni
       /\ index_of "MS_FREQUENCY" (columns g) = Some fi.
Proof.
  unfold top5, nlargest, select, col_index.
  destruct (index_of "MS_FREQUENCY" (columns g)) as [fi|] eqn:Efi;
    [|discriminate].
  cbn [mbind result_monad Py.bind].
  destruct (numeric t); [|discriminate].
  cbn [mbind result_monad Py.bind mapM columns].
  destruct (index_of "postal_code" (columns g)) as [pc|]; [|discriminate].
  cbn [mbind result_monad Py.bind].
  destruct (index_of "TX_FST_NAME" (columns g)) as [ni|]; [|discriminate].
  intros _. split; [reflexivity|]. exists pc, ni, fi. auto.
Qed.

(** When the aggregator returns, the name table has the three columns,
    a numeric frequency column and a record with a postal code, and the
    summary is what [summary_rows] describes. *)
Lemma top_names_pivot_Ok (repr_finite : bool -> positive -> Z -> string)
  (N S : DataFrame) :
  top_names_pivot repr_finite N = Ok S ->
  exists pc ni fi,
    index_of "postal_code" (columns N) = Some pc
    /\ index_of "TX_FST_NAME" (columns N) = Some ni
    /\ index_of "MS_FREQUENCY" (columns N) = Some fi
    /\ numeric (dtype_at N "MS_FREQUENCY") = true
    /\ (exists r, In r (rows N) /\ isna (cell pc r) = false)
    /\ S = {| columns := ["postal_code"; "top_names"];
              rows := summary_rows repr_finite (row_types N)
                        (rows (top_frame pc ni fi N)) |}.
Proof.
  intros H.
  destruct (index_of "postal_code" (columns N)) as [pc|] eqn:Hpc.
  2:{ unfold top_names_pivot, top_names, groupby_apply, groupby, col_index
        in H. rewrite Hpc in H. discriminate H. }
  destruct (postal_keys pc N) as [|k ks] eqn:Ek.
  - exfalso.
    rewrite (top_names_pivot_no_group repr_finite N pc Hpc) in H;
      [discriminate|].
    apply Forall_forall. intros r Hr.
    destruct (isna (cell pc r)) eqn:Hna; [reflexivity|].
    assert (Hne : postal_keys pc N <> []) by (apply postal_keys_coded; eauto).
    now rewrite Ek in Hne.
  - assert (Hcoded : exists r, In r (rows N) /\ isna (cell pc r) = false).
    { apply postal_keys_coded. now rewrite Ek. }
    assert (Hg : exists d,
               top5 (dtype_at N "MS_FREQUENCY")
                    {| columns := columns N;
                       rows := filter (fun r => same_key k (cell pc r))
                                      (rows N) |} = Ok d).
    { unfold top_names_pivot, top_names, groupby_apply, groupby, col_index
        in H. rewrite Hpc in H. cbn [mbind result_monad Py.bind] in H.
      fold (postal_keys pc N) in H. rewrite Ek in H.
      cbn [map mapM snd] in H.
      destruct (top5 _ _) as [d|e]; [eauto|discriminate H]. }
    destruct Hg as [d Hd].
    apply top5_Ok in Hd as (Hnum & pc' & ni & fi & Hpc' & Hni & Hfi).
    cbn [columns] in *.
    exists pc, ni, fi. repeat (split; [assumption|]).
    rewrite (top_names_pivot_spec repr_finite N pc ni fi Hpc Hni Hfi Hnum
               Hcoded) in H.
    now injection H.
Qed.

(** ** The summary table *)


Lemma summary_rows_keys (repr_finite : bool -> positive -> Z -> string)
  (ts : list dtype) (T : list (list pyval)) :
  map (cell 0) (summary_rows repr_finite ts T) = group_keys (map (cell 0) T).
Proof.
  unfold summary_rows. rewrite map_map. apply map_id.
Qed.

Lemma top_names_pivot_rows (repr_finite : bool -> positive -> Z -> string)
  (N S : DataFrame) :
  top_names_pivot repr_finite N = Ok S ->
  columns S = ["postal_code"; "top_names"]
  /\ NoDup (map (fun row => key_of (cell 0 row)) (rows S))
  /\ Forall (fun row => exists k s, row = [k; VStr s]) (rows S)
  /\ rows S <> [].
Proof.
  intros H.
  destruct (top_names_pivot_Ok _ _ _ H)
    as (pc & ni & fi & Hpc & Hni & Hfi & Hnum & Hcoded & ->).
  cbn [columns rows]. split; [reflexivity|]. split; [|split].
  - rewrite <- (map_map (cell 0) key_of), summary_rows_keys.
    apply group_keys_NoDup.
  - unfold summary_rows. apply Forall_forall. intros row Hrow.
    apply in_map_iff in Hrow as (k & <- & _). eauto.
  - intros E. apply (f_equal (map (cell 0))) in E.
    rewrite summary_rows_keys in E.
    now apply (summary_keys_nonempty N pc ni fi Hcoded).
Qed.

(** The aggregator applies no normalization: every key of the summary is
    the postal code of a record of the table it is given, as it stands
    there. *)
Lemma top_names_pivot_keys (repr_finite : bool -> positive -> Z -> string)
  (N S : DataFrame) :
  top_names_pivot repr_finite N = Ok S ->
  exists pc,
    index_of "postal_code" (columns N) = Some pc
    /\ forall row, In row (rows S) ->
         isna (cell 0 row) = false
         /\ exists r, In r (rows N) /\ cell 0 row = cell pc r.
Proof.
  intros H.
  destruct (top_names_pivot_Ok _ _ _ H)
    as (pc & ni & fi & Hpc & Hni & Hfi & Hnum & Hcoded & ->).
  exists pc. split; [exact Hpc|]. cbn [rows]. intros row Hrow.
  unfold summary_rows in Hrow. apply in_map_iff in Hrow as (k & <- & Hk).
  change (cell 0 [k; _]) with k.
  destruct (summary_key pc ni fi N k Hk) as (Hna & Hr & _). auto.
Qed.





(** ** The five highest frequencies *)

(** ** The five highest frequencies *)


Lemma StronglySorted_In_impl {A} (R R' : A -> A -> Prop) (l : list A) :
  (forall a b, In a l -> In b l -> R a b -> R' a b) ->
  StronglySorted R l -> StronglySorted R' l.
Proof.
  intros H Hs. induction Hs as [|x l Hs IH Hx]; constructor.
  - apply IH. intros a b Ha Hb. apply H; now right.
  - rewrite Forall_forall in *. intros y Hy.
    apply H; [now left|now right|auto].
Qed.

(** ** Numbers by value *)














Lemma dtype_of_text (cells : list pyval) (s : string) :
  In (VStr s) cells -> dtype_of cells = object.
Proof.
  intros H. unfold dtype_of.
  replace (forallb (fun v => is_int v && is_number v) cells) with false.
  - replace (forallb is_number cells) with false; [reflexivity|].
    symmetry. apply not_true_is_false. intros E.
    rewrite forallb_forall in E. specialize (E _ H). discriminate.
  - symmetry. apply not_true_is_false. intros E.
    rewrite forallb_forall in E. specialize (E _ H). discriminate.
Qed.




(** The summary of the sample records: the group of 1000 has seven
    records, the five most frequent are kept, Ben before Cara. *)
Example names_summary_computed :
  top_names_pivot Sample.no_repr Sample.names = Ok Sample.names_summary.
Proof. reflexivity. Qed.

(** ** The merge *)

(** ** The merge *)

Lemma filter_unique_key (x : pyval) (l : list (list pyval)) :
  NoDup (map (fun row => key_of (cell 0 row)) l) ->
  filter (fun row => same_key x (cell 0 row)) l
  = match find (fun row => same_key x (cell 0 row)) l with
    | Some row => [row]
    | None => []
    end.
Proof.
  induction l as [|row l IH]; simpl; intros Hnd; [reflexivity|].
  inversion Hnd as [|? ? Hrow Hl]; subst.
  destruct (same_key x (cell 0 row)) eqn:E; [|auto].
  f_equal. apply filter_none. apply Forall_forall. intros row' Hrow'.
  apply not_true_is_false. intros E'. apply Hrow.
  apply same_key_iff_key in E, E'. rewrite <- E, E'.
  now apply (in_map (fun row => key_of (cell 0 row))).
Qed.

Lemma flat_map_singleton {A B} (f : A -> list B) (g : A -> B) (l : list A) :
  (forall x, In x l -> f x = [g x]) -> flat_map f l = map g l.
Proof.
  induction l as [|x l IH]; simpl; intros H; [reflexivity|].
  rewrite H by auto. rewrite IH by auto. reflexivity.
Qed.



(** What the merge gives when it returns. *)
Lemma merge_summary (L S M : DataFrame) (li : nat) :
  index_of "postal_code" (columns L) = Some li ->
  columns S = ["postal_code"; "top_names"] ->
  NoDup (map (fun row => key_of (cell 0 row)) (rows S)) ->
  Forall (fun row => exists k s, row = [k; VStr s]) (rows S) ->
  merge L S "postal_code" = Ok M ->
  rows M = map (fun l => l ++ [attached S (cell li l)]) (rows L)
  /\ (~ In "top_names" (columns L) ->
      columns M = columns L ++ ["top_names"]).
Proof.
  intros Hli Hc Hnd Hrows. unfold merge, col_index.
  rewrite Hli, Hc. cbn [index_of String.eqb Ascii.eqb Bool.eqb].
  cbn [mbind result_monad Py.bind].
  destruct (keys_clash _ _); [discriminate|].
  cbn [remove_nth firstn skipn app].
  destruct (_ || _); [discriminate|]. cbn [map].
  intros H. injection H as <-. cbn [rows columns]. split.
  - apply flat_map_singleton. intros l Hl.
    rewrite (filter_unique_key _ _ Hnd). unfold attached.
    destruct (find _ (rows S)) as [row|] eqn:Ef; [|reflexivity].
    apply find_some in Ef as [Hrow _].
    rewrite Forall_forall in Hrows.
    destruct (Hrows row Hrow) as (k & s & ->). reflexivity.
  - intros Hn.
    assert (Hm : mem "top_names" (columns L) = false).
    { destruct (mem "top_names" (columns L)) eqn:M; [|reflexivity].
      apply mem_In in M. contradiction. }
    rewrite Hm. f_equal.
    rewrite <- (map_id (columns L)) at 2. apply map_ext_in.
    intros c Hcin. unfold mem. cbn [existsb].
    destruct (String.eqb_spec c "top_names") as [->|]; [contradiction|].
    rewrite orb_false_r, andb_false_r. reflexivity.
Qed.





Example merge_computed :
  merge Sample.to_merge Sample.names_summary "postal_code"
  = Ok Sample.merged_listings.
Proof. reflexivity. Qed.


(** ** The script *)

Lemma read_csv_Ok (path : string) (d d' : fs) (df : DataFrame) :
  read_csv path d = (Ok df, d') -> d' = d /\ lookup path d = Some (CSV df).
Proof.
  unfold read_csv. destruct (lookup path d) as [[x|x|x]|];
    intros H; inversion H; auto.
Qed.

Lemma init_state (p1 p2 p3 : string) (d d' : fs) (r : result t) :
  __init__ p1 p2 p3 d = (r, d') -> d' = d.
Proof.
  unfold __init__, _load_json, read_csv, read_excel, json_load, lift.
  cbn [mbind ST_monad ret].
  destruct (lookup p1 d) as [[x|x|x]|]; try (intros H; now inversion H).
  destruct (lookup p2 d) as [[y|y|y]|]; try (intros H; now inversion H).
  destruct (lookup p3 d) as [[z|z|z]|]; try (intros H; now inversion H).
  destruct (_create_postal_data_dict y); intros H; now inversion H.
Qed.

Lemma main_steps (repr_finite : bool -> positive -> Z -> string)
  (d d' : fs) :
  main repr_finite d = (Ok tt, d') ->
  exists processor out processor' raw formatted S M,
    __init__ property_data_path postal_data_path ins_to_postal_path d
    = (Ok processor, d)
    /\ enrich_property_data processor = (Ok out, processor')
    /\ lookup raw_names_path d = Some (CSV raw)
    /\ PostalCodeFormatter.format_postal_codes raw "postal_code"
       = Ok formatted
    /\ top_names_pivot repr_finite formatted = Ok S
    /\ merge (property_data processor') S "postal_code" = Ok M
    /\ d' = ("Propertities.csv", CSV M)
            :: ("names.csv", CSV formatted)
            :: ("Step_2_Dataset.csv", CSV (property_data processor')) :: d.
Proof.
  unfold main. cbn [mbind ST_monad].
  destruct (__init__ _ _ _ d) as [[processor|e] d1] eqn:E1; [|discriminate].
  pose proof (init_state _ _ _ _ _ _ E1) as ->.
  unfold call.
  destruct (enrich_property_data processor) as [[out|e] processor'] eqn:E2;
    [|discriminate].
  cbn [snd]. unfold save_enriched_data, to_csv.
  unfold read_csv at 1. unfold lookup at 1.
  change (String.eqb "Step_2_Dataset.csv" raw_names_path) with false.
  fold lookup.
  destruct (lookup raw_names_path d) as [[raw|x|x]|] eqn:E3;
    try discriminate.
  unfold lift.
  destruct (PostalCodeFormatter.format_postal_codes raw "postal_code")
    as [formatted|e] eqn:E4; [|discriminate].
  unfold PostalCodeFormatter.save_formatted_data, to_csv.
  unfold merge_with_top_names. cbn [mbind ST_monad].
  unfold read_csv, lift, to_csv. cbn [lookup String.eqb Ascii.eqb Bool.eqb].
  destruct (top_names_pivot repr_finite formatted) as [S|e] eqn:E5;
    [|discriminate].
  destruct (merge (property_data processor') S "postal_code") as [M|e] eqn:E6;
    [|discriminate].
  intros H. injection H as <-.
  exists processor, out, processor', raw, formatted, S, M.
  repeat split; auto.
Qed.

Lemma format_cell_Ok (x v : pyval) :
  PostalCodeFormatter.format_cell x = Ok v ->
  (exists z, v = VInt z) \/ v = nan.
Proof.
  destruct x as [z|f|s|].
  - rewrite format_cell_int.
    destruct (fits_numpy z); intros H; [|discriminate].
    injection H as <-. eauto.
  - destruct f; simpl; intros H; try discriminate; injection H as <-; eauto.
  - simpl. destruct (int_of_str _); simpl; intros H; [|discriminate].
    injection H as <-. eauto.
  - simpl. intros H. injection H as <-. auto.
Qed.

(** C8 (as amended). In the script the postal codes of the name records
    are normalized before the aggregator groups them: [main] formats the
    raw name table, writes the result to names.csv, and
    [merge_with_top_names] reads that file. The key of every summary row
    is therefore the integer that the normalizer gives for the postal code
    of a raw record. [merge_with_top_names] itself normalizes nothing: it
    groups the table it reads by the values found there (lemma
    [top_names_pivot_keys]). *)
Theorem script_groups_normalized_names
  (repr_finite : bool -> positive -> Z -> string) (d d' : fs) :
  (forall raw, lookup raw_names_path d = Some (CSV raw) -> wf_frame raw) ->
  main repr_finite d = (Ok tt, d') ->
  exists raw rawcol formatted S M enriched,
    lookup raw_names_path d = Some (CSV raw)
    /\ getitem raw "postal_code" = Ok rawcol
    /\ PostalCodeFormatter.format_postal_codes raw "postal_code"
       = Ok formatted
    /\ lookup "names.csv" d' = Some (CSV formatted)
    /\ top_names_pivot repr_finite formatted = Ok S
    /\ lookup "Step_2_Dataset.csv" d' = Some (CSV enriched)
    /\ merge enriched S "postal_code" = Ok M
    /\ lookup "Propertities.csv" d' = Some (CSV M)
    /\ forall row, In row (rows S) ->
         exists x z,
           In x rawcol
           /\ PostalCodeFormatter.format_cell x = Ok (VInt z)
           /\ cell 0 row = VInt z.
Proof.
  intros Hwf Hrun.
  destruct (main_steps _ _ _ Hrun)
    as (processor & out & processor' & raw & formatted & S & M
        & _ & _ & Hraw & Hfmt & Hpivot & Hmerge & ->).
  specialize (Hwf raw Hraw).
  unfold PostalCodeFormatter.format_postal_codes in Hfmt.
  destruct (getitem raw "postal_code") as [rawcol|e] eqn:Hcol;
    [|discriminate].
  cbn [mbind result_monad Py.bind] in Hfmt.
  destruct (apply PostalCodeFormatter.format_cell rawcol) as [values|e]
    eqn:Happly; [|discriminate].
  cbn [Py.bind] in Hfmt.
  exists raw, rawcol, formatted, S, M, (property_data processor').
  assert (Hfmt' : PostalCodeFormatter.format_postal_codes raw "postal_code"
                  = Ok formatted).
  { unfold PostalCodeFormatter.format_postal_codes. rewrite Hcol.
    cbn [mbind result_monad Py.bind]. rewrite Happly. exact Hfmt. }
  repeat (split; [first [assumption|reflexivity]|]).
  intros row Hrow.
  destruct (top_names_pivot_keys _ _ _ Hpivot) as (pc & Hpc & Hkeys).
  destruct (Hkeys row Hrow) as (Hna & r & Hr & Hcell).
  destruct (setitem_spec _ _ _ _ Hwf Hfmt) as (_ & _ & _ & Hget & _).
  unfold getitem, col_index in Hget. rewrite Hpc in Hget.
  cbn [mbind result_monad Py.bind] in Hget. injection Hget as Hget.
  assert (Hv : In (cell pc r) values).
  { rewrite <- Hget. now apply in_map. }
  apply mapM_Forall2 in Happly.
  destruct (Forall2_In_r _ _ _ _ Happly Hv) as (x & Hx & Hfx).
  destruct (format_cell_Ok _ _ Hfx) as [[z Hz]|Hz].
  - exists x, z. rewrite Hcell, Hz in *. auto.
  - rewrite Hcell, Hz in Hna. discriminate.
Qed.

Lemma script_groups_normalized_names_witness :
  exists raw rawcol formatted S M enriched,
    lookup raw_names_path Sample.disk = Some (CSV raw)
    /\ getitem raw "postal_code" = Ok rawcol
    /\ PostalCodeFormatter.format_postal_codes raw "postal_code"
       = Ok formatted
    /\ lookup "names.csv" Sample.disk_after = Some (CSV formatted)
    /\ top_names_pivot Sample.no_repr formatted = Ok S
    /\ lookup "Step_2_Dataset.csv" Sample.disk_after = Some (CSV enriched)
    /\ merge enriched S "postal_code" = Ok M
    /\ lookup "Propertities.csv" Sample.disk_after = Some (CSV M)
    /\ forall row, In row (rows S) ->
         exists x z,
           In x rawcol
           /\ PostalCodeFormatter.format_cell x = Ok (VInt z)
           /\ cell 0 row = VInt z.
Proof.
  apply (script_groups_normalized_names Sample.no_repr Sample.disk
                                        Sample.disk_after).
  - intros raw H. vm_compute in H. injection H as <-. repeat constructor.
  - vm_compute. reflexivity.
Defined.

(** C8 (as stated) fails. The two sample records have the raw postal
    codes "1000, 1010" and "1000"; grouped by the raw value they are two
    groups under text keys, which the merge would refuse to join with the
    integer codes of the listings. The script puts them in one group
    under the integer 1000 and attaches "Ben (80), Anna (50)" to the
    listing with that code. *)
Lemma script_does_not_group_raw_codes :
  main Sample.no_repr Sample.disk = (Ok tt, Sample.disk_after)
  /\ lookup raw_names_path Sample.disk = Some (CSV Sample.raw_names)
  /\ lookup "Step_2_Dataset.csv" Sample.disk_after
     = Some (CSV Sample.enriched_listings)
  /\ lookup "Propertities.csv" Sample.disk_after = Some (CSV Sample.merged)
  /\ getitem Sample.merged "top_names"
     = Ok [VStr "Ben (80), Anna (50)"; nan]
  /\ top_names_pivot Sample.no_repr Sample.raw_names = Ok Sample.raw_summary
  /\ merge Sample.enriched_listings Sample.raw_summary "postal_code"
     = Raise ValueError
  /\ ~ (forall d d' raw enriched out,
           main Sample.no_repr d = (Ok tt, d') ->
           lookup raw_names_path d = Some (CSV raw) ->
           lookup "Step_2_Dataset.csv" d' = Some (CSV enriched) ->
           lookup "Propertities.csv" d' = Some (CSV out) ->
           exists S, top_names_pivot Sample.no_repr raw = Ok S
                     /\ merge enriched S "postal_code" = Ok out).
Proof.
  assert (Hrun : main Sample.no_repr Sample.disk = (Ok tt, Sample.disk_after))
    by (vm_compute; reflexivity).
  assert (Hraw : lookup raw_names_path Sample.disk
                 = Some (CSV Sample.raw_names))
    by (vm_compute; reflexivity).
  assert (Hstep : lookup "Step_2_Dataset.csv" Sample.disk_after
                  = Some (CSV Sample.enriched_listings))
    by (vm_compute; reflexivity).
  assert (Hout : lookup "Propertities.csv" Sample.disk_after
                 = Some (CSV Sample.merged))
    by (vm_compute; reflexivity).
  assert (Hsum : top_names_pivot Sample.no_repr Sample.raw_names
                 = Ok Sample.raw_summary)
    by (vm_compute; reflexivity).
  repeat (split; [first [assumption|vm_compute; reflexivity]|]).
  intros H.
  destruct (H _ _ _ _ _ Hrun Hraw Hstep Hout) as (S & HS & HM).
  rewrite Hsum in HS. injection HS as <-.
  vm_compute in HM. discriminate HM.
Qed.


(** * Further properties *)

(** ** Decimal text: [int(str(z)) == z] *)

(** Evaluates the tests that [parse_digits] makes on a literal
    character. *)
Ltac read_char :=
  cbn [parse_digits];
  repeat match goal with
         | |- context [Ascii.eqb ?a ?b] =>
             let v := eval vm_compute in (Ascii.eqb a b) in
             change (Ascii.eqb a b) with v
         | |- context [digit_of ?c] =>
             let v := eval vm_compute in (digit_of c) in
             change (digit_of c) with v
         end;
  cbv beta iota.

Lemma parse_digits_acc (d : uint) (acc : positive) :
  parse_digits (Z.pos acc) false (NilEmpty.string_of_uint d)
  = Some (Z.pos (Pos.of_uint_acc d acc)).
Proof.
  revert acc. induction d; intros acc; cbn [NilEmpty.string_of_uint];
    [reflexivity|..];
    (read_char; cbn [Pos.of_uint_acc]; rewrite <- IHd; f_equal; lia).
Qed.

Lemma parse_digits_zero (d : uint) :
  parse_digits 0 false (NilEmpty.string_of_uint d)
  = Some (Z.of_N (Pos.of_uint d)).
Proof.
  induction d; cbn [NilEmpty.string_of_uint]; [reflexivity|..];
    (read_char; cbn [Pos.of_uint];
     first [exact IHd | apply parse_digits_acc]).
Qed.

Lemma parse_digits_start (d : uint) :
  d <> Nil ->
  parse_digits 0 true (NilEmpty.string_of_uint d)
  = parse_digits 0 false (NilEmpty.string_of_uint d).
Proof.
  destruct d; intros H; [contradiction|..]; reflexivity.
Qed.

Lemma parse_signed_uint (d : uint) :
  d <> Nil ->
  parse_signed (NilEmpty.string_of_uint d)
  = Some (Z.of_N (Pos.of_uint d)).
Proof.
  intros H. rewrite <- parse_digits_zero, <- (parse_digits_start d H).
  destruct d; [contradiction|..]; reflexivity.
Qed.

(** Neither [strip] nor [int] finds white space in decimal text. *)
Lemma rstrip_uint (space : ascii -> bool) (d : uint) :
  space = isspace \/ space = int_space ->
  rstrip space (NilEmpty.string_of_uint d) = NilEmpty.string_of_uint d.
Proof.
  intros Hsp.
  induction d; cbn [NilEmpty.string_of_uint rstrip]; [reflexivity|..];
    rewrite IHd; (destruct (NilEmpty.string_of_uint d); [|reflexivity]);
    destruct Hsp as [-> | ->]; reflexivity.
Qed.

Lemma strip_uint (space : ascii -> bool) (d : uint) :
  space = isspace \/ space = int_space ->
  rstrip space (lstrip space (NilEmpty.string_of_uint d))
  = NilEmpty.string_of_uint d.
Proof.
  intros Hsp.
  assert (E : lstrip space (NilEmpty.string_of_uint d)
              = NilEmpty.string_of_uint d).
  { destruct d; cbn [NilEmpty.string_of_uint]; [reflexivity|..];
      apply lstrip_fixed; destruct Hsp as [-> | ->]; reflexivity. }
  rewrite E. now apply rstrip_uint.
Qed.

Lemma int_of_str_pos (p : positive) :
  int_of_str (NilEmpty.string_of_uint (Pos.to_uint p)) = Some (Z.pos p).
Proof.
  unfold int_of_str. rewrite strip_uint by now right.
  rewrite parse_signed_uint by apply DecimalPos.Unsigned.to_uint_nonnil.
  now rewrite DecimalPos.Unsigned.of_to.
Qed.

Lemma string_of_uint_pos (p : positive) :
  NilZero.string_of_uint (Pos.to_uint p)
  = NilEmpty.string_of_uint (Pos.to_uint p).
Proof.
  unfold NilZero.string_of_uint.
  pose proof (DecimalPos.Unsigned.to_uint_nonnil p) as H.
  now destruct (Pos.to_uint p).
Qed.

Lemma parse_digits_uint (d : uint) :
  d <> Nil ->
  parse_digits 0 true (NilEmpty.string_of_uint d)
  = Some (Z.of_N (Pos.of_uint d)).
Proof.
  intros H. rewrite (parse_digits_start d H). apply parse_digits_zero.
Qed.

Lemma strip_minus_uint (space : ascii -> bool) (d : uint) :
  space = isspace \/ space = int_space ->
  rstrip space (lstrip space (String "-" (NilEmpty.string_of_uint d)))
  = String "-" (NilEmpty.string_of_uint d).
Proof.
  intros Hsp.
  rewrite lstrip_fixed by (destruct Hsp as [-> | ->]; reflexivity).
  cbn [rstrip]. rewrite rstrip_uint by assumption.
  destruct (NilEmpty.string_of_uint d); [|reflexivity].
  destruct Hsp as [-> | ->]; reflexivity.
Qed.

(** Reading the decimal text of an integer gives the integer back. *)
Lemma int_of_str_of_int (z : Z) : int_of_str (str_of_int z) = Some z.
Proof.
  unfold str_of_int. destruct z as [|p|p]; cbn [Z.to_int NilZero.string_of_int].
  - reflexivity.
  - rewrite string_of_uint_pos. apply int_of_str_pos.
  - rewrite string_of_uint_pos. unfold int_of_str.
    rewrite strip_minus_uint by now right.
    change (parse_signed (String "-" ?s))
      with (option_map Z.opp (parse_digits 0 true s)).
    rewrite parse_digits_uint by apply DecimalPos.Unsigned.to_uint_nonnil.
    now rewrite DecimalPos.Unsigned.of_to.
Qed.

Lemma strip_str_of_int (z : Z) : strip (str_of_int z) = str_of_int z.
Proof.
  unfold str_of_int, strip.
  destruct z as [|p|p]; cbn [Z.to_int NilZero.string_of_int].
  - reflexivity.
  - rewrite string_of_uint_pos. apply strip_uint. now left.
  - rewrite string_of_uint_pos. apply strip_minus_uint. now left.
Qed.

Lemma has_char_uint (d : uint) :
  has_char "," (NilEmpty.string_of_uint d) = false.
Proof.
  induction d; cbn [NilEmpty.string_of_uint has_char]; [reflexivity|..];
    now rewrite IHd.
Qed.

Lemma has_char_str_of_int (z : Z) : has_char "," (str_of_int z) = false.
Proof.
  unfold str_of_int. destruct z as [|p|p]; cbn [Z.to_int NilZero.string_of_int].
  - reflexivity.
  - rewrite string_of_uint_pos. apply has_char_uint.
  - rewrite string_of_uint_pos. cbn [has_char]. now rewrite has_char_uint.
Qed.

Lemma canonical_str_of_int (z : Z) : canonical (str_of_int z) = true.
Proof.
  unfold canonical. rewrite int_of_str_of_int. apply String.eqb_refl.
Qed.

(** ** The normalizer and the resolver on decimal text *)

(** X1. The normalizer reads back the decimal text of every integer:
    [int(str(z).split(",")[0].strip())] is [z], also when further
    segments follow a comma. *)
Theorem format_cell_reads_decimal_text (z : Z) (rest : string) :
  format_cell (VStr (str_of_int z)) = Ok (VInt z)
  /\ format_cell (VStr (str_of_int z ++ String "," rest)) = Ok (VInt z).
Proof.
  rewrite !format_cell_str.
  rewrite leading_segment_no_comma by apply has_char_str_of_int.
  rewrite leading_segment_append by apply has_char_str_of_int.
  now rewrite strip_str_of_int, int_of_str_of_int.
Qed.

Lemma str_in_filter_canonical (s : string) (l : list string) :
  canonical s = true -> str_in s (filter canonical l) = str_in s l.
Proof.
  intros Hs. unfold str_in.
  induction l as [|x l IH]; cbn [filter existsb]; [reflexivity|].
  destruct (canonical x) eqn:Ex; cbn [existsb]; rewrite IH; [reflexivity|].
  destruct (String.eqb_spec s x) as [->|]; [congruence|reflexivity].
Qed.

(** X2. The resolver compares with [str(int(postal_code))], so only
    postal-code strings that are the decimal text of an integer can ever
    match: the strings of the mapping with a leading zero, a sign "+",
    blanks or underscores are dead, and removing them changes no
    resolution. *)
Theorem get_ins_code_ignores_noncanonical (self : t) (v : pyval) :
  _get_ins_code
    (mk (property_data self) (postal_data self)
        (prune (ins_to_postal self)) (postal_data_dict self)) v
  = _get_ins_code self v.
Proof.
  unfold _get_ins_code. cbn [ins_to_postal].
  induction (ins_to_postal self) as [|[k l] items IH];
    cbn [prune map scan_items fst snd]; [reflexivity|].
  destruct (int v) as [p|e]; cbn [mbind result_monad Py.bind];
    [|reflexivity].
  rewrite str_in_filter_canonical by apply canonical_str_of_int.
  destruct (str_in (str_of_int p) l); [reflexivity|].
  exact IH.
Qed.

Lemma scan_items_listed (items : list (string * list string)) (v : pyval)
  (p : Z) :
  int v = Ok p ->
  scan_items items v
  = match listed_under (str_of_int p) items with
    | [] => Ok VNone
    | e :: _ => c <- int (VStr (fst e)) ;; Ok (VInt c)
    end.
Proof.
  intros Hp. unfold listed_under.
  induction items as [|[k l] items IH]; cbn [scan_items filter snd];
    [reflexivity|].
  rewrite Hp. cbn [mbind result_monad Py.bind].
  destruct (str_in (str_of_int p) l); [reflexivity|exact IH].
Qed.

Lemma scan_items_raises (items : list (string * list string)) (v : pyval)
  (e : exn) :
  int v = Raise e ->
  scan_items items v = match items with [] => Ok VNone | _ => Raise e end.
Proof.
  intros He. destruct items as [|[k l] items]; cbn [scan_items];
    [reflexivity|].
  now rewrite He.
Qed.

Lemma listed_under_perm (s : string)
  (items items' : list (string * list string)) :
  Permutation items items' ->
  Permutation (listed_under s items) (listed_under s items').
Proof.
  unfold listed_under.
  induction 1 as [|e l l' _ IH|e1 e2 l|l1 l2 l3 _ IH1 _ IH2];
    cbn [filter].
  - constructor.
  - destruct (str_in s (snd e)); [now constructor|assumption].
  - destruct (str_in s (snd e1)), (str_in s (snd e2));
      try reflexivity. apply perm_swap.
  - etransitivity; eassumption.
Qed.

(** X3. When no postal-code string stands under two areas, the order of
    the entries of the mapping does not matter: the resolver gives the
    same result, or raises the same exception, for every postal code. *)
Theorem get_ins_code_order_irrelevant (self self' : t) (v : pyval) :
  unambiguous (ins_to_postal self) ->
  Permutation (ins_to_postal self) (ins_to_postal self') ->
  _get_ins_code self v = _get_ins_code self' v.
Proof.
  intros Hun Hperm. unfold _get_ins_code.
  destruct (int v) as [p|e] eqn:Hv.
  - rewrite !(scan_items_listed _ v p Hv).
    specialize (Hun (str_of_int p)).
    assert (Hl : Permutation (listed_under (str_of_int p) (ins_to_postal self))
                             (listed_under (str_of_int p)
                                           (ins_to_postal self'))).
    { now apply listed_under_perm. }
    destruct (listed_under (str_of_int p) (ins_to_postal self))
      as [|e1 [|e2 rest]].
    + apply Permutation_nil in Hl. now rewrite Hl.
    + apply Permutation_length_1_inv in Hl. now rewrite Hl.
    + cbn [List.length] in Hun. lia.
  - rewrite !(scan_items_raises _ v e Hv).
    destruct (ins_to_postal self) as [|e1 l1].
    + apply Permutation_nil in Hperm. now rewrite Hperm.
    + destruct (ins_to_postal self') as [|e2 l2]; [|reflexivity].
      apply Permutation_sym, Permutation_nil in Hperm. discriminate.
Qed.

Lemma get_ins_code_order_irrelevant_witness :
  _get_ins_code Sample.two_areas (VInt 1010)
  = _get_ins_code Sample.two_areas_swapped (VInt 1010).
Proof.
  apply get_ins_code_order_irrelevant.
  - intros s. unfold listed_under, str_in. cbn.
    destruct (String.eqb s "2000") eqn:E1.
    + apply String.eqb_eq in E1. subst s. cbn. lia.
    + cbn. destruct (String.eqb s "1000" || (String.eqb s "1010" || false));
        cbn; lia.
  - cbn. apply perm_swap.
Defined.

(** ** The formatter on a whole table *)

Lemma format_cell_normalizes (x : pyval) :
  if normalizes x then exists v, format_cell x = Ok v
  else exists e, format_cell x = Raise e
                 /\ (e = ValueError \/ e = OverflowError \/ e = TypeError).
Proof.
  pose proof (format_cell_returns_iff_normalizes x) as H.
  destruct (normalizes x).
  - destruct H as (v & Hv & _). eauto.
  - destruct H as [(s & _ & H)|[(b & _ & H)|(z & _ & _ & H)]]; eauto 6.
Qed.

(** The first element on which a function raises decides what [mapM]
    raises. *)
Lemma mapM_first_raise {A B} (f : A -> result B) (ok : A -> bool)
  (l : list A) :
  (forall x, ok x = true -> exists y, f x = Ok y) ->
  (forall x, ok x = false -> exists e, f x = Raise e) ->
  forallb ok l = false ->
  exists pre x post e,
    l = pre ++ x :: post
    /\ forallb ok pre = true
    /\ ok x = false
    /\ f x = Raise e
    /\ mapM f l = Raise e.
Proof.
  intros Hok Hbad. induction l as [|a l IH]; cbn [forallb]; [discriminate|].
  destruct (ok a) eqn:Ea; cbn [andb]; intros Hl.
  - destruct (IH Hl) as (pre & x & post & e & -> & Hpre & Hx & Hfx & Hm).
    exists (a :: pre), x, post, e. cbn [forallb app mapM].
    rewrite Ea, Hpre. destruct (Hok a Ea) as [y Hy]. rewrite Hy.
    cbn [Py.bind]. rewrite Hm. auto.
  - destruct (Hbad a Ea) as [e He].
    exists [], a, l, e. cbn [forallb app mapM]. rewrite He. auto.
Qed.

Lemma getitem_length (df : DataFrame) (c : string) (col : list pyval) :
  getitem df c = Ok col -> List.length col = List.length (rows df).
Proof.
  unfold getitem, col_index.
  destruct (index_of c (columns df)); [|discriminate].
  cbn [mbind result_monad Py.bind]. intros H. injection H as <-.
  apply length_map.
Qed.

Lemma setitem_returns (df : DataFrame) (c : string) (values : list pyval) :
  List.length values = List.length (rows df) ->
  exists df', setitem df c values = Ok df'.
Proof.
  intros H. unfold setitem. rewrite H, Nat.eqb_refl. eauto.
Qed.

(** X4. [format_postal_codes] raises KeyError with the column's name
    when the table has no such column; otherwise it returns exactly when
    every cell of the column is one the normalizer accepts, and raises
    what the normalizer raises on the first cell that it does not accept:
    ValueError (a string that does not read as an integer), OverflowError
    (an infinite float) or TypeError (an integer that numpy does not
    take). *)
Theorem format_postal_codes_returns_iff (df : DataFrame) (c : string) :
  match getitem df c with
  | Raise _ => format_postal_codes df c = Raise (KeyError c)
  | Ok col =>
      if forallb normalizes col
      then exists df', format_postal_codes df c = Ok df'
      else exists pre x post e,
             col = pre ++ x :: post
             /\ forallb normalizes pre = true
             /\ normalizes x = false
             /\ format_cell x = Raise e
             /\ (e = ValueError \/ e = OverflowError \/ e = TypeError)
             /\ format_postal_codes df c = Raise e
  end.
Proof.
  unfold format_postal_codes.
  destruct (getitem df c) as [col|e] eqn:Hcol.
  - cbn [mbind result_monad Py.bind]. unfold apply.
    destruct (forallb normalizes col) eqn:Hall.
    + destruct (mapM_returns format_cell col) as [values Hv].
      { apply Forall_forall. intros x Hx.
        rewrite forallb_forall in Hall. specialize (Hall x Hx).
        pose proof (format_cell_normalizes x) as H. now rewrite Hall in H. }
      rewrite Hv. cbn [Py.bind]. apply setitem_returns.
      rewrite (mapM_length _ _ _ Hv). eapply getitem_length; eauto.
    + destruct (mapM_first_raise format_cell normalizes col)
        as (pre & x & post & e & Hsplit & Hpre & Hx & Hfx & Hm).
      * intros x Hx. pose proof (format_cell_normalizes x) as H.
        now rewrite Hx in H.
      * intros x Hx. pose proof (format_cell_normalizes x) as H.
        rewrite Hx in H. destruct H as (e & He & _). eauto.
      * exact Hall.
      * exists pre, x, post, e. rewrite Hm. cbn [Py.bind].
        repeat (split; [assumption|]). split; [|reflexivity].
        pose proof (format_cell_normalizes x) as H. rewrite Hx in H.
        destruct H as (e' & He' & Hkind). congruence.
  - unfold getitem, col_index in Hcol.
    destruct (index_of c (columns df)); [discriminate|].
    cbn [mbind result_monad Py.bind] in Hcol. injection Hcol as <-.
    reflexivity.
Qed.

Lemma mapM_fixed {A} (f : A -> result A) (l : list A) :
  Forall (fun x => f x = Ok x) l -> mapM f l = Ok l.
Proof.
  induction 1 as [|x l Hx _ IH]; cbn [mapM]; [reflexivity|].
  now rewrite Hx, IH.
Qed.

Lemma set_nth_cell (i : nat) (r : list pyval) : set_nth i (cell i r) r = r.
Proof.
  unfold cell. revert i. induction r as [|x r IH]; intros [|i];
    cbn [set_nth nth]; try reflexivity.
  now rewrite IH.
Qed.

Lemma zip_with_set_nth_cell (i : nat) (rs : list (list pyval)) :
  zip_with (fun r v => set_nth i v r) rs (map (cell i) rs) = rs.
Proof.
  induction rs as [|r rs IH]; cbn [zip_with map]; [reflexivity|].
  now rewrite set_nth_cell, IH.
Qed.

(** The normalizer leaves its own results as they are, except the
    integers that numpy does not take. *)
Lemma format_cell_fixed (x v : pyval) :
  format_cell x = Ok v ->
  if normalizes v then format_cell v = Ok v
  else format_cell v = Raise TypeError.
Proof.
  intros H. destruct (format_cell_Ok _ _ H) as [[z ->]| ->]; [|reflexivity].
  cbn [normalizes]. rewrite format_cell_int. now destruct (fits_numpy z).
Qed.

Example format_postal_codes_bad_names :
  format_postal_codes Sample.bad_names "postal_code" = Raise ValueError.
Proof. reflexivity. Qed.

(** X5. When [format_postal_codes] returns, the table has the same
    columns and as many rows; every other column has the values it had;
    each cell of the formatted column is what the normalizer gives for
    the cell it replaces, an integer or NaN. *)
Theorem format_postal_codes_frame (df df' : DataFrame) (c : string) :
  wf_frame df ->
  format_postal_codes df c = Ok df' ->
  columns df' = columns df
  /\ List.length (rows df') = List.length (rows df)
  /\ (forall c', c' <> c -> getitem df' c' = getitem df c')
  /\ exists col values,
       getitem df c = Ok col
       /\ getitem df' c = Ok values
       /\ Forall2 (fun x v => format_cell x = Ok v) col values
       /\ Forall (fun v => is_int v = true \/ v = nan) values.
Proof.
  intros Hwf. unfold format_postal_codes.
  destruct (getitem df c) as [col|e] eqn:Hcol; [|discriminate].
  cbn [mbind result_monad Py.bind].
  destruct (apply format_cell col) as [values|e] eqn:Hv; [|discriminate].
  cbn [Py.bind]. intros Hset.
  destruct (setitem_spec _ _ _ _ Hwf Hset) as (_ & Hlen & Hcols & Hget & Hoth & _).
  assert (Hmem : mem c (columns df) = true).
  { rewrite mem_index_of. unfold getitem, col_index in Hcol.
    now destruct (index_of c (columns df)). }
  rewrite Hmem, app_nil_r in Hcols.
  split; [exact Hcols|]. split; [exact Hlen|]. split; [exact Hoth|].
  exists col, values. apply mapM_Forall2 in Hv.
  repeat split; auto.
  clear -Hv. induction Hv as [|x v col values Hx _ IH]; constructor; auto.
  destruct (format_cell_Ok _ _ Hx) as [[z ->]| ->]; auto.
Qed.

Lemma format_postal_codes_frame_witness :
  columns Sample.formatted_names = columns Sample.raw_names
  /\ List.length (rows Sample.formatted_names)
     = List.length (rows Sample.raw_names)
  /\ (forall c', c' <> "postal_code" ->
        getitem Sample.formatted_names c' = getitem Sample.raw_names c')
  /\ exists col values,
       getitem Sample.raw_names "postal_code" = Ok col
       /\ getitem Sample.formatted_names "postal_code" = Ok values
       /\ Forall2 (fun x v => format_cell x = Ok v) col values
       /\ Forall (fun v => is_int v = true \/ v = nan) values.
Proof.
  apply (format_postal_codes_frame Sample.raw_names Sample.formatted_names).
  - repeat constructor.
  - reflexivity.
Defined.

(** X6. Formatting a formatted table again returns it unchanged when
    every integer of the column is one that numpy takes as int64 or
    uint64; when one is not (the first call read it from text), the
    second call raises TypeError. *)
Theorem format_postal_codes_idempotent (df df' : DataFrame) (c : string) :
  wf_frame df ->
  format_postal_codes df c = Ok df' ->
  exists values,
    getitem df' c = Ok values
    /\ if forallb normalizes values
       then format_postal_codes df' c = Ok df'
       else format_postal_codes df' c = Raise TypeError.
Proof.
  intros Hwf Hrun.
  assert (exists col values,
             getitem df' c = Ok values
             /\ Forall2 (fun x v => format_cell x = Ok v) col values)
    as (col & values & Hget & Hv).
  { unfold format_postal_codes in Hrun.
    destruct (getitem df c) as [col|e]; [|discriminate].
    cbn [mbind result_monad Py.bind] in Hrun.
    destruct (apply format_cell col) as [values|e] eqn:Hv; [|discriminate].
    cbn [Py.bind] in Hrun.
    destruct (setitem_spec _ _ _ _ Hwf Hrun) as (_ & _ & _ & Hget & _).
    exists col, values. split; [exact Hget|]. now apply mapM_Forall2. }
  exists values. split; [exact Hget|].
  assert (Hfixed : Forall (fun v => if normalizes v
                                    then format_cell v = Ok v
                                    else format_cell v = Raise TypeError)
                          values).
  { clear -Hv. induction Hv as [|x v col values Hx _ IH]; constructor; auto.
    eapply format_cell_fixed; eauto. }
  rewrite Forall_forall in Hfixed.
  unfold format_postal_codes. rewrite Hget.
  cbn [mbind result_monad Py.bind]. unfold apply.
  destruct (forallb normalizes values) eqn:Hall.
  - rewrite mapM_fixed.
    + cbn [Py.bind]. unfold setitem.
      rewrite (getitem_length _ _ _ Hget), Nat.eqb_refl.
      unfold getitem, col_index in Hget.
      destruct (index_of c (columns df')) as [i|]; [|discriminate].
      cbn [mbind result_monad Py.bind] in Hget. injection Hget as <-.
      rewrite zip_with_set_nth_cell. now destruct df'.
    + apply Forall_forall. intros v Hin.
      rewrite forallb_forall in Hall.
      specialize (Hfixed v Hin). now rewrite (Hall v Hin) in Hfixed.
  - destruct (mapM_first_raise format_cell normalizes values)
      as (pre & x & post & e & Hsplit & _ & Hx & Hfx & Hm).
    + intros x Hx. pose proof (format_cell_normalizes x) as H.
      now rewrite Hx in H.
    + intros x Hx. pose proof (format_cell_normalizes x) as H.
      rewrite Hx in H. destruct H as (e & He & _). eauto.
    + exact Hall.
    + rewrite Hm. cbn [Py.bind].
      assert (Hin : In x values).
      { rewrite Hsplit. apply in_or_app. right. now left. }
      specialize (Hfixed x Hin). rewrite Hx in Hfixed. congruence.
Qed.

Lemma format_postal_codes_idempotent_witness :
  exists values,
    getitem Sample.formatted_names "postal_code" = Ok values
    /\ if forallb normalizes values
       then format_postal_codes Sample.formatted_names "postal_code"
            = Ok Sample.formatted_names
       else format_postal_codes Sample.formatted_names "postal_code"
            = Raise TypeError.
Proof.
  apply (format_postal_codes_idempotent Sample.raw_names).
  - repeat constructor.
  - reflexivity.
Defined.

(** A postal code of twenty digits, read from text, is an integer that
    the second call cannot take. *)
Example format_postal_codes_twice_raises :
  format_postal_codes
    {| columns := ["postal_code"];
       rows := [[VStr "99999999999999999999"]] |} "postal_code"
  = Ok {| columns := ["postal_code"];
          rows := [[VInt 99999999999999999999]] |}
  /\ format_postal_codes
       {| columns := ["postal_code"];
          rows := [[VInt 99999999999999999999]] |} "postal_code"
     = Raise TypeError.
Proof. split; reflexivity. Qed.

(** ** Enrichment: when it returns, what it leaves on an error *)

Lemma setitem_columns (df df' : DataFrame) (c : string)
  (values : list pyval) :
  setitem df c values = Ok df' ->
  In c (columns df')
  /\ forall x, In x (columns df) -> In x (columns df').
Proof.
  unfold setitem.
  destruct (Nat.eqb _ _); [|discriminate].
  destruct (index_of c (columns df)) as [i|] eqn:Ei; intros H;
    injection H as <-; cbn [columns].
  - split; [|auto]. apply index_of_Some in Ei. eapply nth_error_In; eauto.
  - split; [apply in_or_app; right; now left|].
    intros x Hx. apply in_or_app. now left.
Qed.

Lemma assign_raises (c src : string) (f : t -> pyval -> result pyval)
  (self self' : t) (e : exn) :
  assign c src f self = (Raise e, self') ->
  self' = self
  /\ (getitem (property_data self) src = Raise e
      \/ exists col, getitem (property_data self) src = Ok col
                     /\ apply (f self) col = Raise e).
Proof.
  unfold assign, get, lift, put. cbn [mbind ST_monad].
  destruct (getitem (property_data self) src) as [col|e1] eqn:G.
  - destruct (apply (f self) col) as [values|e2] eqn:A.
    + destruct (setitem_returns (property_data self) c values) as [df Hdf].
      { unfold apply in A. rewrite (mapM_length _ _ _ A).
        eapply getitem_length; eauto. }
      rewrite Hdf. discriminate.
    + intros H. injection H as <- <-. split; [reflexivity|]. right. eauto.
  - intros H. injection H as <- <-. auto.
Qed.

Lemma assign_pure_returns (c src : string) (g : t -> pyval -> pyval)
  (self : t) :
  In src (columns (property_data self)) ->
  exists self',
    assign c src (fun s x => Ok (g s x)) self = (Ok tt, self')
    /\ forall x, In x (columns (property_data self)) ->
                 In x (columns (property_data self')).
Proof.
  intros Hsrc. apply index_of_In in Hsrc as [i Hi].
  unfold assign, get, lift, put, getitem, col_index. cbn [mbind ST_monad].
  rewrite Hi. cbn [mbind result_monad Py.bind]. unfold apply.
  rewrite mapM_pure.
  destruct (setitem_returns (property_data self) c
              (map (g self) (map (cell i) (rows (property_data self)))))
    as [df Hdf].
  { now rewrite !length_map. }
  rewrite Hdf. eexists. split; [reflexivity|]. cbn [property_data].
  apply setitem_columns in Hdf. tauto.
Qed.

Lemma assign_raises_first (self self' : t) (e : exn) :
  enrich_property_data self = (Raise e, self') ->
  getitem (property_data self) "postal_code" = Raise e
  \/ exists postal,
       getitem (property_data self) "postal_code" = Ok postal
       /\ apply (_get_ins_code self) postal = Raise e.
Proof.
  unfold enrich_property_data. cbn [mbind ST_monad].
  destruct (assign "INS_Code" "postal_code" _get_ins_code self)
    as [[[]|e1] s1] eqn:E1.
  - intros H. exfalso.
    apply assign_Ok in E1 as (col & ins & df1 & _ & _ & S1 & ->).
    apply setitem_columns in S1 as [Hins _].
    set (s1 := mk df1 (postal_data self) (ins_to_postal self)
                  (postal_data_dict self)) in *.
    destruct (assign_pure_returns "Population" "INS_Code"
                _get_population s1 Hins) as (s2 & E2 & H2).
    destruct (assign_pure_returns "Wealth_Index" "INS_Code"
                _get_wealth_index s2 (H2 _ Hins)) as (s3 & E3 & H3).
    destruct (assign_pure_returns "Density" "INS_Code"
                _get_density s3 (H3 _ (H2 _ Hins))) as (s4 & E4 & _).
    rewrite E2, E3, E4 in H. unfold get in H. discriminate H.
  - intros H. injection H as <- <-.
    now apply assign_raises in E1.
Qed.

(** X7. Enrichment is all or nothing. When [enrich_property_data]
    raises, the object is as it was, no derived column has been added;
    and the exception is the KeyError of the missing postal_code column or
    the one that [_get_ins_code] raised on a postal code: once the area
    codes are there, the three lookups cannot fail. *)
Theorem enrich_raises_unchanged (self self' : t) (e : exn) :
  enrich_property_data self = (Raise e, self') ->
  self' = self
  /\ (getitem (property_data self) "postal_code" = Raise e
      \/ exists postal,
           getitem (property_data self) "postal_code" = Ok postal
           /\ apply (_get_ins_code self) postal = Raise e).
Proof.
  unfold enrich_property_data. cbn [mbind ST_monad].
  destruct (assign "INS_Code" "postal_code" _get_ins_code self)
    as [[[]|e1] s1] eqn:E1.
  - intros H. exfalso.
    apply assign_Ok in E1 as (col & ins & df1 & _ & _ & S1 & ->).
    apply setitem_columns in S1 as [Hins _].
    set (s1 := mk df1 (postal_data self) (ins_to_postal self)
                  (postal_data_dict self)) in *.
    destruct (assign_pure_returns "Population" "INS_Code"
                _get_population s1 Hins) as (s2 & E2 & H2).
    destruct (assign_pure_returns "Wealth_Index" "INS_Code"
                _get_wealth_index s2 (H2 _ Hins)) as (s3 & E3 & H3).
    destruct (assign_pure_returns "Density" "INS_Code"
                _get_density s3 (H3 _ (H2 _ Hins))) as (s4 & E4 & _).
    rewrite E2, E3, E4 in H. unfold get in H. discriminate H.
  - intros H. injection H as <- <-.
    now apply assign_raises in E1.
Qed.

Lemma enrich_raises_unchanged_witness :
  enrich_property_data (Sample.processor Sample.missing_postal_code)
  = (Raise ValueError, Sample.processor Sample.missing_postal_code)
  /\ (getitem (property_data (Sample.processor Sample.missing_postal_code))
              "postal_code" = Raise ValueError
      \/ exists postal,
           getitem (property_data
                      (Sample.processor Sample.missing_postal_code))
                   "postal_code" = Ok postal
           /\ apply (_get_ins_code
                       (Sample.processor Sample.missing_postal_code))
                    postal = Raise ValueError).
Proof.
  assert (Hrun : enrich_property_data
                   (Sample.processor Sample.missing_postal_code)
                 = (Raise ValueError,
                    Sample.processor Sample.missing_postal_code))
    by (vm_compute; reflexivity).
  split; [exact Hrun|].
  exact (proj2 (enrich_raises_unchanged _ _ _ Hrun)).
Defined.

Lemma scan_items_returns (items : list (string * list string)) (v : pyval)
  (p : Z) :
  int v = Ok p ->
  Forall (fun e => exists a, int_of_str (fst e) = Some a) items ->
  exists r, scan_items items v = Ok r.
Proof.
  intros Hp. induction 1 as [|[k l] items [a Ha] _ IH]; cbn [scan_items].
  - eauto.
  - rewrite Hp. cbn [mbind result_monad Py.bind].
    destruct (str_in (str_of_int p) l); [|exact IH].
    cbn [int fst] in *. rewrite Ha. cbn [Py.bind]. eauto.
Qed.

(** X8. Enrichment returns whenever the listings have a postal_code
    column, every postal code converts to an integer, and every key of
    the mapping reads as an integer. *)
Theorem enrich_returns (self : t) (postal : list pyval) :
  getitem (property_data self) "postal_code" = Ok postal ->
  Forall (fun x => exists p, int x = Ok p) postal ->
  Forall (fun e => exists a, int_of_str (fst e) = Some a)
         (ins_to_postal self) ->
  exists out self', enrich_property_data self = (Ok out, self').
Proof.
  intros Hcol Hint Hkeys.
  destruct (mapM_returns (_get_ins_code self) postal) as [ins Hins].
  { eapply Forall_impl; [|exact Hint]. intros x [p Hp].
    exact (scan_items_returns _ x p Hp Hkeys). }
  destruct (setitem_returns (property_data self) "INS_Code" ins) as [df1 S1].
  { rewrite (mapM_length _ _ _ Hins). eapply getitem_length; eauto. }
  unfold enrich_property_data. cbn [mbind ST_monad].
  unfold assign at 1. unfold get, lift, put. cbn [mbind ST_monad].
  rewrite Hcol. unfold apply. rewrite Hins, S1.
  apply setitem_columns in S1 as [Hin _].
  set (s1 := mk df1 (postal_data self) (ins_to_postal self)
                (postal_data_dict self)).
  destruct (assign_pure_returns "Population" "INS_Code"
              _get_population s1 Hin) as (s2 & E2 & H2).
  destruct (assign_pure_returns "Wealth_Index" "INS_Code"
              _get_wealth_index s2 (H2 _ Hin)) as (s3 & E3 & H3).
  destruct (assign_pure_returns "Density" "INS_Code"
              _get_density s3 (H3 _ (H2 _ Hin))) as (s4 & E4 & _).
  rewrite E2, E3, E4. unfold get. cbn [ret ST_monad]. eauto.
Qed.

Lemma enrich_returns_witness :
  exists out self',
    enrich_property_data (Sample.processor Sample.listings)
    = (Ok out, self').
Proof.
  apply (enrich_returns (Sample.processor Sample.listings)
                        [VInt 1000; VInt 9999] eq_refl).
  - repeat constructor; eexists; reflexivity.
  - repeat constructor. exists 100. reflexivity.
Defined.

Lemma enrich_columns (self self' : t) (out : DataFrame) :
  wf_frame (property_data self) ->
  enrich_property_data self = (Ok out, self') ->
  exists postal ins,
    getitem (property_data self) "postal_code" = Ok postal
    /\ apply (_get_ins_code self) postal = Ok ins
    /\ getitem out "INS_Code" = Ok ins
    /\ getitem out "Population" = Ok (map (_get_population self) ins)
    /\ getitem out "Wealth_Index" = Ok (map (_get_wealth_index self) ins)
    /\ getitem out "Density" = Ok (map (_get_density self) ins).
Proof.
  intros Hwf Hrun.
  destruct (enrich_steps _ _ _ Hrun) as (s1 & s2 & s3 & E1 & E2 & E3 & E4 & ->).
  apply assign_Ok in E1 as (postal & ins & df1 & G1 & A1 & S1 & ->).
  apply assign_Ok in E2 as (c2 & pops & df2 & G2 & A2 & S2 & ->).
  apply assign_Ok in E3 as (c3 & ws & df3 & G3 & A3 & S3 & ->).
  apply assign_Ok in E4 as (c4 & ds & df4 & G4 & A4 & S4 & ->).
  cbn [property_data postal_data_dict] in *.
  destruct (setitem_spec _ _ _ _ Hwf S1) as (W1 & _ & _ & V1 & _).
  destruct (setitem_spec _ _ _ _ W1 S2) as (W2 & _ & _ & V2 & O2 & _).
  destruct (setitem_spec _ _ _ _ W2 S3) as (W3 & _ & _ & V3 & O3 & _).
  destruct (setitem_spec _ _ _ _ W3 S4) as (_ & _ & _ & V4 & O4 & _).
  rewrite V1 in G2. injection G2 as <-.
  rewrite O2, V1 in G3 by discriminate. injection G3 as <-.
  rewrite O3, O2, V1 in G4 by discriminate. injection G4 as <-.
  unfold apply in A2, A3, A4. rewrite mapM_pure in A2, A3, A4.
  injection A2 as <-. injection A3 as <-. injection A4 as <-.
  exists postal, ins.
  split; [exact G1|]. split; [exact A1|].
  split; [rewrite O4, O3, O2 by discriminate; exact V1|].
  split; [rewrite O4, O3 by discriminate; exact V2|].
  split; [rewrite O4 by discriminate; exact V3|exact V4].
Qed.

Lemma scan_items_empty (v : pyval) : scan_items [] v = Ok VNone.
Proof. reflexivity. Qed.

(** X9. With an empty mapping the loop of [_get_ins_code] never runs:
    enrichment returns for listings with a postal_code column whatever its
    cells hold (a missing value, text that is no number), and the area
    code of every listing is None. *)
Theorem enrich_with_empty_mapping (self : t) (postal : list pyval) :
  wf_frame (property_data self) ->
  ins_to_postal self = [] ->
  getitem (property_data self) "postal_code" = Ok postal ->
  exists out self',
    enrich_property_data self = (Ok out, self')
    /\ getitem out "INS_Code" = Ok (map (fun _ => VNone) postal).
Proof.
  intros Hwf Hempty Hcol.
  assert (Hins : apply (_get_ins_code self) postal
                 = Ok (map (fun _ => VNone) postal)).
  { unfold apply, _get_ins_code. rewrite Hempty.
    rewrite (mapM_ext _ (fun x => Ok ((fun _ => VNone) x)))
      by reflexivity.
    apply mapM_pure. }
  destruct (enrich_property_data self) as [[out|e] self'] eqn:Hrun.
  - exists out, self'. split; [reflexivity|].
    destruct (enrich_columns _ _ _ Hwf Hrun)
      as (postal' & ins & G & A & V & _).
    rewrite Hcol in G. injection G as <-.
    rewrite Hins in A. injection A as <-. exact V.
  - exfalso.
    apply assign_raises_first in Hrun as [H|(col & H1 & H2)];
      congruence.
Qed.

Lemma enrich_with_empty_mapping_witness :
  exists out self',
    enrich_property_data (Sample.unmapped Sample.odd_listings)
    = (Ok out, self')
    /\ getitem out "INS_Code"
       = Ok (map (fun _ => VNone) [VInt 1000; nan; VStr "unknown"; VNone]).
Proof.
  apply (enrich_with_empty_mapping (Sample.unmapped Sample.odd_listings)).
  - repeat constructor.
  - reflexivity.
  - reflexivity.
Defined.

(** X10. A listing whose postal code is in no entry of the mapping stays
    in the table with None in all four derived columns (given that no
    area code of the store is None). *)
Theorem enrich_unresolved_listing (self self' : t) (out : DataFrame)
  (postal : list pyval) (i : nat) (x : pyval) (p : Z) :
  wf_frame (property_data self) ->
  Forall (fun kv => fst kv <> VNone) (postal_data_dict self) ->
  enrich_property_data self = (Ok out, self') ->
  getitem (property_data self) "postal_code" = Ok postal ->
  nth_error postal i = Some x ->
  int x = Ok p ->
  Forall (fun e => ~ In (str_of_int p) (snd e)) (ins_to_postal self) ->
  exists ins pops ws ds,
    getitem out "INS_Code" = Ok ins /\ nth_error ins i = Some VNone
    /\ getitem out "Population" = Ok pops /\ nth_error pops i = Some VNone
    /\ getitem out "Wealth_Index" = Ok ws /\ nth_error ws i = Some VNone
    /\ getitem out "Density" = Ok ds /\ nth_error ds i = Some VNone.
Proof.
  intros Hwf Hkeys Hrun Hcol Hx Hp Hnone.
  destruct (enrich_columns _ _ _ Hwf Hrun)
    as (postal' & ins & G & A & VI & VP & VW & VD).
  rewrite Hcol in G. injection G as <-.
  apply mapM_Forall2 in A.
  destruct (Forall2_nth _ _ _ _ _ A Hx) as (a & Ha & Hres).
  assert (a = VNone) as ->.
  { unfold _get_ins_code in Hres.
    rewrite <- (app_nil_r (ins_to_postal self)) in Hres.
    rewrite (scan_items_skip _ [] x p Hp Hnone) in Hres.
    cbn in Hres. congruence. }
  destruct (getters_missing self VNone eq_refl Hkeys) as (HP & HW & HD).
  exists ins, (map (_get_population self) ins),
    (map (_get_wealth_index self) ins), (map (_get_density self) ins).
  rewrite !nth_error_map, Ha. cbn [option_map].
  rewrite HP, HW, HD. repeat split; assumption.
Qed.

Lemma enrich_unresolved_listing_witness :
  exists ins pops ws ds,
    getitem Sample.enriched_listings "INS_Code" = Ok ins
    /\ nth_error ins 1 = Some VNone
    /\ getitem Sample.enriched_listings "Population" = Ok pops
    /\ nth_error pops 1 = Some VNone
    /\ getitem Sample.enriched_listings "Wealth_Index" = Ok ws
    /\ nth_error ws 1 = Some VNone
    /\ getitem Sample.enriched_listings "Density" = Ok ds
    /\ nth_error ds 1 = Some VNone.
Proof.
  apply (enrich_unresolved_listing
           (Sample.processor Sample.listings)
           (Sample.processor Sample.enriched_listings)
           Sample.enriched_listings [VInt 1000; VInt 9999] 1%nat
           (VInt 9999) 9999).
  - repeat constructor.
  - repeat constructor. discriminate.
  - vm_compute. reflexivity.
  - reflexivity.
  - reflexivity.
  - reflexivity.
  - repeat constructor. cbn. intros [H|[H|[]]]; discriminate.
Defined.

(** ** The demographic store *)

Lemma unique_fixed (l : list pyval) :
  NoDup (map key_of l) -> unique l = l.
Proof.
  induction l as [|x l IH]; cbn [map unique]; intros H; [reflexivity|].
  inversion H as [|? ? Hx Hl]; subst.
  rewrite (IH Hl). f_equal. apply filter_all.
  apply Forall_forall. intros y Hy.
  destruct (same_key x y) eqn:E; [|reflexivity].
  exfalso. apply Hx. apply same_key_iff_key in E. rewrite E.
  now apply in_map.
Qed.

Lemma unique_length (l : list pyval) :
  (List.length (unique l) <= List.length l)%nat.
Proof.
  induction l as [|x l IH]; cbn [unique List.length]; [lia|].
  pose proof (filter_length_le (fun y => negb (same_key x y)) (unique l)).
  lia.
Qed.

Lemma filter_full {A} (keep : A -> bool) (l : list A) :
  List.length (filter keep l) = List.length l ->
  Forall (fun x => keep x = true) l.
Proof.
  induction l as [|x l IH]; cbn [filter List.length]; intros H;
    [constructor|].
  pose proof (filter_length_le keep l).
  destruct (keep x) eqn:E; cbn [List.length] in H; [|lia].
  constructor; [exact E|]. apply IH. lia.
Qed.

Lemma unique_full (l : list pyval) :
  List.length (unique l) = List.length l -> NoDup (map key_of l).
Proof.
  induction l as [|x l IH]; cbn [unique List.length map]; intros H;
    [constructor|].
  pose proof (unique_length l).
  pose proof (filter_length_le (fun y => negb (same_key x y)) (unique l)).
  assert (Hl : List.length (unique l) = List.length l) by lia.
  specialize (IH Hl). constructor; [|exact IH].
  rewrite (unique_fixed l IH) in H.
  assert (Hf : Forall (fun y => negb (same_key x y) = true) l)
    by (apply filter_full; lia).
  rewrite Forall_forall in Hf.
  intros Hin. apply in_map_iff in Hin as (y & Hy & Hin).
  specialize (Hf y Hin). symmetry in Hy. apply same_key_iff in Hy.
  rewrite Hy in Hf. discriminate.
Qed.

Lemma combine_maps {A B C} (f : A -> B) (g : A -> C) (l : list A) :
  combine (map f l) (map g l) = map (fun x => (f x, g x)) l.
Proof.
  induction l as [|x l IH]; cbn [map combine]; [reflexivity|].
  now rewrite IH.
Qed.

Lemma create_dict_spec (T : DataFrame) (ci pi wi di : nat) :
  index_of "Code_INS" (columns T) = Some ci ->
  index_of "Population" (columns T) = Some pi ->
  index_of "Wealth_Index" (columns T) = Some wi ->
  index_of "Density" (columns T) = Some di ->
  _create_postal_data_dict T
  = if Nat.eqb (List.length (unique (map (cell ci) (rows T))))
               (List.length (map (cell ci) (rows T)))
    then Ok (map (fun r => (cell ci r, demographic_record pi wi di r))
                 (rows T))
    else Raise ValueError.
Proof.
  intros Hc Hp Hw Hd.
  unfold _create_postal_data_dict, getitem, select, col_index.
  cbn [mapM]. rewrite Hc, Hp, Hw, Hd.
  cbn [mbind result_monad Py.bind columns rows].
  destruct (Nat.eqb _ _); [|reflexivity].
  rewrite map_map.
  rewrite (combine_maps (cell ci)). reflexivity.
Qed.

Lemma py_eqb_same_key (k code : pyval) :
  isna code = false -> same_key k code = true -> py_eqb k code = true.
Proof.
  intros Hna Hk.
  assert (Hk' : isna k = false) by now rewrite (same_key_isna k code Hk).
  unfold py_eqb.
  destruct k as [z|[b|b| |b m e]|s|], code as [z'|[b'|b'| |b' m' e']|s'|];
    try discriminate Hna; try discriminate Hk'; cbn [is_nan negb andb];
    exact Hk.
Qed.

Lemma py_eqb_key (k code : pyval) :
  isna code = false -> py_eqb k code = true -> same_key k code = true.
Proof.
  intros Hna. unfold py_eqb.
  destruct k as [z|f|s|], code as [z'|f'|s'|];
    try discriminate; try discriminate Hna;
    intros H; apply andb_true_iff in H as [_ H]; exact H.
Qed.

Lemma dict_get_row (ci : nat) (g : list pyval -> list (string * pyval))
  (rs : list (list pyval)) (r : list pyval) (code : pyval) :
  NoDup (map (fun r => key_of (cell ci r)) rs) ->
  In r rs ->
  isna code = false ->
  same_key (cell ci r) code = true ->
  dict_get (map (fun r => (cell ci r, g r)) rs) code = Some (g r).
Proof.
  intros Hnd Hr Hna Hk.
  induction rs as [|r0 rs IH]; [contradiction|].
  cbn [map dict_get]. inversion Hnd as [|? ? H0 Hrs]; subst.
  destruct (py_eqb (cell ci r0) code) eqn:E.
  - apply (py_eqb_key _ _ Hna) in E.
    destruct Hr as [->|Hr]; [reflexivity|].
    exfalso. apply H0.
    apply same_key_iff_key in E, Hk. rewrite E, <- Hk.
    now apply (in_map (fun r => key_of (cell ci r))).
  - destruct Hr as [->|Hr]; [|now apply IH].
    rewrite (py_eqb_same_key _ _ Hna Hk) in E. discriminate.
Qed.

(** X11. Building the store and reading it back. For a demographic
    table with the four columns and no area code twice,
    [_create_postal_data_dict] returns a dict in which a lookup under an
    area code that is not missing and has the value of a row's code (the
    integer itself, or the float of that value) gives that row's
    population, wealth index and density. *)
Theorem store_lookup_gives_row (T : DataFrame) (ci pi wi di : nat) :
  index_of "Code_INS" (columns T) = Some ci ->
  index_of "Population" (columns T) = Some pi ->
  index_of "Wealth_Index" (columns T) = Some wi ->
  index_of "Density" (columns T) = Some di ->
  NoDup (map (fun r => key_of (cell ci r)) (rows T)) ->
  exists d,
    _create_postal_data_dict T = Ok d
    /\ forall self r code,
         postal_data_dict self = d ->
         In r (rows T) ->
         isna code = false ->
         same_key (cell ci r) code = true ->
         _get_population self code = cell pi r
         /\ _get_wealth_index self code = cell wi r
         /\ _get_density self code = cell di r.
Proof.
  intros Hc Hp Hw Hd Hnd.
  rewrite (create_dict_spec T ci pi wi di Hc Hp Hw Hd).
  rewrite <- map_map in Hnd.
  rewrite (unique_fixed _ Hnd), Nat.eqb_refl.
  eexists. split; [reflexivity|].
  intros self r code Hself Hr Hna Hk.
  rewrite map_map in Hnd.
  unfold _get_population, _get_wealth_index, _get_density, record_of.
  rewrite Hself.
  rewrite (dict_get_row ci (demographic_record pi wi di) _ r code
             Hnd Hr Hna Hk).
  repeat split.
Qed.

Lemma store_lookup_gives_row_witness :
  exists d,
    _create_postal_data_dict Sample.two_records = Ok d
    /\ _get_population
         (PostalDataProcessor.mk Sample.listings Sample.two_records
            Sample.mapping d)
         (VFloat (S754_finite false 25 3)) = VInt 8000
    /\ _get_wealth_index
         (PostalDataProcessor.mk Sample.listings Sample.two_records
            Sample.mapping d)
         (VFloat (S754_finite false 25 3)) = VInt 9
    /\ _get_density
         (PostalDataProcessor.mk Sample.listings Sample.two_records
            Sample.mapping d)
         (VFloat (S754_finite false 25 3)) = VInt 450.
Proof.
  destruct (store_lookup_gives_row Sample.two_records
              0%nat 1%nat 2%nat 3%nat eq_refl eq_refl eq_refl eq_refl)
    as (d & Hd & Hget).
  - cbn. repeat constructor; cbn; intuition discriminate.
  - exists d. split; [exact Hd|].
    apply (Hget (PostalDataProcessor.mk Sample.listings Sample.two_records
                   Sample.mapping d)
                [VInt 200; VInt 8000; VInt 9; VInt 450]
                (VFloat (S754_finite false 25 3)) eq_refl).
    + cbn. auto.
    + reflexivity.
    + vm_compute. reflexivity.
Defined.

(** X12. A store exists only for a demographic table in which no area
    code stands twice: when two rows carry the same code, [to_dict] raises
    ValueError and the processor is not built. *)
Theorem store_refuses_repeated_code (T : DataFrame) (ci pi wi di : nat)
  (i j : nat) (r1 r2 : list pyval) :
  index_of "Code_INS" (columns T) = Some ci ->
  index_of "Population" (columns T) = Some pi ->
  index_of "Wealth_Index" (columns T) = Some wi ->
  index_of "Density" (columns T) = Some di ->
  i <> j ->
  nth_error (rows T) i = Some r1 ->
  nth_error (rows T) j = Some r2 ->
  same_key (cell ci r1) (cell ci r2) = true ->
  _create_postal_data_dict T = Raise ValueError.
Proof.
  intros Hc Hp Hw Hd Hij H1 H2 Hk.
  rewrite (create_dict_spec T ci pi wi di Hc Hp Hw Hd).
  destruct (Nat.eqb_spec (List.length (unique (map (cell ci) (rows T))))
                         (List.length (map (cell ci) (rows T))))
    as [E|]; [|reflexivity].
  exfalso. apply unique_full in E. rewrite map_map in E.
  apply Hij.
  apply (proj1 (NoDup_nth_error _) E).
  - rewrite length_map. apply nth_error_Some. congruence.
  - rewrite !nth_error_map, H1, H2. cbn [option_map].
    f_equal. now apply same_key_iff_key.
Qed.

Lemma store_refuses_repeated_code_witness :
  _create_postal_data_dict Sample.repeated_records = Raise ValueError.
Proof.
  apply (store_refuses_repeated_code Sample.repeated_records
           0%nat 1%nat 2%nat 3%nat 0%nat 2%nat
           [VInt 100; VInt 5000; VInt 12; VInt 300]
           [VFloat (S754_finite false 25 2); VInt 1; VInt 1; VInt 1]
           eq_refl eq_refl eq_refl eq_refl).
  - discriminate.
  - reflexivity.
  - reflexivity.
  - reflexivity.
Defined.

(** ** What is written to disk *)

Lemma writes_only_bind {A B} (paths : list string) (m : ST fs A)
  (k : A -> ST fs B) :
  writes_only paths m -> (forall a, writes_only paths (k a)) ->
  writes_only paths (x <- m ;; k x).
Proof.
  intros Hm Hk d r d'. cbn [mbind ST_monad].
  destruct (m d) as [[a|e] d1] eqn:E; intros H q Hq.
  - rewrite (Hk a d1 r d' H q Hq). exact (Hm d _ d1 E q Hq).
  - injection H as <- <-. exact (Hm d _ d1 E q Hq).
Qed.

Lemma writes_only_read_csv (paths : list string) (path : string) :
  writes_only paths (read_csv path).
Proof.
  intros d r d'. unfold read_csv.
  destruct (lookup path d) as [[x|x|x]|]; intros H; now inversion H.
Qed.

Lemma writes_only_lift {A} (paths : list string) (r : result A) :
  writes_only paths (lift r).
Proof. intros d r' d' H. now inversion H. Qed.

Lemma writes_only_to_csv (paths : list string) (df : DataFrame)
  (path : string) :
  In path paths -> writes_only paths (to_csv df path).
Proof.
  intros Hin d r d' H q Hq. unfold to_csv in H. inversion H; subst.
  cbn [lookup]. destruct (String.eqb_spec path q) as [->|]; [|reflexivity].
  contradiction.
Qed.

Lemma writes_only_merge (repr_finite : bool -> positive -> Z -> string)
  (paths : list string) (pp np op : string) :
  In op paths ->
  writes_only paths (merge_with_top_names repr_finite pp np op).
Proof.
  intros Hop. unfold merge_with_top_names.
  apply writes_only_bind; [apply writes_only_read_csv|]. intros L.
  apply writes_only_bind; [apply writes_only_read_csv|]. intros N.
  apply writes_only_bind; [apply writes_only_lift|]. intros S.
  apply writes_only_bind; [apply writes_only_lift|]. intros M.
  now apply writes_only_to_csv.
Qed.

(** X13. [merge_with_top_names] writes its output file and nothing
    else: every other path holds what it held, whether the call returns
    or raises. When it raises nothing at all is written; when it returns,
    the output file holds the merge of the listings file with the summary
    of the names file, with as many rows as the listings. A missing
    listings file gives FileNotFoundError with its path. *)
Theorem merge_with_top_names_effect
  (repr_finite : bool -> positive -> Z -> string) (pp np op : string)
  (d d' : fs) (r : result unit) :
  merge_with_top_names repr_finite pp np op d = (r, d') ->
  (forall q, q <> op -> lookup q d' = lookup q d)
  /\ (lookup pp d = None -> r = Raise (FileNotFoundError pp))
  /\ match r with
     | Raise _ => d' = d
     | Ok _ =>
         exists L N S M,
           lookup pp d = Some (CSV L)
           /\ lookup np d = Some (CSV N)
           /\ top_names_pivot repr_finite N = Ok S
           /\ merge L S "postal_code" = Ok M
           /\ lookup op d' = Some (CSV M)
           /\ List.length (rows M) = List.length (rows L)
     end.
Proof.
  intros Hrun. split.
  { intros q Hq.
    apply (writes_only_merge repr_finite [op] pp np op
             ltac:(now left) d r d' Hrun).
    intros [->|[]]. now apply Hq. }
  revert Hrun. unfold merge_with_top_names, read_csv, lift, to_csv.
  cbn [mbind ST_monad].
  destruct (lookup pp d) as [[L|x|x]|] eqn:EL;
    try (intros H; injection H as <- <-; split; [discriminate|reflexivity]).
  2:{ intros H. injection H as <- <-. split; reflexivity. }
  destruct (lookup np d) as [[N|x|x]|] eqn:EN;
    try (intros H; injection H as <- <-; split; [discriminate|reflexivity]).
  destruct (top_names_pivot repr_finite N) as [S|e] eqn:ES;
    [|intros H; injection H as <- <-; split; [discriminate|reflexivity]].
  destruct (merge L S "postal_code") as [M|e] eqn:EM;
    [|intros H; injection H as <- <-; split; [discriminate|reflexivity]].
  intros H. injection H as <- <-. split; [discriminate|].
  exists L, N, S, M. repeat split; auto.
  - cbn [lookup]. now rewrite String.eqb_refl.
  - destruct (top_names_pivot_rows _ _ _ ES) as (Hc & Hnd & Hrows & _).
    destruct (index_of "postal_code" (columns L)) as [li|] eqn:Hli.
    + destruct (merge_summary L S M li Hli Hc Hnd Hrows EM) as (HR & _).
      rewrite HR. apply length_map.
    + unfold merge, col_index in EM. rewrite Hli in EM. discriminate EM.
Qed.

Lemma merge_with_top_names_effect_witness :
  (forall q, q <> "Propertities.csv" ->
             lookup q Sample.disk_after = lookup q Sample.disk_before_merge)
  /\ (lookup "Step_2_Dataset.csv" Sample.disk_before_merge = None ->
      Ok tt = Raise (FileNotFoundError "Step_2_Dataset.csv"))
  /\ exists L N S M,
       lookup "Step_2_Dataset.csv" Sample.disk_before_merge = Some (CSV L)
       /\ lookup "names.csv" Sample.disk_before_merge = Some (CSV N)
       /\ top_names_pivot Sample.no_repr N = Ok S
       /\ merge L S "postal_code" = Ok M
       /\ lookup "Propertities.csv" Sample.disk_after = Some (CSV M)
       /\ List.length (rows M) = List.length (rows L).
Proof.
  apply (merge_with_top_names_effect Sample.no_repr
           "Step_2_Dataset.csv" "names.csv" "Propertities.csv"
           Sample.disk_before_merge Sample.disk_after (Ok tt)).
  vm_compute. reflexivity.
Defined.

Lemma writes_only_init (paths : list string) (p1 p2 p3 : string) :
  writes_only paths (__init__ p1 p2 p3).
Proof.
  intros d r d' H q Hq. now rewrite (init_state _ _ _ _ _ _ H).
Qed.

Lemma writes_only_call {S A} (paths : list string) (m : ST S A) (obj : S) :
  writes_only paths (call m obj).
Proof.
  intros d r d'. unfold call.
  destruct (m obj) as [[a|e] obj']; intros H; now inversion H.
Qed.

(** X14. The script writes Step_2_Dataset.csv, names.csv and
    Propertities.csv and nothing else: whether it returns or raises, every
    other path, the four input files among them, holds what it held. *)
Theorem main_writes_only_outputs
  (repr_finite : bool -> positive -> Z -> string) :
  writes_only output_paths (main repr_finite).
Proof.
  unfold main, output_paths.
  apply writes_only_bind; [apply writes_only_init|]. intros processor.
  apply writes_only_bind; [apply writes_only_call|]. intros enriched.
  apply writes_only_bind.
  { apply writes_only_to_csv. cbn. auto. }
  intros _.
  apply writes_only_bind; [apply writes_only_read_csv|]. intros df_names.
  apply writes_only_bind; [apply writes_only_lift|]. intros formatted.
  apply writes_only_bind.
  { apply writes_only_to_csv. cbn. auto. }
  intros _. apply writes_only_merge. cbn. auto.
Qed.

Lemma main_writes_only_outputs_witness :
  lookup raw_names_path (snd (main Sample.no_repr Sample.disk_without_names))
  = lookup raw_names_path Sample.disk_without_names
  /\ lookup property_data_path Sample.disk_after
     = lookup property_data_path Sample.disk.
Proof.
  split.
  - apply (main_writes_only_outputs Sample.no_repr Sample.disk_without_names
             (fst (main Sample.no_repr Sample.disk_without_names))).
    + apply surjective_pairing.
    + unfold output_paths. cbn.
      intros [H|[H|[H|[]]]]; discriminate H.
  - apply (main_writes_only_outputs Sample.no_repr Sample.disk (Ok tt)).
    + vm_compute. reflexivity.
    + unfold output_paths. cbn.
      intros [H|[H|[H|[]]]]; discriminate H.
Defined.

(** X15. The script is not all or nothing: it stops at the first step
    that raises and keeps the files written before. When enrichment
    raises, nothing has been written; when the raw names file is missing,
    or a raw postal code does not normalize, Step_2_Dataset.csv has been
    written and names.csv and Propertities.csv have not. *)
Theorem main_stops_at_first_error
  (repr_finite : bool -> positive -> Z -> string) (d : fs)
  (processor : t) :
  __init__ property_data_path postal_data_path ins_to_postal_path d
  = (Ok processor, d) ->
  (forall e processor',
      enrich_property_data processor = (Raise e, processor') ->
      main repr_finite d = (Raise e, d))
  /\ (forall out processor',
        enrich_property_data processor = (Ok out, processor') ->
        lookup raw_names_path d = None ->
        main repr_finite d
        = (Raise (FileNotFoundError raw_names_path),
           ("Step_2_Dataset.csv", CSV (property_data processor')) :: d))
  /\ (forall out processor' raw e,
        enrich_property_data processor = (Ok out, processor') ->
        lookup raw_names_path d = Some (CSV raw) ->
        format_postal_codes raw "postal_code" = Raise e ->
        main repr_finite d
        = (Raise e,
           ("Step_2_Dataset.csv", CSV (property_data processor')) :: d)).
Proof.
  intros Hinit. unfold main. cbn [mbind ST_monad]. rewrite Hinit.
  unfold call. split; [|split].
  - intros e processor' Hrun. now rewrite Hrun.
  - intros out processor' Hrun Hraw. rewrite Hrun. cbn [snd].
    unfold save_enriched_data, to_csv, read_csv.
    unfold lookup at 1.
    change (String.eqb "Step_2_Dataset.csv" raw_names_path) with false.
    fold lookup. now rewrite Hraw.
  - intros out processor' raw e Hrun Hraw Hfmt. rewrite Hrun. cbn [snd].
    unfold save_enriched_data, to_csv, read_csv.
    unfold lookup at 1.
    change (String.eqb "Step_2_Dataset.csv" raw_names_path) with false.
    fold lookup. rewrite Hraw. unfold lift. now rewrite Hfmt.
Qed.

Lemma main_stops_at_first_error_witness :
  main Sample.no_repr Sample.disk_without_names
  = (Raise (FileNotFoundError raw_names_path),
     ("Step_2_Dataset.csv", CSV Sample.enriched_listings)
     :: Sample.disk_without_names).
Proof.
  assert (Hinit : __init__ property_data_path postal_data_path
                    ins_to_postal_path Sample.disk_without_names
                  = (Ok (PostalDataProcessor.mk Sample.listings
                           Sample.postal_table Sample.mapping
                           Sample.demographics),
                     Sample.disk_without_names))
    by (vm_compute; reflexivity).
  destruct (main_stops_at_first_error Sample.no_repr _ _ Hinit)
    as (_ & Hnames & _).
  apply (Hnames Sample.enriched_listings
           (PostalDataProcessor.mk Sample.enriched_listings
              Sample.postal_table Sample.mapping Sample.demographics)).
  - vm_compute. reflexivity.
  - vm_compute. reflexivity.
Defined.

(** ** More on the summary and the merge *)

Lemma StronglySorted_distinct {A B} (R : A -> A -> Prop) (f : A -> B)
  (l : list A) :
  StronglySorted R l -> NoDup (map f l) ->
  StronglySorted (fun a b => R a b /\ f a <> f b) l.
Proof.
  induction 1 as [|x l Hs IH Hx]; cbn [map]; intros Hnd; constructor.
  - apply IH. now inversion Hnd.
  - inversion Hnd as [|? ? Hin _]; subst.
    rewrite Forall_forall in *. intros y Hy. split; [auto|].
    intros E. apply Hin. rewrite E. now apply in_map.
Qed.

Lemma StronglySorted_by_image {A B} (R : B -> B -> Prop) (f : A -> B)
  (l : list A) :
  StronglySorted (fun a b => R (f a) (f b)) l -> StronglySorted R (map f l).
Proof.
  induction 1 as [|x l Hs IH Hx]; cbn [map]; constructor; auto.
  rewrite Forall_forall in *. intros y Hy.
  apply in_map_iff in Hy as (a & <- & Ha). auto.
Qed.

Lemma same_key_int (a b : Z) : same_key (VInt a) (VInt b) = true -> a = b.
Proof.
  intros H. apply same_key_iff in H.
  destruct (key_of_int a) as (n1 & e1 & E1 & -> & _).
  destruct (key_of_int b) as (n2 & e2 & E2 & -> & _).
  congruence.
Qed.

(** X16. The summary comes sorted: for a name table whose postal codes
    are integers or missing (a formatted table) and which has a record
    with a postal code, the aggregator returns a summary whose rows are in
    strictly increasing order of postal code, and its keys are exactly
    the postal codes of the records. *)
Theorem summary_sorted_by_postal_code
  (repr_finite : bool -> positive -> Z -> string) (N : DataFrame)
  (pc ni fi : nat) :
  NoDup (columns N) ->
  index_of "postal_code" (columns N) = Some pc ->
  index_of "TX_FST_NAME" (columns N) = Some ni ->
  index_of "MS_FREQUENCY" (columns N) = Some fi ->
  Forall (fun r => is_number (cell fi r) = true) (rows N) ->
  Forall (fun r => is_int (cell pc r) = true \/ isna (cell pc r) = true)
         (rows N) ->
  (exists r, In r (rows N) /\ isna (cell pc r) = false) ->
  exists S,
    top_names_pivot repr_finite N = Ok S
    /\ StronglySorted (fun row1 row2 => code_of row1 < code_of row2)
                      (rows S)
    /\ (forall r z, In r (rows N) -> cell pc r = VInt z ->
          exists row, In row (rows S) /\ cell 0 row = VInt z)
    /\ (forall row, In row (rows S) ->
          exists r, In r (rows N) /\ cell pc r = VInt (code_of row)).
Proof.
  intros _ Hpc Hni Hfi Hnum Hcodes Hcoded.
  apply (numeric_dtype_at N "MS_FREQUENCY" fi Hfi) in Hnum.
  rewrite (top_names_pivot_spec repr_finite N pc ni fi Hpc Hni Hfi Hnum
             Hcoded).
  eexists. split; [reflexivity|]. cbn [rows]. unfold summary_rows.
  set (T := rows (top_frame pc ni fi N)).
  set (ts := row_types N).
  assert (Hint : forall k, In k (group_keys (map (cell 0) T)) ->
                           exists z r, k = VInt z /\ In r (rows N)
                                       /\ cell pc r = VInt z).
  { intros k Hk.
    destruct (summary_key pc ni fi N k Hk) as (Hna & (r0 & Hr0 & ->) & _).
    rewrite Forall_forall in Hcodes.
    destruct (Hcodes r0 Hr0) as [H|H]; [|congruence].
    destruct (cell pc r0) eqn:E; try discriminate. eauto. }
  split; [|split].
  - apply StronglySorted_by_image.
    pose proof (group_keys_NoDup (map (cell 0) T)) as Hnd.
    assert (Hsorted : StronglySorted
                        (fun a b => key_leb (key_of a) (key_of b) = true)
                        (group_keys (map (cell 0) T))).
    { unfold group_keys in *. apply sort_by_sorted.
      - intros a b Ha Hb.
        destruct (Hint a) as (za & _ & -> & _); [now apply sort_by_In|].
        destruct (Hint b) as (zb & _ & -> & _); [now apply sort_by_In|].
        rewrite !key_leb_int, !Z.leb_le. lia.
      - intros a b c Ha Hb Hc.
        destruct (Hint a) as (za & _ & -> & _); [now apply sort_by_In|].
        destruct (Hint b) as (zb & _ & -> & _); [now apply sort_by_In|].
        destruct (Hint c) as (zc & _ & -> & _); [now apply sort_by_In|].
        rewrite !key_leb_int, !Z.leb_le. lia. }
    apply (StronglySorted_distinct _ key_of) in Hsorted; [|exact Hnd].
    eapply StronglySorted_In_impl; [|exact Hsorted].
    intros a b Ha Hb [Hle Hne].
    destruct (Hint a Ha) as (za & _ & -> & _).
    destruct (Hint b Hb) as (zb & _ & -> & _).
    unfold code_of. change (cell 0 [VInt za; _]) with (VInt za).
    change (cell 0 [VInt zb; _]) with (VInt zb). cbv beta iota.
    rewrite key_leb_int, Z.leb_le in Hle.
    assert (za <> zb) by congruence. lia.
  - intros r z Hr Hz.
    destruct (summary_covers pc ni fi N r Hr) as (k & Hk & Hkr).
    { now rewrite Hz. }
    destruct (Hint k Hk) as (z' & _ & -> & _).
    rewrite Hz in Hkr. apply same_key_int in Hkr as ->.
    eexists. split.
    + apply in_map_iff. exists (VInt z). split; [reflexivity|exact Hk].
    + reflexivity.
  - intros row Hrow. apply in_map_iff in Hrow as (k & <- & Hk).
    destruct (Hint k Hk) as (z & r & -> & Hr & Hz).
    exists r. split; [exact Hr|]. exact Hz.
Qed.

Lemma summary_sorted_by_postal_code_witness :
  exists S,
    top_names_pivot Sample.no_repr Sample.names = Ok S
    /\ StronglySorted (fun row1 row2 => code_of row1 < code_of row2)
                      (rows S)
    /\ (forall r z, In r (rows Sample.names) -> cell 0 r = VInt z ->
          exists row, In row (rows S) /\ cell 0 row = VInt z)
    /\ (forall row, In row (rows S) ->
          exists r, In r (rows Sample.names)
                    /\ cell 0 r = VInt (code_of row)).
Proof.
  apply (summary_sorted_by_postal_code Sample.no_repr Sample.names
           0%nat 1%nat 2%nat); [|reflexivity|reflexivity|reflexivity| | |].
  - repeat constructor; cbn; intuition discriminate.
  - repeat constructor.
  - repeat (apply Forall_cons;
            [first [left; reflexivity | right; reflexivity]|]).
    apply Forall_nil.
  - exists [VInt 1000; VStr "Anna"; VInt 50]. split; [now left|reflexivity].
Defined.

(** X17. A listing without a postal code never gets names: the summary
    has no row for missing codes, so the merge attaches NaN to it. *)
Theorem merge_missing_postal_code
  (repr_finite : bool -> positive -> Z -> string) (L N S M : DataFrame)
  (li i : nat) (l : list pyval) :
  index_of "postal_code" (columns L) = Some li ->
  top_names_pivot repr_finite N = Ok S ->
  merge L S "postal_code" = Ok M ->
  nth_error (rows L) i = Some l ->
  isna (cell li l) = true ->
  nth_error (rows M) i = Some (l ++ [nan]).
Proof.
  intros Hli Hrun HM Hl Hna.
  destruct (top_names_pivot_rows _ _ _ Hrun) as (Hc & Hnd & Hrows & _).
  destruct (merge_summary L S M li Hli Hc Hnd Hrows HM) as (HR & _).
  rewrite HR, nth_error_map, Hl. cbn [option_map]. do 3 f_equal.
  unfold attached.
  destruct (find _ (rows S)) as [row|] eqn:Ef; [|reflexivity].
  exfalso. apply find_some in Ef as [Hrow Hk].
  destruct (top_names_pivot_keys _ _ _ Hrun) as (pc & _ & Hkeys).
  destruct (Hkeys row Hrow) as [Hrna _].
  rewrite (same_key_isna _ _ Hk) in Hna. congruence.
Qed.

Lemma merge_missing_postal_code_witness :
  nth_error (rows Sample.merged_listings) 2
  = Some ([VInt 180000; nan] ++ [nan]).
Proof.
  apply (merge_missing_postal_code Sample.no_repr Sample.to_merge
           Sample.names Sample.names_summary Sample.merged_listings
           1%nat 2%nat [VInt 180000; nan] eq_refl).
  - vm_compute. reflexivity.
  - vm_compute. reflexivity.
  - reflexivity.
  - reflexivity.
Defined.

(** X18. The errors of the aggregator. Without a postal_code column it
    raises KeyError with that name; when a record that has a postal code
    carries text in MS_FREQUENCY, [nlargest] refuses the column and the
    aggregator raises TypeError. *)
Theorem top_names_pivot_errors
  (repr_finite : bool -> positive -> Z -> string) (N : DataFrame) :
  (~ has_column N "postal_code" ->
   top_names_pivot repr_finite N = Raise (KeyError "postal_code"))
  /\ (forall pc ni fi r s,
        index_of "postal_code" (columns N) = Some pc ->
        index_of "TX_FST_NAME" (columns N) = Some ni ->
        index_of "MS_FREQUENCY" (columns N) = Some fi ->
        In r (rows N) ->
        isna (cell pc r) = false ->
        cell fi r = VStr s ->
        top_names_pivot repr_finite N = Raise TypeError).
Proof.
  split.
  - intros H. apply index_of_None in H.
    unfold top_names_pivot, top_names, groupby_apply, groupby, col_index.
    now rewrite H.
  - intros pc ni fi r s Hpc Hni Hfi Hr Hna Hs.
    assert (Ht : numeric (dtype_at N "MS_FREQUENCY") = false).
    { unfold dtype_at. rewrite Hfi.
      rewrite (dtype_of_text _ s); [reflexivity|].
      rewrite <- Hs. now apply in_map. }
    destruct (postal_keys pc N) as [|k ks] eqn:Ek.
    + exfalso.
      assert (Hne : postal_keys pc N <> [])
        by (apply postal_keys_coded; eauto).
      congruence.
    + unfold top_names_pivot, top_names, groupby_apply, groupby, col_index.
      rewrite Hpc. cbn [mbind result_monad Py.bind].
      fold (postal_keys pc N). rewrite Ek. cbn [map mapM snd].
      unfold top5 at 1, nlargest, col_index. cbn [columns].
      rewrite Hfi. cbn [mbind result_monad Py.bind]. rewrite Ht.
      reflexivity.
Qed.

Lemma top_names_pivot_errors_witness :
  top_names_pivot Sample.no_repr Sample.no_postal_code
  = Raise (KeyError "postal_code")
  /\ top_names_pivot Sample.no_repr Sample.text_frequency = Raise TypeError.
Proof.
  split.
  - apply (proj1 (top_names_pivot_errors Sample.no_repr
                    Sample.no_postal_code)).
    unfold has_column. cbn. intros [H|[]]. discriminate.
  - apply (proj2 (top_names_pivot_errors Sample.no_repr
                    Sample.text_frequency)
             0%nat 1%nat 2%nat [VInt 2000; VStr "Ben"; VStr "many"] "many"
             eq_refl eq_refl eq_refl).
    + cbn. auto.
    + reflexivity.
    + reflexivity.
Defined.
